(* ===== verification/_CoqProject ===== *)
-Q . S2P
Prelude.v
WaitStatus.v
Backend.v
Kernel.v
Jobs.v
Signals.v
Tokenize.v
Input.v
Expand.v
Command.v
Launcher.v
Shell.v
