(* ===== verification/Prelude.v ===== *)
(** * A verification development for smallsh (src/smallsh.c)

    smallsh is a small interactive shell written in C (one file,
    src/smallsh.c).  It reads a line, recognises the built-ins [exit], [cd]
    and [status], and otherwise forks a child that applies the [<] / [>]
    redirections and [execvp]s the command, in the foreground or, when the
    line ends in [&] and foreground-only mode is off, in the background.
    Background pids are kept in a fixed array of 50 slots that is polled
    without blocking after every line, and a SIGTSTP handler flips the
    foreground-only flag [canRunBG].

    ** Parts of the program and how they interact

    - wait statuses (the [int] filled in by [waitpid]) are decoded with the
      glibc macros WIFEXITED, WEXITSTATUS, WIFSIGNALED, WTERMSIG by
      [checkStatus], [reapChildren] and [forkAndExec];
    - the tokenizer [tokenizeInput] ([strtok] on [" "]) feeds [expandPID]
      ([$$] replaced by the shell's pid), whose result the loop classifies;
    - [checkIfBG] strips a trailing [&]; [forkAndExec] forks; the child runs
      [checkReDirect] (open + dup2 on its own descriptor table) and
      [execvp]; the parent either registers the pid ([addPid]) or blocks in
      [waitpid];
    - the job registry ([pidArray]/[pidCount] in [shellLoop], operations
      [addPid], [removePid], [reapChildren], [killBG], [reapBG]) is read
      and written by the main loop only;
    - the SIGTSTP handler [toggleBG] writes the flag [canRunBG], read by
      [checkReDirect] in the child and by [forkAndExec] in the parent;
    - [shellLoop] ties everything together, [main] installs the handlers.

    ** Files of the development (in dependency order)

    Each file holds a [Module] named after it; [Jobs] and [Shell] hold a
    second one, for the specification of the reap pass and for the
    properties of runs of the loop.

    - [Prelude] (this file): the libraries (stdpp's lists, maps and
      strings, [ZArith]), the [sh_scope] notations ([a ==s b] for
      [strcmp(a, b) == 0]), the [smallsh] hint databases, the tactics
      ([invc], [streq_case], [bool_lia], [decide_by_eval], [str_simpl]), the
      C-level helpers shared by all components ([string_of_Z] for
      [printf("%d")], [nl]) and generic lemmas on strings and [mapM].
    - [WaitStatus]: the status word filled in by [waitpid] as a [Z], the
      glibc macros WIFEXITED, WEXITSTATUS, WIFSIGNALED (with its [signed
      char] cast) and WTERMSIG as [Z.land]/[Z.shiftr], the kernel's
      encodings of an exit and of a death by signal, and [checkStatus]
      (smallsh.c 224-240).
    - [Backend]: the interface ([Class ProcBackend] with the laws
      [ProcBackendLaws]) that the job registry needs from the operating
      system: liveness of a child, [waitpid] with and without WNOHANG,
      [kill(SIGTERM)].
    - [Kernel]: a process table ([gmap] from pid to [Running], [Stopped]
      or [Zombie status]) with [fork], [waitpid] (without [WUNTRACED]),
      [kill] and the environment's events: a child terminates, the
      terminal's SIGTSTP stops the children of the process group
      ([stop_group]); an instance of the [Backend] interface (which knows
      stopped children: SIGTERM stays pending on them and a blocking wait
      on them never returns) with its laws proved.
    - [Jobs]: the 50-slot [pidArray] and [pidCount] of [shellLoop] as a
      [registry]; [addPid], [removePid] (search loop [find_pid], shift loop
      [shift_down]), [reapChildren] (the [for] loop with its [i--],
      [reap_loop]), [killBG], [reapBG] (lines 371-589), proved in a
      [Section] over any [ProcBackendLaws] instance.  Its second module,
      [ReapSpec], writes the spec's [reapOnce] as functions of the
      process table (which jobs have [finished], the messages, the jobs
      kept, the status left) and proves on the [Kernel] instance that
      [reapChildren] implements it.
    - [Signals]: [toggleBG] (lines 542-556) with [write]'s explicit byte
      counts; [main]'s three [struct sigaction] (handler, full or empty
      mask, [SA_RESTART] or not, lines 737-753) and the SIGINT/SIGTSTP
      dispositions of the shell (756-757), of the child before [execvp]
      (487-491) and after it.
    - [Tokenize]: [tokenizeInput] (56-73): the [strtok] loop on [" "] and
      the 512-slot, 50-byte-token storage.
    - [Input]: the read loop's [getline] on an input stream (line 630:
      up to and including the newline, the rest at end of file, [-1] when
      nothing is left) and the chop [userInput[strlen(userInput) - 1] =
      '\0'] (line 640) on the C string the buffer holds.
    - [Expand]: [expandPID] (106-152): [strstr], the 40-byte [post]
      buffer, [snprintf]'s 8-character pid, the do/while loop that
      searches again from the start after each replacement.
    - [Command]: the argument slots [userCmds] ([list (option string)],
      [None] for NULL), [checkIfBG] (200-212), [checkReDirect] (251-360)
      over the child's descriptor table ([gmap Z ofile]) with [open] /
      [dup2] and a filesystem oracle, written in a small monad [cm] whose
      results are: continue, [exit(code)] after a diagnostic, or undefined
      behaviour; and the child of [forkAndExec] up to [execvp]
      ([run_child], 481-502); the debugging dump [printInput] (83-89),
      whose calls are commented out.
    - [Launcher]: the shell's state ([shell]: [canRunBG],
      [childExitMethod], registry, process table, standard output and
      error, and the ghost map of what each child does), [forkAndExec]
      (461-529) and the two ends of the foreground wait: the child
      terminates ([fg_wait]) or a SIGTSTP interrupts [waitpid]
      ([fg_interrupted]).
    - [Shell]: [shellLoop] (600-722), [changeDirectory] (164-189) and the
      end of [main]: the state machine [shell_step] driven by the
      environment's events (a line, a failed read, SIGTSTP to the shell
      alone or from the terminal's suspend key to the whole process
      group, a child's termination, the foreground wait returning), the
      effect of [SA_RESTART] on the two blocking calls, its reachable
      states
      ([reachable], an inductive closure) and the registry invariant.
      Its second module, [ShellProps], proves properties of runs of the
      loop ([run], a list of events) that compose the components.

    ** What the theorems show

    - The composed shell: in every reachable state the registry holds
      distinct live children and no loop fails to return
      ([Shell.reachable_inv], by induction on [reachable] with one
      preservation lemma per event); [exit] kills and reaps every job;
      [status] after a foreground command reports how it ended; an
      external command line goes through the chop, [strtok], [$$]
      expansion and dispatch to a child that runs the expanded tokens
      ([ShellProps.foreground_line_runs]); [cd P]
      moves the working directory to where [chdir(P)] leads or exits
      with 1 ([Shell.cd_fails_exits]), and [cd] alone to HOME, exiting
      with 1 when HOME is unset ([Shell.cd_home]).
    - Line input: [getline] reads a text of lines back line by line and
      loses no byte, and the read loop with its chop hands the dispatch
      exactly the lines of a text ([Input.chop_reads_lines]).
    - Safety along runs ([ShellProps]): only SIGTSTP changes the mode
      ([mode_only_by_tstp]); in foreground-only mode no job is ever
      registered ([fg_mode_no_new_jobs]), by induction on the list of
      events with one lemma per event.
    - Refinements: the rewinding array loop of [reapChildren] computes one
      WNOHANG pass over the list of jobs, and on the kernel that pass is
      the spec's [reapOnce] ([ReapSpec.reapChildren_meets_spec]); a blank
      line or a comment runs exactly that pass
      ([ShellProps.blank_line_reaps]); [removePid] deletes from the set of
      jobs; [expandPID]'s restarting loop equals a one-pass replacement
      and leaves no [$$] in any token ([Expand.expandPID_no_dd]).
    - Functional behaviour of each operation on each branch: the
      descriptors and argv with which a child reaches [execvp], the
      background and foreground launches, the foreground wait, the
      dispositions of a child, [toggleBG], [checkIfBG], the status
      macros (round trips through the kernel's encodings), [strtok]
      splitting on the space alone ([Tokenize.strtok_all_wf]).
    - Error paths and bounds: fork failure, a failing [cd], a missing
      input file, buffer overflows of the tokenizer and of [expandPID],
      the 51st background job, undefined behaviour on a blank line or a
      lone [&].
    - Findings where the code and its spec part ways, as theorems over
      all inputs of their kind (the lone [&] and the initial status word
      as closed examples): [status] reports background jobs, a SIGTSTP during
      the foreground wait leaves the child unwaited and reprints a stale
      status, end of input loops for ever, redirection descriptors leak
      into the program, a last line without its newline loses its last
      character ([exit] becomes [exi]), a line starting with NUL makes the
      chop write before the buffer, and after the suspend key stops a
      background job [exit] blocks for ever in [reapBG].

    ** Fuel

    [reap_loop] gets [2 * pidCount + 1] iterations from [shellLoop]: each
    iteration either advances the index or removes a job, so
    [2 * pidCount] iterations reach the bound check
    ([Jobs.reapChildren_refines]); when a job is not a live child no fuel
    is enough ([Jobs.reapChildren_diverges]), which is why running out
    of fuel is read as the loop never returning.  [expand_loop] gets the
    token's length plus one: each iteration removes two dollars
    ([Expand.expandPID_spec] shows the fuel never runs out).

    ** What is not modelled

    [getline]'s buffer reallocation is not observable and not modelled;
    a read that fails is an event (end of file or a signal).  [chdir]
    (from a working directory, to the directory reached or failure), the
    filesystem a child sees from a working directory, and
    [getenv("HOME")] are oracles of the environment record; the programs
    run by [execvp] are opaque, their termination status an input of the
    model (a child that exits before [execvp] can only leave its own exit
    status, and keeps the inherited [toggleBG] until then, so the
    terminal's SIGTSTP does not stop it).  Signals are delivered at the
    two points where the shell blocks ([getline] and the foreground
    [waitpid]).  SIGCONT sent by another process, pid reuse and file
    contents are not modelled (a stopped child stays stopped), and the
    output of the children is not interleaved with the shell's. *)

From stdpp Require Export base list gmap strings.
From Stdlib Require Export ZArith Ascii DecimalString Lia.

Declare Scope sh_scope.
Delimit Scope sh_scope with sh.

(** ** C strings and [strcmp]

    The C code compares strings with [strcmp(a, b) == 0]; that is string
    equality, written [a ==s b] here. *)

Definition streq (a b : string) : bool := String.eqb a b.
Notation "a ==s b" := (streq a b) (at level 70, no associativity) : sh_scope.
Local Open Scope sh_scope.

(** [printf("%d", n)]: decimal rendering of a C [int]. *)
Definition string_of_Z (z : Z) : string := NilZero.string_of_int (Z.to_int z).

(** Output written to a stream, one [printf] call per element, in order. *)
Abbreviation output := (list string).

(** ** Generic lemmas *)

Lemma streq_spec (a b : string) : reflect (a = b) (a ==s b).
Proof. unfold streq. apply String.eqb_spec. Qed.

Lemma streq_refl (a : string) : (a ==s a) = true.
Proof. unfold streq. apply String.eqb_refl. Qed.

Lemma streq_true (a b : string) : (a ==s b) = true -> a = b.
Proof. by destruct (streq_spec a b). Qed.

Lemma streq_false (a b : string) : (a ==s b) = false -> a <> b.
Proof. by destruct (streq_spec a b). Qed.

Lemma streq_neq (a b : string) : a <> b -> (a ==s b) = false.
Proof. by destruct (streq_spec a b). Qed.

(** Results of fuel-indexed functions are stable under more fuel. *)
Definition fuel_monotone {A : Type} (f : nat -> option A) : Prop :=
  forall n m r, n <= m -> f n = Some r -> f m = Some r.

Create HintDb smallsh discriminated.
Create Rewrite HintDb smallsh_rw.
#[export] Hint Resolve streq_refl streq_neq : smallsh.
#[export] Hint Rewrite streq_refl : smallsh_rw.

(** ** Tactics *)

(** [invc H]: invert a hypothesis and clean up. *)
Ltac invc H := inversion H; subst; clear H.

(** [streq_case]: split on every [a ==s b] test of the goal. *)
Ltac streq_case :=
  repeat match goal with
  | |- context [?a ==s ?b] =>
      destruct (streq_spec a b); subst; try congruence
  end.

(** [sh_auto]: close the routine goals of the development. *)
Ltac sh_auto := eauto with smallsh; try lia.

(** [bool_lia]: an equation between boolean comparisons on [Z], closed
    by turning both sides into propositions. *)
Ltac bool_lia :=
  apply Bool.eq_iff_eq_true;
  rewrite ?Bool.andb_true_iff, ?Bool.negb_true_iff, ?Z.ltb_lt, ?Z.leb_le,
    ?Z.eqb_eq;
  split; intros; lia.

(** The newline character, written ["\n"] in the C sources. *)
Definition nl : string := String (Ascii.ascii_of_nat 10) EmptyString.

(** Reading a window [[i, i + S n)] of an array: its first slot, then the
    window one further. *)
Lemma take_S_drop {A} `{Inhabited A} (l : list A) (i n : nat) :
  (i < length l)%nat -> take (S n) (drop i l) = l !!! i :: take n (drop (S i) l).
Proof.
  intros Hi. rewrite (drop_S l (l !!! i) i) by (by apply list_lookup_lookup_total_lt).
  done.
Qed.

(** [decide_by_eval]: prove a decidable proposition about closed values
    by evaluating its decision procedure. *)
Ltac decide_by_eval := apply (bool_decide_unpack _); vm_compute; exact I.

(** ** Strings

    stdpp makes [simpl] leave [String.append] alone; these equations
    unfold it one step. *)
Lemma str_app_nil_l (b : string) : ("" ++ b)%string = b.
Proof. reflexivity. Qed.

Lemma str_app_cons (c : ascii) (a b : string) :
  (String c a ++ b)%string = String c (a ++ b)%string.
Proof. reflexivity. Qed.

#[export] Hint Rewrite str_app_nil_l str_app_cons : smallsh_rw.

(** [str_simpl]: unfold appends on known heads, then [simpl]. *)
Ltac str_simpl := autorewrite with smallsh_rw; simpl.

Lemma str_app_nil_r (a : string) : (a ++ "")%string = a.
Proof. induction a as [|x a IH]; str_simpl; [done|]. by rewrite IH. Qed.

Lemma str_app_assoc (a b c : string) : (a ++ b ++ c = (a ++ b) ++ c)%string.
Proof. induction a as [|x a IH]; str_simpl; [done|]. by rewrite IH. Qed.

Lemma str_length_app (a b : string) :
  String.length (a ++ b) = (String.length a + String.length b)%nat.
Proof. induction a as [|x a IH]; str_simpl; [done|]. by rewrite IH. Qed.

(** [mapM] in the option monad, one element at a time. *)
Lemma mapM_cons_option {A B} (f : A -> option B) (x : A) (l : list A) :
  mapM f (x :: l) =
  match f x with
  | Some y => match mapM f l with Some k => Some (y :: k) | None => None end
  | None => None
  end.
Proof. simpl. destruct (f x); simpl; [|done]. by destruct (mapM f l). Qed.
