(* ===== verification/WaitStatus.v ===== *)
(** * Wait statuses: the [int] that [waitpid] fills in

    [childExitMethod] in [shellLoop] is a C [int] written by [waitpid] and
    read through the glibc macros of <sys/wait.h>.  This file gives the
    macros as bit operations on [Z] (exactly as bits/waitstatus.h defines
    them, including the [signed char] cast of WIFSIGNALED), the encodings
    the kernel uses for an exit and for a death by signal, the decoding
    into an outcome, and [checkStatus] (smallsh.c, lines 224-240), which
    implements the [status] built-in. *)

From S2P Require Import Prelude.
Local Open Scope Z_scope.
Local Open Scope sh_scope.

Module WaitStatus.

(** ** The glibc macros *)

(** [(signed char) x]: the low byte of [x] read as a two's-complement
    byte. *)
Definition scast8 (x : Z) : Z :=
  let b := Z.land x 255 in if 128 <=? b then b - 256 else b.

Definition WTERMSIG (s : Z) : Z := Z.land s 127.
Definition WEXITSTATUS (s : Z) : Z := Z.shiftr (Z.land s 65280) 8.
Definition WIFEXITED (s : Z) : bool := WTERMSIG s =? 0.
Definition WIFSIGNALED (s : Z) : bool :=
  0 <? Z.shiftr (scast8 (Z.land s 127 + 1)) 1.

(** ** What the kernel stores

    [exit(c)] (and a [return c] from [main]) leaves [(c & 0xff) << 8];
    a death by signal [n] leaves [n], with bit [0x80] set when a core was
    dumped. *)
Definition status_of_exit (c : Z) : Z := Z.shiftl (Z.land c 255) 8.
Definition status_of_signal (n : Z) (core : bool) : Z :=
  Z.lor n (if core then 128 else 0).

(** The outcome a status denotes, read the way smallsh reads it: first
    WIFEXITED, then WIFSIGNALED. *)
Inductive outcome := Exited (code : Z) | Signaled (sig : Z) | NoOutcome.

#[export] Instance outcome_eq_dec : EqDecision outcome.
Proof. solve_decision. Qed.

Definition decode (s : Z) : outcome :=
  if WIFEXITED s then Exited (WEXITSTATUS s)
  else if WIFSIGNALED s then Signaled (WTERMSIG s)
  else NoOutcome.

(** ** The [status] built-in: [checkStatus] *)

Definition exit_value_msg (code : Z) : string :=
  ("exit value " ++ string_of_Z code ++ nl)%string.
Definition terminated_msg (sig : Z) : string :=
  ("terminated by signal " ++ string_of_Z sig ++ nl)%string.

Definition checkStatus (childExitMethod : Z) : output :=
  if WIFEXITED childExitMethod then
    [exit_value_msg (WEXITSTATUS childExitMethod)]
  else if WIFSIGNALED childExitMethod then
    [terminated_msg (WTERMSIG childExitMethod)]
  else [].

(** ** Arithmetic form of the macros *)

Lemma WTERMSIG_mod (s : Z) : WTERMSIG s = s mod 128.
Proof. unfold WTERMSIG. change 127 with (Z.ones 7). by rewrite Z.land_ones. Qed.

Lemma WEXITSTATUS_mod (s : Z) : WEXITSTATUS s = (s / 256) mod 256.
Proof.
  unfold WEXITSTATUS. rewrite Z.shiftr_land.
  change (Z.shiftr 65280 8) with (Z.ones 8).
  rewrite Z.land_ones, Z.shiftr_div_pow2 by lia. done.
Qed.

Lemma WIFSIGNALED_range (s : Z) :
  WIFSIGNALED s = (1 <=? WTERMSIG s) && (WTERMSIG s <=? 126).
Proof.
  unfold WIFSIGNALED, scast8. fold (WTERMSIG s). rewrite WTERMSIG_mod.
  pose proof (Z.mod_pos_bound s 128 ltac:(lia)) as Hb.
  change 255 with (Z.ones 8). rewrite Z.land_ones by lia.
  rewrite (Z.mod_small (s mod 128 + 1)) by lia.
  destruct (Z.leb_spec 128 (s mod 128 + 1)).
  - by assert (s mod 128 = 127) as -> by lia.
  - rewrite Z.shiftr_div_pow2 by lia. change (2 ^ 1) with 2.
    apply Bool.eq_iff_eq_true.
    rewrite Bool.andb_true_iff, Z.ltb_lt, !Z.leb_le.
    split; intros; Z.div_mod_to_equations; lia.
Qed.

#[export] Hint Rewrite WTERMSIG_mod WEXITSTATUS_mod : smallsh_rw.

(** ** The fields of the two encodings *)

Lemma status_of_exit_fields (c : Z) :
  WIFEXITED (status_of_exit c) = true /\ WEXITSTATUS (status_of_exit c) = c mod 256.
Proof.
  unfold status_of_exit, WIFEXITED.
  change 255 with (Z.ones 8). rewrite Z.land_ones, Z.shiftl_mul_pow2 by lia.
  change (2 ^ 8) with 256. rewrite WTERMSIG_mod, WEXITSTATUS_mod.
  rewrite Z.div_mul, Z.mod_mod by lia.
  replace (c mod 256 * 256) with (c mod 256 * 2 * 128) by lia.
  by rewrite Z.mod_mul.
Qed.

Lemma status_of_signal_fields (n : Z) (core : bool) :
  1 <= n <= 126 ->
  WIFEXITED (status_of_signal n core) = false /\ WIFSIGNALED (status_of_signal n core) = true /\
  WTERMSIG (status_of_signal n core) = n.
Proof.
  intros Hn.
  assert (Ht : WTERMSIG (status_of_signal n core) = n).
  { unfold WTERMSIG, status_of_signal. rewrite Z.land_lor_distr_l.
    change 127 with (Z.ones 7). rewrite Z.land_ones, Z.mod_small by lia.
    destruct core; simpl; by rewrite Z.lor_0_r. }
  unfold WIFEXITED. rewrite WIFSIGNALED_range, Ht.
  split; [by apply Z.eqb_neq; lia|]. split; [|done].
  apply andb_true_intro. split; apply Z.leb_le; lia.
Qed.

(** ** Decoding theorems *)

(** C25: an exit with any [int] code is decoded as that code modulo 256,
    so [exit(1)] reads back as exit value 1 and [exit(256)] as 0. *)
Theorem decode_exit (c : Z) : decode (status_of_exit c) = Exited (c mod 256).
Proof.
  destruct (status_of_exit_fields c) as [He Hs]. unfold decode. by rewrite He, Hs.
Qed.

(** C26: a death by signal [n], [1 <= n <= 126], with or without a core
    dump, is decoded as that signal. *)
Theorem decode_signal (n : Z) (core : bool) :
  1 <= n <= 126 -> decode (status_of_signal n core) = Signaled n.
Proof.
  intros Hn. destruct (status_of_signal_fields n core Hn) as (He & Hs & Ht).
  unfold decode. by rewrite He, Hs, Ht.
Qed.

(** WIFEXITED and WIFSIGNALED never hold together, so [reapChildren],
    which tests them with two independent [if]s, prints at most one
    completion message per reaped child. *)
Lemma exited_not_signaled (s : Z) : WIFEXITED s = true -> WIFSIGNALED s = false.
Proof.
  unfold WIFEXITED. rewrite WIFSIGNALED_range. intros H%Z.eqb_eq. by rewrite H.
Qed.

(** The decoded fields are an exit value in [0, 255] and a signal number
    in [1, 126]. *)
Lemma decode_bounds (s : Z) :
  match decode s with
  | Exited c => 0 <= c <= 255
  | Signaled n => 1 <= n <= 126
  | NoOutcome => True
  end.
Proof.
  unfold decode. rewrite WIFSIGNALED_range, WEXITSTATUS_mod.
  destruct (WIFEXITED s); [pose proof (Z.mod_pos_bound (s / 256) 256); lia|].
  destruct (Z.leb_spec 1 (WTERMSIG s)), (Z.leb_spec (WTERMSIG s) 126);
    simpl; try done; lia.
Qed.

(** [checkStatus] prints exactly the decoded outcome. *)
Lemma checkStatus_decode (s : Z) :
  checkStatus s = match decode s with
                  | Exited c => [exit_value_msg c]
                  | Signaled n => [terminated_msg n]
                  | NoOutcome => []
                  end.
Proof. unfold checkStatus, decode. by destruct (WIFEXITED s), (WIFSIGNALED s). Qed.

(** [childExitMethod] starts at [-5] in [shellLoop], and [-5] is not
    an exit status: it decodes as a death by signal 123, so a [status]
    typed before any foreground command prints
    ["terminated by signal 123"]. *)
Theorem checkStatus_initial :
  decode (-5) = Signaled 123 /\ checkStatus (-5) = [terminated_msg 123].
Proof. split; reflexivity. Qed.

Lemma decode_signal_witness :
  1 <= 9 <= 126 /\ decode (status_of_signal 9 true) = Signaled 9.
Proof. split; [lia | apply (decode_signal 9 true); lia]. Defined.

End WaitStatus.
