(* ===== verification/Backend.v ===== *)
(** * The process backend: what [waitpid] and [kill] promise

    The job registry of smallsh talks to the operating system through three
    calls: [waitpid(pid, &status, WNOHANG)] in [reapChildren],
    [kill(pid, SIGTERM)] in [killBG] and the blocking
    [waitpid(pid, &status, 0)] in [reapBG].  This file states, as a
    typeclass with laws, what those calls guarantee about one process
    table: the registry (file [Jobs]) is proved against these laws only,
    and the kernel model (file [Kernel]) is an instance that discharges
    them.

    A backend state [K] knows which pids are children of the shell that
    have not been reaped yet ([live]), which of them will terminate
    without the shell's help ([doomed]) and which are stopped
    ([stopped]).  A call returns what the C call
    returns: the pid (or [0], or [-1] for an error) and, when the call
    writes the status word, [Some status]. *)

From S2P Require Import Prelude.
Local Open Scope Z_scope.

Class ProcBackend (K : Type) := {
  (** [p] is a child of the shell that has not been reaped. *)
  live : K -> Z -> bool;
  (** [p] has terminated, or will terminate without further action of the
      shell (it was sent SIGTERM). *)
  doomed : K -> Z -> bool;
  (** [p] is stopped (by SIGTSTP's default action): it runs no further
      and signals other than SIGKILL and SIGCONT stay pending. *)
  stopped : K -> Z -> bool;
  (** [waitpid(p, &status, WNOHANG)]. *)
  wait_nohang : Z -> K -> Z * option Z * K;
  (** [waitpid(p, &status, 0)]; [None] while the call blocks (the child
      is still running). *)
  wait_block : Z -> K -> option (Z * option Z * K);
  (** [kill(p, SIGTERM)]. *)
  kill_term : Z -> K -> K
}.

(** A reap of [p] that leaves the other children as they were. *)
Definition reaps `{ProcBackend K} (p : Z) (k k' : K) : Prop :=
  live k' p = false /\
  forall q, q <> p -> live k' q = live k q /\ doomed k' q = doomed k q /\ stopped k' q = stopped k q.

Class ProcBackendLaws (K : Type) `{ProcBackend K} := {
  (** On a live child, [WNOHANG] either finds it still running and changes
      nothing, or reaps it and writes its status. *)
  wait_nohang_live : forall p k, live k p = true ->
    wait_nohang p k = (0, None, k) \/
    exists st k', wait_nohang p k = (p, Some st, k') /\ reaps p k k';
  (** On anything else [waitpid] fails with [-1] (ECHILD) and writes
      nothing. *)
  wait_nohang_dead : forall p k, live k p = false -> wait_nohang p k = (-1, None, k);
  (** SIGTERM does not reap, dooms its target unless it is stopped (the
      signal then stays pending), dooms no other process and stops or
      continues none. *)
  kill_term_live : forall p k q, live (kill_term p k) q = live k q;
  kill_term_doomed : forall p k, live k p = true -> stopped k p = false ->
    doomed (kill_term p k) p = true;
  kill_term_other : forall p q k, p <> q -> doomed (kill_term p k) q = doomed k q;
  kill_term_stopped : forall p k q, stopped (kill_term p k) q = stopped k q;
  (** A blocking wait on a doomed live child returns it, reaped. *)
  wait_block_doomed : forall p k, live k p = true -> doomed k p = true ->
    exists st k', wait_block p k = Some (p, Some st, k') /\ reaps p k k';
  (** A blocking wait on a pid that is not live fails at once. *)
  wait_block_dead : forall p k, live k p = false -> wait_block p k = Some (-1, None, k);
  (** Without [WUNTRACED], a blocking wait on a stopped child does not
      return. *)
  wait_block_stopped : forall p k, stopped k p = true -> wait_block p k = None
}.

Section Derived.
Context `{ProcBackendLaws K}.

(** What a [WNOHANG] wait on a live child returns is either [0] or the
    child itself. *)
Lemma wait_nohang_ret p k :
  live k p = true -> (wait_nohang p k).1.1 = 0 \/ (wait_nohang p k).1.1 = p.
Proof.
  intros Hl. destruct (wait_nohang_live p k Hl) as [-> | (st & k' & -> & _)];
    simpl; auto.
Qed.

End Derived.
