(* ===== verification/Kernel.v ===== *)
(** * The kernel's process table, as smallsh sees it

    The shell creates children with [fork], waits for them with [waitpid]
    (blocking, or with [WNOHANG]) and sends SIGTERM with [kill].  This file
    models the part of the kernel those calls touch: a table from pid to
    the state of each child of the shell that has not been reaped
    ([Running], [Stopped] by SIGTSTP, or [Zombie] with its wait status),
    the next pid to hand out, and the process limit past which [fork]
    fails (EAGAIN).  The termination of a running child and the stop of
    the children by a SIGTSTP from the terminal are events of the
    environment ([child_terminates], [stop_group]), not calls of the
    shell.

    The table is an instance of the backend interface of file [Backend],
    with its laws proved here, so the registry theorems of file [Jobs]
    apply to it.  Assumption of the model: the programs run by smallsh keep
    the default action of SIGTERM, so [kill(p, SIGTERM)] terminates a
    running [p]; on a stopped [p] the signal stays pending (POSIX), and
    no SIGCONT from another process is modelled, so a stopped child stays
    stopped. *)

From S2P Require Import Prelude.
From S2P Require Import WaitStatus.
From S2P Require Import Backend.
Local Open Scope Z_scope.

Module Kernel.
Import WaitStatus.

Inductive pstate := Running | Stopped | Zombie (status : Z).

#[export] Instance pstate_eq_dec : EqDecision pstate.
Proof. solve_decision. Defined.

Record kernel := mkKernel {
  procs : gmap Z pstate;
  next_pid : Z;
  max_procs : nat
}.

Definition SIGTERM : Z := 15.

(** ** System calls *)

(** [fork()]: [None] is the [-1] return (EAGAIN) when the table is full;
    otherwise the parent receives the new pid. *)
Definition fork (k : kernel) : option (Z * kernel) :=
  if decide (max_procs k <= size (procs k))%nat then None
  else Some (next_pid k,
             mkKernel (<[next_pid k := Running]> (procs k)) (next_pid k + 1)
                      (max_procs k)).

(** The environment: a running child exits or is killed, leaving [st]. *)
Definition child_terminates (p st : Z) (k : kernel) : option kernel :=
  match procs k !! p with
  | Some Running => Some (mkKernel (<[p := Zombie st]> (procs k)) (next_pid k) (max_procs k))
  | _ => None
  end.

Definition reap (p : Z) (k : kernel) : kernel :=
  mkKernel (delete p (procs k)) (next_pid k) (max_procs k).

(** [waitpid(p, &status, WNOHANG)]: without [WUNTRACED] a stopped
    child is reported like a running one. *)
Definition waitpid_nohang (p : Z) (k : kernel) : Z * option Z * kernel :=
  match procs k !! p with
  | Some (Zombie st) => (p, Some st, reap p k)
  | Some (Running | Stopped) => (0, None, k)
  | None => (-1, None, k)
  end.

(** [waitpid(p, &status, 0)]: [None] while the child is running or
    stopped (the call blocks until an environment event terminates it). *)
Definition waitpid_block (p : Z) (k : kernel) : option (Z * option Z * kernel) :=
  match procs k !! p with
  | Some (Zombie st) => Some (p, Some st, reap p k)
  | Some (Running | Stopped) => None
  | None => Some (-1, None, k)
  end.

(** [kill(p, sig)] for a positive [p] with the default action of [sig]:
    a running child dies of [sig]; a zombie is unaffected; for a stopped
    child the signal stays pending. *)
Definition kill (p sig : Z) (k : kernel) : kernel :=
  match procs k !! p with
  | Some Running =>
      mkKernel (<[p := Zombie (status_of_signal sig false)]> (procs k)) (next_pid k)
               (max_procs k)
  | _ => k
  end.

(** SIGTSTP with its default action, sent to the terminal's foreground
    process group: every running child [p] with [stops p] stops. *)
Definition tstp_effect (stops : bool) (st : pstate) : pstate :=
  match st with Running => if stops then Stopped else Running | _ => st end.
Definition stop_group (stops : Z -> bool) (k : kernel) : kernel :=
  mkKernel (map_imap (fun p st => Some (tstp_effect (stops p) st)) (procs k)) (next_pid k)
           (max_procs k).

Definition k_live (k : kernel) (p : Z) : bool := bool_decide (is_Some (procs k !! p)).
Definition k_stopped (k : kernel) (p : Z) : bool :=
  match procs k !! p with Some Stopped => true | _ => false end.
Definition k_doomed (k : kernel) (p : Z) : bool :=
  match procs k !! p with Some (Zombie _) => true | _ => false end.

(** Pids are positive and below [next_pid]. *)
Definition kernel_wf (k : kernel) : Prop :=
  0 < next_pid k /\ forall p, is_Some (procs k !! p) -> 0 < p < next_pid k.

(** ** The backend instance *)

#[export] Instance kernel_backend : ProcBackend kernel := {|
  live := k_live;
  doomed := k_doomed;
  stopped := k_stopped;
  wait_nohang := waitpid_nohang;
  wait_block := waitpid_block;
  kill_term p := kill p SIGTERM
|}.

Lemma reap_reaps p k : reaps p k (reap p k).
Proof.
  unfold reaps, reap; simpl. unfold k_live, k_doomed, k_stopped; simpl. split.
  - rewrite lookup_delete_eq. by rewrite bool_decide_eq_false.
  - intros q Hq. by rewrite lookup_delete_ne by done.
Qed.

#[export] Instance kernel_backend_laws : ProcBackendLaws kernel.
Proof.
  split; simpl.
  - intros p k. unfold k_live, waitpid_nohang. rewrite bool_decide_eq_true.
    intros [[| |st] Hp]; rewrite Hp; [by left|by left|]. right. eauto using reap_reaps.
  - intros p k. unfold k_live, waitpid_nohang. rewrite bool_decide_eq_false.
    intros Hp. destruct (procs k !! p) eqn:E; [|done]. exfalso. by apply Hp.
  - intros p k q. unfold k_live, kill. destruct (procs k !! p) as [[| |]|] eqn:E; try done.
    simpl. destruct (decide (p = q)) as [->|].
    + rewrite lookup_insert_eq, E. by rewrite !bool_decide_eq_true_2.
    + by rewrite lookup_insert_ne.
  - intros p k. unfold k_live, k_doomed, k_stopped, kill. rewrite bool_decide_eq_true.
    intros [s Hs]. rewrite Hs. destruct s; simpl; [by rewrite lookup_insert_eq|done|].
    by rewrite Hs.
  - intros p q k Hpq. unfold k_doomed, kill.
    destruct (procs k !! p) as [[| |]|]; try done. simpl. by rewrite lookup_insert_ne.
  - intros p k q. unfold k_stopped, kill.
    destruct (procs k !! p) as [[| |]|] eqn:E; try done. simpl.
    destruct (decide (p = q)) as [->|]; [by rewrite lookup_insert_eq, E|by rewrite lookup_insert_ne].
  - intros p k. unfold k_live, k_doomed, waitpid_block.
    destruct (procs k !! p) as [[| |st]|]; try done. intros _ _. eauto using reap_reaps.
  - intros p k. unfold k_live, waitpid_block. rewrite bool_decide_eq_false.
    intros Hp. destruct (procs k !! p) eqn:E; [|done]. exfalso. by apply Hp.
  - intros p k. unfold k_stopped, waitpid_block. by destruct (procs k !! p) as [[| |]|].
Qed.

(** ** Theorems of the kernel model *)

(** [fork] hands out a pid that is positive and not a live child, and
    keeps the table well formed. *)
Lemma fork_fresh k p k' :
  kernel_wf k -> fork k = Some (p, k') ->
  0 < p /\ k_live k p = false /\ k_live k' p = true /\ kernel_wf k' /\
  (forall q, q <> p -> procs k' !! q = procs k !! q).
Proof.
  intros [Hpos Hall]. unfold fork. case_decide; [done|]. intros [= <- <-].
  unfold k_live, kernel_wf; simpl. rewrite lookup_insert_eq.
  assert (Hnone : procs k !! next_pid k = None).
  { destruct (procs k !! next_pid k) eqn:E; [|done].
    exfalso. destruct (Hall (next_pid k)) as [_ ?]; [by rewrite E|lia]. }
  rewrite Hnone. split; [lia|]. split; [done|]. split; [done|]. split; [split|].
  - lia.
  - intros q Hq. destruct (decide (q = next_pid k)) as [->|Hne]; [lia|].
    rewrite lookup_insert_ne in Hq by done. apply Hall in Hq. lia.
  - intros q Hq. by rewrite lookup_insert_ne.
Qed.

(** The stop of a process group changes no child's presence in the
    table. *)
Lemma stop_group_lookup stops k p :
  procs (stop_group stops k) !! p = tstp_effect (stops p) <$> procs k !! p.
Proof. unfold stop_group; simpl. rewrite map_lookup_imap. by destruct (procs k !! p). Qed.

(** Every call other than [fork] keeps the table well formed. *)
Lemma kernel_wf_sub k k' :
  kernel_wf k -> next_pid k' = next_pid k ->
  (forall q, is_Some (procs k' !! q) -> is_Some (procs k !! q)) -> kernel_wf k'.
Proof.
  intros [Hpos Hall] Hnext Hsub. split; [lia|]. intros q Hq. rewrite Hnext. auto.
Qed.

End Kernel.
