(* ===== verification/Jobs.v ===== *)
(** * The background-job registry

    [shellLoop] keeps the pids of background children in a stack array
    [pid_t pidArray[50]] and a count [pidCount]; the jobs are the first
    [pidCount] slots.  This file models the array and the five functions
    that use it, against the process backend of file [Backend]:
    [addPid] (lines 371-374), [removePid] (385-406, find then shift down),
    [reapChildren] (418-448, the [WNOHANG] loop that rewinds its index
    after each removal), [killBG] (567-572) and [reapBG] (583-589).

    Each array operation is refined against an operation on the list of
    jobs ([jobs]): [removePid] deletes the first occurrence, the rewinding
    loop of [reapChildren] computes the same as a plain pass over the list
    ([reap_list]) and uses at most [2 * pidCount + 1] iterations.  The
    second module, [ReapSpec], states the spec's [reapOnce] on the kernel
    model and proves that [reapChildren] implements it. *)

From S2P Require Import Prelude.
From S2P Require Import WaitStatus.
From S2P Require Import Backend.
From S2P Require Import Kernel.
Local Open Scope Z_scope.
Local Open Scope sh_scope.

Module Jobs.
Import WaitStatus Kernel.

(** ** The array and its abstraction *)

(** [pid_t pidArray[50]]. *)
Definition MAXJOBS : nat := 50.

Record registry := mkRegistry { pidArray : list Z; pidCount : nat }.

(** The jobs held: the first [pidCount] slots. *)
Definition jobs (r : registry) : list Z := take (pidCount r) (pidArray r).

(** The array has its 50 slots and the count stays within them. *)
Definition reg_wf (r : registry) : Prop :=
  length (pidArray r) = MAXJOBS /\ (pidCount r <= MAXJOBS)%nat.

Lemma jobs_length r : reg_wf r -> length (jobs r) = pidCount r.
Proof. intros [Hl Hc]. unfold jobs. rewrite length_take. lia. Qed.

(** ** [addPid]

    [pidArray[n] = pid] then [n++] on the count has no bound check: with 50
    jobs it writes past the array, which is undefined behaviour, modelled
    as [None]. *)
Definition addPid (r : registry) (pid : Z) : option registry :=
  if decide (pidCount r < MAXJOBS)%nat
  then Some (mkRegistry (<[pidCount r := pid]> (pidArray r)) (S (pidCount r)))
  else None.

(** ** [removePid] *)

(** The search loop: the first index [i] of [start, start + n) with
    [pidArray[i] == targetPid]. *)
Fixpoint find_pid (arr : list Z) (target : Z) (i n : nat) : option nat :=
  match n with
  | O => None
  | S n' => if decide (arr !! i = Some target) then Some i
            else find_pid arr target (S i) n'
  end.

(** The shift loop [for (; index < *pidCount - 1; index++)
    pidArray[index] = pidArray[index + 1];], run [k] times from [idx]. *)
Fixpoint shift_down (arr : list Z) (idx k : nat) : list Z :=
  match k with
  | O => arr
  | S k' => shift_down (<[idx := arr !!! S idx]> arr) (S idx) k'
  end.

Definition removePid (r : registry) (targetPid : Z) : registry :=
  match find_pid (pidArray r) targetPid 0 (pidCount r) with
  | Some index =>
      mkRegistry (shift_down (pidArray r) index (pidCount r - 1 - index))
                 (pidCount r - 1)
  | None => r
  end.

(** The list operation [removePid] implements. *)
Fixpoint remove_first (x : Z) (l : list Z) : list Z :=
  match l with
  | [] => []
  | y :: l' => if decide (y = x) then l' else y :: remove_first x l'
  end.

(** ** Lemmas on the loops of [removePid] *)

Lemma find_pid_spec arr target i n :
  match find_pid arr target i n with
  | Some j => (i <= j < i + n)%nat /\ arr !! j = Some target /\
              forall m, (i <= m < j)%nat -> arr !! m <> Some target
  | None => forall m, (i <= m < i + n)%nat -> arr !! m <> Some target
  end.
Proof.
  revert i. induction n as [|n IH]; intros i; simpl.
  - intros m Hm. lia.
  - case_decide as Hi.
    + split; [lia|]. split; [done|]. intros m Hm. lia.
    + specialize (IH (S i)). destruct (find_pid arr target (S i) n) as [j|].
      * destruct IH as (Hj & Ht & Hbefore). split; [lia|]. split; [done|].
        intros m Hm. destruct (decide (m = i)); [by subst|]. apply Hbefore. lia.
      * intros m Hm. destruct (decide (m = i)); [by subst|]. apply IH. lia.
Qed.

Lemma length_shift_down arr idx k : length (shift_down arr idx k) = length arr.
Proof.
  revert arr idx. induction k as [|k IH]; intros arr idx; simpl; [done|].
  by rewrite IH, length_insert.
Qed.

Lemma take_shift_down arr idx k :
  (idx + k < length arr)%nat ->
  take (idx + k) (shift_down arr idx k) = take idx arr ++ take k (drop (S idx) arr).
Proof.
  revert arr idx. induction k as [|k IH]; intros arr idx Hlt; simpl.
  - by rewrite Nat.add_0_r, take_0, app_nil_r.
  - replace (idx + S k)%nat with (S idx + k)%nat by lia.
    rewrite IH by (rewrite length_insert; lia).
    rewrite (take_S_r _ idx (arr !!! S idx)) by (apply list_lookup_insert_eq; lia).
    rewrite take_insert_ge, drop_insert_lt by lia.
    rewrite <- app_assoc. f_equal. simpl.
    by rewrite (drop_S arr (arr !!! S idx) (S idx)) by (apply list_lookup_lookup_total_lt; lia).
Qed.

Lemma remove_first_app_notin x l1 l2 :
  x ∉ l1 -> remove_first x (l1 ++ l2) = l1 ++ remove_first x l2.
Proof.
  induction l1 as [|y l1 IH]; intros Hn; simpl; [done|].
  rewrite elem_of_cons in Hn. case_decide; [naive_solver|].
  rewrite IH; naive_solver.
Qed.

Lemma remove_first_notin x l : x ∉ l -> remove_first x l = l.
Proof.
  intros Hn. pose proof (remove_first_app_notin x l [] Hn) as H.
  by rewrite !app_nil_r in H.
Qed.

(** [removePid] refines list deletion: on a well-formed registry the
    jobs after [removePid r t] are the jobs of [r] with the first
    occurrence of [t] removed, and the registry stays well formed. *)
Lemma removePid_jobs (r : registry) (t : Z) :
  reg_wf r ->
  jobs (removePid r t) = remove_first t (jobs r) /\ reg_wf (removePid r t).
Proof.
  intros [Hlen Hcnt]. unfold removePid, jobs.
  pose proof (find_pid_spec (pidArray r) t 0 (pidCount r)) as Hf.
  destruct (find_pid (pidArray r) t 0 (pidCount r)) as [j|]; simpl.
  - destruct Hf as (Hj & Ht & Hbefore).
    assert (Hsplit : take (pidCount r) (pidArray r) =
                     take j (pidArray r) ++ t :: drop (S j) (take (pidCount r) (pidArray r))).
    { rewrite <- (take_drop j (take (pidCount r) (pidArray r))) at 1.
      rewrite take_take, Nat.min_l by lia. f_equal.
      apply drop_S. rewrite lookup_take. by rewrite decide_True by lia. }
    assert (Hnot : t ∉ take j (pidArray r)).
    { intros Hin. apply list_elem_of_lookup in Hin as [m Hm].
      pose proof (lookup_lt_Some _ _ _ Hm) as Hm'. rewrite length_take in Hm'.
      rewrite lookup_take, decide_True in Hm by lia. apply (Hbefore m); [lia | done]. }
    split; [|split; simpl; [by rewrite length_shift_down | lia]].
    rewrite Hsplit, remove_first_app_notin by done. simpl.
    rewrite decide_True by done.
    pose proof (take_shift_down (pidArray r) j (pidCount r - 1 - j)) as Hts.
    replace (j + (pidCount r - 1 - j))%nat with (pidCount r - 1)%nat in Hts by lia.
    rewrite Hts by lia. f_equal.
    rewrite take_drop_commute. f_equal. f_equal. lia.
  - split; [|done]. symmetry. apply remove_first_notin.
    intros Hin. apply list_elem_of_lookup in Hin as [m Hm].
    pose proof (lookup_lt_Some _ _ _ Hm) as Hm'. rewrite length_take in Hm'.
    rewrite lookup_take, decide_True in Hm by lia. apply (Hf m); [lia | done].
Qed.

Lemma remove_first_sublist x l : sublist (remove_first x l) l.
Proof.
  induction l as [|y l IH]; simpl; [done|].
  case_decide; [by apply sublist_cons | by apply sublist_skip].
Qed.

Lemma elem_of_remove_first x l p :
  NoDup l -> p ∈ remove_first x l <-> p ∈ l /\ p <> x.
Proof.
  induction l as [|y l IH]; intros Hnd; simpl; [set_solver|].
  apply NoDup_cons in Hnd as [Hy Hnd]. rewrite elem_of_cons.
  case_decide as Hyx; [subst y|rewrite elem_of_cons, IH by done]; naive_solver.
Qed.

Lemma length_remove_first x l :
  length (remove_first x l) = if bool_decide (x ∈ l) then pred (length l) else length l.
Proof.
  induction l as [|y l IH]; simpl; [done|]. destruct (decide (y = x)) as [->|Hyx].
  - by rewrite bool_decide_eq_true_2 by (apply elem_of_cons; by left).
  - simpl. rewrite IH. destruct (decide (x ∈ l)) as [Hin|Hnin].
    + rewrite (bool_decide_eq_true_2 (x ∈ l)) by done.
      rewrite (bool_decide_eq_true_2 (x ∈ y :: l)) by (apply elem_of_cons; by right).
      destruct l; [set_solver | done].
    + rewrite (bool_decide_eq_false_2 (x ∈ l)) by done.
      by rewrite (bool_decide_eq_false_2 (x ∈ y :: l)) by (rewrite elem_of_cons; naive_solver).
Qed.

(** C17: [removePid] deletes from the registry seen as a set: on a
    well-formed registry of distinct jobs, the jobs after [removePid r t]
    are those of [r] but [t], still distinct, and the count drops by one
    exactly when [t] was a job. *)
Theorem removePid_refines (r : registry) (t : Z) :
  reg_wf r -> NoDup (jobs r) ->
  (forall p, p ∈ jobs (removePid r t) <-> p ∈ jobs r /\ p <> t) /\
  NoDup (jobs (removePid r t)) /\ reg_wf (removePid r t) /\
  pidCount (removePid r t) = if bool_decide (t ∈ jobs r) then pred (pidCount r) else pidCount r.
Proof.
  intros Hwf Hnd. destruct (removePid_jobs r t Hwf) as [Hj Hwf'].
  split; [intros p; rewrite Hj; by apply elem_of_remove_first|].
  split; [rewrite Hj; eapply sublist_NoDup; [exact Hnd | apply remove_first_sublist]|].
  split; [done|].
  rewrite <- (jobs_length _ Hwf'), <- (jobs_length _ Hwf), Hj. apply length_remove_first.
Qed.

(** [addPid] appends to the jobs when a slot is free. *)
Lemma addPid_jobs (r r' : registry) (pid : Z) :
  reg_wf r -> addPid r pid = Some r' -> jobs r' = jobs r ++ [pid] /\ reg_wf r'.
Proof.
  intros [Hlen Hcnt]. unfold addPid. case_decide as Hlt; [|done].
  intros [= <-]. unfold jobs, reg_wf; simpl.
  rewrite length_insert. split; [|lia].
  rewrite (take_S_r _ _ pid) by (apply list_lookup_insert_eq; lia).
  by rewrite take_insert_ge.
Qed.

(** ** [reapChildren] *)

Section Reap.
Context `{ProcBackendLaws K}.

(** The two messages, guarded by two independent [if]s as in the source. *)
Definition bg_done_msgs (pid status : Z) : output :=
  (if WIFEXITED status then
     [("background pid " ++ string_of_Z pid ++ " is done: exit value "
       ++ string_of_Z (WEXITSTATUS status) ++ nl)%string] else []) ++
  (if WIFSIGNALED status then
     [("background pid " ++ string_of_Z pid ++ " is done: terminated by signal "
       ++ string_of_Z (WTERMSIG status) ++ nl)%string] else []).

(** What [reapChildren] reads and writes: the registry, the process
    table, [*childExitMethod] and standard output. *)
Record reap_state := mkReap {
  rs_reg : registry; rs_kern : K; rs_status : Z; rs_out : output }.

(** The [for] loop from index [i]: after a reap the index is decremented
    and then incremented by the loop, so the same slot is examined again.
    [None] means the fuel ran out. *)
Fixpoint reap_loop (fuel i : nat) (s : reap_state) : option reap_state :=
  match fuel with
  | O => None
  | S fuel' =>
      if decide (i < pidCount (rs_reg s))%nat then
        let '(ret, written, k') := wait_nohang (pidArray (rs_reg s) !!! i) (rs_kern s) in
        let st := default (rs_status s) written in
        if decide (ret = 0) then
          reap_loop fuel' (S i) (mkReap (rs_reg s) k' st (rs_out s))
        else
          reap_loop fuel' i (mkReap (removePid (rs_reg s) ret) k' st
                                    (rs_out s ++ bg_done_msgs ret st))
      else Some s
  end.

Definition reapChildren (fuel : nat) (s : reap_state) : option reap_state :=
  reap_loop fuel 0 s.

(** The reference: one [WNOHANG] wait per job, in order, keeping the jobs
    still running and printing the others. *)
Fixpoint reap_list (l : list Z) (k : K) (st : Z) : list Z * K * Z * output :=
  match l with
  | [] => ([], k, st, [])
  | p :: l' =>
      let '(ret, written, k1) := wait_nohang p k in
      let st1 := default st written in
      let '(kept, k2, st2, o) := reap_list l' k1 st1 in
      if decide (ret = 0) then (p :: kept, k2, st2, o)
      else (kept, k2, st2, bg_done_msgs ret st1 ++ o)
  end.

Lemma jobs_lookup_total r i p :
  jobs r !! i = Some p -> pidArray r !!! i = p.
Proof.
  unfold jobs. intros Hi. rewrite lookup_take in Hi.
  case_decide; [|done]. by apply list_lookup_total_correct.
Qed.

Lemma live_forall_reaps p k k' l :
  reaps p k k' -> p ∉ l -> Forall (fun q => live k q = true) l ->
  Forall (fun q => live k' q = true) l.
Proof.
  intros [_ Hoth] Hn Hall. rewrite Forall_forall in *. intros q Hq.
  destruct (Hoth q) as [-> _]; [intros ->; by apply Hn | by apply Hall].
Qed.

(** Appending one more examined job keeps the prefix disjoint from the
    rest. *)
Lemma NoDup_shift (pre rest : list Z) (p : Z) :
  NoDup (pre ++ p :: rest) -> NoDup ((pre ++ [p]) ++ rest).
Proof. by rewrite <- app_assoc. Qed.

(** The loop from index [length pre], where the jobs are [pre ++ rest],
    computes what [reap_list] computes on [rest]. *)
Lemma reap_loop_list fuel pre rest s kept k' st' o :
  reg_wf (rs_reg s) -> jobs (rs_reg s) = pre ++ rest -> NoDup (pre ++ rest) ->
  Forall (fun p => live (rs_kern s) p = true) rest ->
  (2 * length rest < fuel)%nat ->
  reap_list rest (rs_kern s) (rs_status s) = (kept, k', st', o) ->
  exists r', reap_loop fuel (length pre) s = Some (mkReap r' k' st' (rs_out s ++ o)) /\
             jobs r' = pre ++ kept /\ reg_wf r'.
Proof.
  revert fuel pre s kept k' st' o. induction rest as [|p rest IH];
    intros fuel pre [r k st out] kept k' st' o Hwf Hj Hnd Hlive Hfuel Hrl; simpl in *.
  - destruct fuel as [|fuel]; [lia|]. simpl. injection Hrl as <- <- <- <-.
    rewrite decide_False by (rewrite <- (jobs_length r), Hj, app_nil_r by done; lia).
    rewrite app_nil_r in Hj. exists r. rewrite !app_nil_r. split; [done|]. split; done.
  - destruct fuel as [|fuel]; [lia|]. simpl.
    assert (Hi : (length pre < pidCount r)%nat).
    { rewrite <- (jobs_length r), Hj, length_app by done. simpl. lia. }
    rewrite decide_True by done.
    rewrite (jobs_lookup_total r (length pre) p)
      by (rewrite Hj, lookup_app_r, Nat.sub_diag by lia; done).
    apply Forall_cons in Hlive as [Hp Hlive].
    pose proof Hnd as Hnd'. apply NoDup_app in Hnd' as (_ & Hdisj & Hndrest).
    apply NoDup_cons in Hndrest as [Hprest _].
    assert (Hpre : p ∉ pre) by (intros Hin; by apply (Hdisj p Hin); left).
    destruct (wait_nohang_live p k Hp) as [Hw | (st1 & k1 & Hw & Hreap)];
      rewrite Hw in Hrl |- *; simpl in Hrl |- *;
      destruct (reap_list rest _ _) as [[[kept1 k2] st2] o1] eqn:Hr.
    + injection Hrl as <- <- <- <-.
      destruct (IH fuel (pre ++ [p]) (mkReap r k st out) kept1 k2 st2 o1)
        as (r' & Hloop & Hj' & Hwf'); simpl; try done.
      * by rewrite <- app_assoc.
      * by apply NoDup_shift.
      * lia.
      * rewrite length_app, Nat.add_1_r in Hloop. exists r'.
        rewrite Hloop, Hj', <- app_assoc. done.
    + destruct (decide (p = 0)) as [->|Hp0]; simpl in Hrl |- *.
      * injection Hrl as <- <- <- <-.
        destruct (IH fuel (pre ++ [0]) (mkReap r k1 st1 out) kept1 k2 st2 o1)
          as (r' & Hloop & Hj' & Hwf'); simpl; try done.
        -- by rewrite <- app_assoc.
        -- by apply NoDup_shift.
        -- by apply (live_forall_reaps 0 k k1).
        -- lia.
        -- rewrite length_app, Nat.add_1_r in Hloop. exists r'.
           rewrite Hloop, Hj', <- app_assoc. done.
      * injection Hrl as <- <- <- <-.
        destruct (removePid_jobs r p Hwf) as [Hjr Hwfr].
        destruct (IH fuel pre (mkReap (removePid r p) k1 st1 (out ++ bg_done_msgs p st1))
                    kept1 k2 st2 o1) as (r' & Hloop & Hj' & Hwf'); simpl; try done.
        -- rewrite Hjr, Hj, remove_first_app_notin by done. simpl.
           by rewrite decide_True.
        -- apply NoDup_app in Hnd as (Hndpre & _ & Hndr). apply NoDup_app.
           split; [done|]. split; [|by apply NoDup_cons in Hndr as [_ ?]].
           intros x Hx Hxr. apply (Hdisj x Hx). by right.
        -- by apply (live_forall_reaps p k k1).
        -- lia.
        -- exists r'. simpl in Hloop. rewrite Hloop, <- app_assoc. auto.
Qed.

(** C2: refinement and termination of [reapChildren]: on a well-formed
    registry whose jobs are distinct live children, the index-rewinding
    array loop returns within [2 * pidCount + 1] iterations, with the same
    process table, status word and output as one [WNOHANG] pass over the
    list of jobs ([reap_list]), and the jobs it keeps are the ones that
    pass keeps. *)
Theorem reapChildren_refines fuel s kept k' st' o :
  reg_wf (rs_reg s) -> NoDup (jobs (rs_reg s)) ->
  Forall (fun p => live (rs_kern s) p = true) (jobs (rs_reg s)) ->
  (2 * pidCount (rs_reg s) < fuel)%nat ->
  reap_list (jobs (rs_reg s)) (rs_kern s) (rs_status s) = (kept, k', st', o) ->
  exists r', reapChildren fuel s = Some (mkReap r' k' st' (rs_out s ++ o)) /\
             jobs r' = kept /\ reg_wf r'.
Proof.
  intros Hwf Hnd Hl Hf Hr. unfold reapChildren.
  apply (reap_loop_list fuel [] (jobs (rs_reg s)) s); try done.
  by rewrite jobs_length.
Qed.

(** What one pass does to jobs with nonzero pids: the jobs kept are a
    sublist of the jobs and still live; the others are reaped; pids outside the list are
    untouched. *)
Lemma reap_list_spec l k st kept k' st' o :
  NoDup l -> 0 ∉ l -> Forall (fun p => live k p = true) l ->
  reap_list l k st = (kept, k', st', o) ->
  sublist kept l /\ Forall (fun p => live k' p = true) kept /\
  (forall p, p ∈ l -> p ∉ kept -> live k' p = false) /\
  (forall q, q ∉ l -> live k' q = live k q /\ doomed k' q = doomed k q /\
                      stopped k' q = stopped k q).
Proof.
  revert k st kept k' st' o.
  induction l as [|p l IH]; intros k st kept k' st' o Hnd Hz Hl Hr.
  - injection Hr as <- <- <- <-. repeat split; try constructor; set_solver.
  - apply NoDup_cons in Hnd as [Hpl Hnd]. apply Forall_cons in Hl as [Hp Hl].
    apply not_elem_of_cons in Hz as [Hp0 Hz].
    simpl in Hr.
    destruct (wait_nohang_live p k Hp) as [Hw | (st1 & k1 & Hw & Hreap)];
      rewrite Hw in Hr; simpl in Hr;
      destruct (reap_list l _ _) as [[[kept1 k2] st2] o1] eqn:Hrl.
    + injection Hr as <- <- <- <-.
      destruct (IH k st kept1 k2 st2 o1) as (Hsub & Hlk & Hgone & Hout); try done.
      split; [by apply sublist_skip|].
      split; [constructor; [by rewrite (proj1 (Hout p Hpl))|done]|].
      split; [|set_solver]. intros q [->|Hq]%elem_of_cons Hn; [set_solver|].
      apply Hgone; set_solver.
    + assert (Hl1 : Forall (fun q => live k1 q = true) l)
        by (by apply (live_forall_reaps p k k1)).
      destruct (IH k1 st1 kept1 k2 st2 o1) as (Hsub & Hlk & Hgone & Hout); try done.
      destruct Hreap as [Hpdead Hoth].
      rewrite decide_False in Hr by done. injection Hr as <- <- <- <-.
      split; [by apply sublist_cons|]. split; [done|].
      split.
      * intros q [->|Hq]%elem_of_cons Hn; [|apply Hgone; set_solver].
        by rewrite (proj1 (Hout p Hpl)).
      * intros q Hq. destruct (Hout q ltac:(set_solver)) as (-> & -> & ->).
        apply Hoth. set_solver.
Qed.

(** Removing a pid that no job carries leaves the registry as it is. *)
Lemma removePid_absent r t : t ∉ jobs r -> removePid r t = r.
Proof.
  unfold removePid, jobs. intros Hn.
  pose proof (find_pid_spec (pidArray r) t 0 (pidCount r)) as Hf.
  destruct (find_pid (pidArray r) t 0 (pidCount r)) as [j|]; [|done].
  destruct Hf as (Hj & Ht & _). exfalso. apply Hn.
  apply list_elem_of_lookup. exists j. rewrite lookup_take, decide_True by lia. done.
Qed.

(** C30: [reapChildren] does not terminate when a registered pid is not a
    live child: [waitpid] then returns [-1], [removePid(-1)] removes
    nothing, and the [i--] makes the loop examine the same slot for ever
    (printing a stale completion message each time).  No amount of fuel
    suffices. *)
Theorem reapChildren_diverges fuel i s :
  reg_wf (rs_reg s) -> (i < pidCount (rs_reg s))%nat ->
  live (rs_kern s) (pidArray (rs_reg s) !!! i) = false -> -1 ∉ jobs (rs_reg s) ->
  reap_loop fuel i s = None.
Proof.
  revert s. induction fuel as [|fuel IH]; intros [r k st out] Hwf Hi Hd Hn; [done|].
  simpl in *. rewrite decide_True by done. rewrite (wait_nohang_dead _ _ Hd). simpl.
  rewrite removePid_absent by done. by apply IH.
Qed.

(** ** [killBG] and [reapBG] *)

(** [for (i = 0; i < pidCount; i++) kill(pidArray[i], SIGTERM);] *)
Fixpoint killBG_loop (arr : list Z) (i n : nat) (k : K) : K :=
  match n with
  | O => k
  | S n' => killBG_loop arr (S i) n' (kill_term (arr !!! i) k)
  end.
Definition killBG (r : registry) (k : K) : K := killBG_loop (pidArray r) 0 (pidCount r) k.

(** [for (i = 0; i < pidCount; i++) waitpid(pidArray[i], childExitMethod, 0);]
    [None]: one of the waits blocks. *)
Fixpoint reapBG_loop (arr : list Z) (i n : nat) (k : K) (st : Z) : option (K * Z) :=
  match n with
  | O => Some (k, st)
  | S n' =>
      match wait_block (arr !!! i) k with
      | None => None
      | Some (_, w, k') => reapBG_loop arr (S i) n' k' (default st w)
      end
  end.
Definition reapBG (r : registry) (k : K) (st : Z) : option (K * Z) :=
  reapBG_loop (pidArray r) 0 (pidCount r) k st.

Lemma killBG_loop_spec arr i n k :
  (i + n <= length arr)%nat -> NoDup (take n (drop i arr)) ->
  (forall q, live (killBG_loop arr i n k) q = live k q) /\
  (forall q, stopped (killBG_loop arr i n k) q = stopped k q) /\
  (forall p, p ∈ take n (drop i arr) -> live k p = true -> stopped k p = false ->
             doomed (killBG_loop arr i n k) p = true) /\
  (forall q, q ∉ take n (drop i arr) -> doomed (killBG_loop arr i n k) q = doomed k q).
Proof.
  revert i k. induction n as [|n IH]; intros i k Hlen Hnd; simpl.
  - split; [done|]. split; [done|]. split; [set_solver | done].
  - rewrite take_S_drop in Hnd |- * by lia.
    apply NoDup_cons in Hnd as [Hp Hnd].
    destruct (IH (S i) (kill_term (arr !!! i) k)) as (Hl & Hs & Hdm & Hdo); [lia|done|].
    split; [intros q; by rewrite Hl, kill_term_live|].
    split; [intros q; by rewrite Hs, kill_term_stopped|].
    split.
    + intros p [->|Hin]%elem_of_cons Hlive Hst.
      * rewrite Hdo by done. by apply kill_term_doomed.
      * apply Hdm; [done|by rewrite kill_term_live|by rewrite kill_term_stopped].
    + intros q Hq. rewrite Hdo by set_solver. apply kill_term_other. set_solver.
Qed.

(** A wait that returns reaps the child and leaves the others as they
    were: the jobs still to be waited for keep their state. *)
Lemma reaps_forall (P : K -> Z -> Prop) p k k' l :
  reaps p k k' -> p ∉ l ->
  (forall q k1 k2, live k2 q = live k1 q -> doomed k2 q = doomed k1 q ->
     stopped k2 q = stopped k1 q -> P k1 q -> P k2 q) ->
  Forall (P k) l -> Forall (P k') l.
Proof.
  intros [_ Hoth] Hn HP Hall. rewrite Forall_forall in *. intros q Hq.
  destruct (Hoth q) as (Hl & Hd & Hs); [intros ->; by apply Hn|].
  eapply HP; [exact Hl|exact Hd|exact Hs|]. by apply Hall.
Qed.

Lemma reapBG_loop_spec arr i n k st :
  (i + n <= length arr)%nat -> NoDup (take n (drop i arr)) ->
  Forall (fun p => live k p = true /\ doomed k p = true) (take n (drop i arr)) ->
  exists k' st', reapBG_loop arr i n k st = Some (k', st') /\
    (forall p, p ∈ take n (drop i arr) -> live k' p = false) /\
    (forall q, q ∉ take n (drop i arr) -> live k' q = live k q).
Proof.
  revert i k st. induction n as [|n IH]; intros i k st Hlen Hnd Hall; simpl.
  - exists k, st. split; [done|]. set_solver.
  - rewrite take_S_drop in Hnd, Hall |- * by lia.
    apply NoDup_cons in Hnd as [Hp Hnd]. apply Forall_cons in Hall as [[Hl Hd] Hall].
    destruct (wait_block_doomed _ _ Hl Hd) as (st1 & k1 & -> & Hreap).
    destruct (IH (S i) k1 (default st (Some st1))) as (k' & st' & -> & Hgone & Hkeep).
    { lia. } { done. }
    { apply (reaps_forall (fun k q => live k q = true /\ doomed k q = true) (arr !!! i) k);
        [done|done| |done].
      intros q k2 k3 -> -> _. done. }
    exists k', st'. split; [done|]. destruct Hreap as [Hdead Hoth]. split.
    + intros p [->|Hin]%elem_of_cons; [|by apply Hgone].
      by rewrite Hkeep.
    + intros q Hq. rewrite Hkeep by set_solver. apply Hoth. set_solver.
Qed.

(** When one of the jobs is stopped, the blocking waits reach it and
    block: every job before it has been reaped, and a stopped child is
    never returned by [waitpid] without [WUNTRACED]. *)
Lemma reapBG_loop_blocks arr i n k st :
  (i + n <= length arr)%nat -> NoDup (take n (drop i arr)) ->
  Forall (fun p => live k p = true /\ (doomed k p = true \/ stopped k p = true))
         (take n (drop i arr)) ->
  (exists p, p ∈ take n (drop i arr) /\ stopped k p = true) ->
  reapBG_loop arr i n k st = None.
Proof.
  revert i k st. induction n as [|n IH]; intros i k st Hlen Hnd Hall [p [Hp Hs]]; simpl.
  - set_solver.
  - rewrite take_S_drop in Hnd, Hall, Hp by lia.
    apply NoDup_cons in Hnd as [Hh Hnd]. apply Forall_cons in Hall as [[Hl Hd] Hall].
    destruct (stopped k (arr !!! i)) eqn:Hsh; [by rewrite wait_block_stopped|].
    destruct Hd as [Hd|]; [|done].
    destruct (wait_block_doomed _ _ Hl Hd) as (st1 & k1 & -> & Hreap).
    apply elem_of_cons in Hp as [->|Hp]; [congruence|].
    apply IH; [lia|done| |].
    + apply (reaps_forall (fun k q => live k q = true /\ (doomed k q = true \/ stopped k q = true))
               (arr !!! i) k); [done|done| |done].
      intros q k2 k3 -> -> ->. done.
    + exists p. split; [done|]. destruct Hreap as [_ Hoth].
      destruct (Hoth p) as (_ & _ & ->); [intros ->; congruence|done].
Qed.

Lemma jobs_window r : reg_wf r -> take (pidCount r) (drop 0 (pidArray r)) = jobs r.
Proof. intros _. by rewrite drop_0. Qed.

(** Shutdown ([killBG] then [reapBG], as [shellLoop] does after
    [exit]): when the jobs are distinct live children, none of them
    stopped, every blocking wait returns, no job is left unreaped, and no
    other process is touched. *)
Lemma shutdown_reaps r k st :
  reg_wf r -> NoDup (jobs r) -> Forall (fun p => live k p = true /\ stopped k p = false) (jobs r) ->
  exists k' st', reapBG r (killBG r k) st = Some (k', st') /\
    Forall (fun p => live k' p = false) (jobs r) /\
    (forall q, q ∉ jobs r -> live k' q = live k q).
Proof.
  intros Hwf Hnd Hall. pose proof Hwf as [Hlen Hcnt].
  destruct (killBG_loop_spec (pidArray r) 0 (pidCount r) k) as (Hl & _ & Hd & _);
    [lia | by rewrite jobs_window|].
  destruct (reapBG_loop_spec (pidArray r) 0 (pidCount r) (killBG r k) st)
    as (k' & st' & Hr & Hgone & Hkeep); [lia | by rewrite jobs_window | |].
  { rewrite jobs_window by done. rewrite Forall_forall in Hall |- *. intros p Hp. unfold killBG.
    rewrite Hl. destruct (Hall p Hp) as [Hlp Hsp]. split; [done|].
    apply Hd; [by rewrite jobs_window|done|done]. }
  exists k', st'. split; [done|]. rewrite jobs_window in Hgone, Hkeep by done. split.
  - rewrite Forall_forall. intros p Hp. by apply Hgone.
  - intros q Hq. rewrite Hkeep by done. unfold killBG. by rewrite Hl.
Qed.

(** Shutdown with a stopped job: SIGTERM stays pending on it and
    [reapBG]'s blocking wait on it never returns. *)
Lemma shutdown_blocks r k st :
  reg_wf r -> NoDup (jobs r) -> Forall (fun p => live k p = true) (jobs r) ->
  (exists p, p ∈ jobs r /\ stopped k p = true) ->
  reapBG r (killBG r k) st = None.
Proof.
  intros Hwf Hnd Hall [p [Hp Hs]]. pose proof Hwf as [Hlen Hcnt].
  destruct (killBG_loop_spec (pidArray r) 0 (pidCount r) k) as (Hl & Hst & Hd & _);
    [lia | by rewrite jobs_window|].
  apply reapBG_loop_blocks; [lia|by rewrite jobs_window| |].
  - rewrite jobs_window by done. rewrite Forall_forall in Hall |- *. intros q Hq.
    unfold killBG. rewrite Hl, Hst. split; [by apply Hall|].
    destruct (stopped k q) eqn:E; [by right|left].
    apply Hd; [by rewrite jobs_window|by apply Hall|done].
  - exists p. rewrite jobs_window by done. unfold killBG. by rewrite Hst.
Qed.

End Reap.

(** ** Concrete runs on the kernel model *)

(** Three jobs 7, 8, 9: 7 exited with status 1, 8 is running, 9 was
    killed by signal 9; the status word still holds its initial [-5]. *)
Definition ex_arr : list Z := [7; 8; 9] ++ replicate 47 0.
Definition ex_reg : registry := mkRegistry ex_arr 3.
Definition ex_kern : kernel :=
  mkKernel (<[7 := Zombie 256]> (<[8 := Running]> (<[9 := Zombie 9]> ∅))) 10 100.
Definition ex_rs : reap_state := mkReap ex_reg ex_kern (-5) [].

Lemma ex_reg_wf : reg_wf ex_reg.
Proof. split; [reflexivity | cbv; lia]. Qed.

Lemma ex_jobs_ok : NoDup (jobs ex_reg) /\
  Forall (fun p => live ex_kern p = true) (jobs ex_reg).
Proof. split; decide_by_eval. Qed.

Lemma removePid_refines_witness :
  reg_wf ex_reg /\ NoDup (jobs ex_reg) /\
  pidCount (removePid ex_reg 8) = if bool_decide (8 ∈ jobs ex_reg) then pred (pidCount ex_reg)
                                  else pidCount ex_reg.
Proof.
  split; [exact ex_reg_wf|]. split; [exact (proj1 ex_jobs_ok)|].
  apply (removePid_refines ex_reg 8 ex_reg_wf (proj1 ex_jobs_ok)).
Defined.

Lemma reapChildren_refines_witness :
  exists r' k', reapChildren 7 ex_rs =
    Some (mkReap r' k' 9 ["background pid 7 is done: exit value 1" ++ nl;
                          "background pid 9 is done: terminated by signal 9" ++ nl]%string)
    /\ jobs r' = [8].
Proof.
  destruct ex_jobs_ok as [Hnd Hl].
  destruct (reap_list (jobs ex_reg) ex_kern (-5)) as [[[kept k'] st'] o] eqn:E.
  destruct (reapChildren_refines 7 ex_rs kept k' st' o ex_reg_wf Hnd Hl ltac:(simpl; lia) E)
    as (r' & Hr & Hj & _).
  vm_compute in E. injection E as <- <- <- <-.
  exists r'. eexists. rewrite Hr. split; [reflexivity | exact Hj].
Defined.

(** Job 7 is not a child of this kernel: the loop never returns. *)
Definition ex_lost : reap_state :=
  mkReap (mkRegistry ([7] ++ replicate 49 0) 1) (mkKernel ∅ 10 100) 0 [].

Lemma reapChildren_diverges_witness : reapChildren 1000 ex_lost = None.
Proof.
  apply (reapChildren_diverges 1000 0 ex_lost);
    [split; [reflexivity | cbv; lia] | simpl; lia | reflexivity | decide_by_eval].
Defined.


End Jobs.

(** ** The abstract [reapOnce] of the specification, and its refinement

    The specification describes the reap pass as: for every tracked id,
    poll for completion without blocking; for each that has completed,
    print its id and completion cause and remove it from the registry.
    This file states that as functions of the process table ([finished]
    says whether a child has terminated and with which status), and proves
    that [reap_list], the list form of [reapChildren] (module [Jobs]), run on
    the kernel model of file [Kernel], computes exactly it: the messages
    of the finished jobs in registry order, the jobs still running, the
    status word left by the last finished job (the word the [status]
    built-in reads), and the process table without the reaped children. *)

Module ReapSpec.
Import WaitStatus Kernel Jobs.

(** ** The specification *)

(** Child [p] has terminated with status [st] and is not reaped yet. *)
Definition finished (k : kernel) (p : Z) : option Z :=
  match procs k !! p with Some (Zombie st) => Some st | _ => None end.

(** What one pass prints: the completion messages of the finished jobs,
    in registry order. *)
Definition reap_once_msgs (k : kernel) (l : list Z) : output :=
  concat (map (fun p => match finished k p with Some st => bg_done_msgs p st | None => [] end) l).

(** The jobs the pass keeps: those still running. *)
Definition reap_once_kept (k : kernel) (l : list Z) : list Z :=
  filter (fun p => finished k p = None) l.

(** The status word after the pass: the status of the last finished job,
    or the old word when none finished. *)
Definition reap_once_status (k : kernel) (l : list Z) (st : Z) : Z :=
  foldl (fun acc p => default acc (finished k p)) st l.

(** The reaped children leave the process table. *)
Definition reaped (k : kernel) (l : list Z) (q : Z) : Prop := q ∈ l /\ is_Some (finished k q).

#[export] Instance reaped_dec k l q : Decision (reaped k l q).
Proof. unfold reaped. apply _. Defined.

(** ** Lemmas *)

Lemma finished_reap p k q : q <> p -> finished (reap p k) q = finished k q.
Proof. intros Hq. unfold finished, reap; simpl. by rewrite lookup_delete_ne. Qed.

(** The pass depends on the table only through [finished] on the jobs. *)
Lemma reap_once_ext k k' l st :
  (forall p, p ∈ l -> finished k' p = finished k p) ->
  reap_once_msgs k' l = reap_once_msgs k l /\ reap_once_kept k' l = reap_once_kept k l /\
  reap_once_status k' l st = reap_once_status k l st.
Proof.
  unfold reap_once_msgs, reap_once_kept, reap_once_status.
  revert st. induction l as [|p l IH]; intros st Hf; [done|].
  rewrite !filter_cons. simpl. rewrite Hf by set_solver.
  destruct (IH (default st (finished k p))) as (-> & -> & ->); [|done].
  intros q Hq. apply Hf. set_solver.
Qed.

Lemma spec_reap_other p k l st :
  p ∉ l ->
  reap_once_msgs (reap p k) l = reap_once_msgs k l /\
  reap_once_kept (reap p k) l = reap_once_kept k l /\
  reap_once_status (reap p k) l st = reap_once_status k l st /\
  (forall q, reaped (reap p k) l q <-> reaped k l q).
Proof.
  intros Hp.
  assert (Hf : forall q, q ∈ l -> finished (reap p k) q = finished k q)
    by (intros q Hq; apply finished_reap; intros ->; contradiction).
  destruct (reap_once_ext k (reap p k) l st Hf) as (-> & -> & ->).
  split; [done|]. split; [done|]. split; [done|].
  intros q. split; intros [Hq Hs]; (split; [done|]).
  - by rewrite <- Hf.
  - by rewrite Hf.
Qed.

(** Reaping [p] first and then [l] reaps exactly what the spec reaps on
    [p :: l]. *)
Lemma reaped_cons_reap p k l q st0 :
  p ∉ l -> procs k !! p = Some (Zombie st0) ->
  (if decide (reaped (reap p k) l q) then None else procs (reap p k) !! q) =
  (if decide (reaped k (p :: l) q) then None else procs k !! q).
Proof.
  intros Hpl Hp. destruct (decide (q = p)) as [->|Hq].
  - rewrite decide_False by (intros [? _]; contradiction).
    rewrite decide_True by (split; [set_solver|unfold finished; by rewrite Hp]).
    unfold reap; simpl. by rewrite lookup_delete_eq.
  - unfold reap at 2; simpl. rewrite lookup_delete_ne by done.
    assert (Hiff : reaped (reap p k) l q <-> reaped k (p :: l) q).
    { unfold reaped. rewrite finished_reap by done. set_solver. }
    by destruct (decide (reaped (reap p k) l q)), (decide (reaped k (p :: l) q)); tauto.
Qed.

Lemma reaped_cons_unfinished p k l q :
  finished k p = None -> reaped k (p :: l) q <-> reaped k l q.
Proof.
  intros Hp. unfold reaped. split; intros [Hq Hs]; split; [|done|set_solver|done].
  apply elem_of_cons in Hq as [->|]; [|done]. rewrite Hp in Hs. by destruct Hs.
Qed.

(** One [WNOHANG] pass over distinct live children, run on the kernel,
    is the specified pass. *)
Lemma reap_list_kernel l k st kept k' st' o :
  NoDup l -> 0 ∉ l -> Forall (fun p => is_Some (procs k !! p)) l ->
  reap_list l k st = (kept, k', st', o) ->
  kept = reap_once_kept k l /\ o = reap_once_msgs k l /\
  st' = reap_once_status k l st /\
  (forall q, procs k' !! q = if decide (reaped k l q) then None else procs k !! q) /\
  next_pid k' = next_pid k /\ max_procs k' = max_procs k.
Proof.
  revert k st kept k' st' o.
  induction l as [|p l IH]; intros k st kept k' st' o Hnd Hz Hl Hr.
  - injection Hr as <- <- <- <-. repeat split; done.
  - apply NoDup_cons in Hnd as [Hpl Hnd]. apply Forall_cons in Hl as [[sp Hp] Hl].
    apply not_elem_of_cons in Hz as [Hp0 Hz].
    simpl in Hr. unfold waitpid_nohang in Hr. rewrite Hp in Hr.
    unfold reap_once_kept, reap_once_msgs, reap_once_status; simpl.
    rewrite filter_cons.
    assert (Hf : finished k p = match sp with Zombie st0 => Some st0 | _ => None end)
      by (unfold finished; by rewrite Hp).
    rewrite Hf. destruct sp as [| |st0]; simpl in Hr |- *;
      destruct (reap_list l _ _) as [[[kept1 k2] st2] o1] eqn:Hrl.
    1,2: injection Hr as <- <- <- <-;
      destruct (IH k st kept1 k2 st2 o1) as (-> & -> & -> & Hq & Hn & Hm); try done;
      repeat split; try done; intros q; rewrite Hq;
      by destruct (decide (reaped k l q)), (decide (reaped k (p :: l) q));
        try rewrite reaped_cons_unfinished in * by done.
    + rewrite decide_False in Hr by done.
      injection Hr as <- <- <- <-.
      destruct (IH (reap p k) st0 kept1 k2 st2 o1) as (-> & -> & -> & Hq & Hn & Hm); try done.
      { rewrite Forall_forall in Hl |- *. intros q Hq. unfold reap; simpl.
        rewrite lookup_delete_ne; [by apply Hl|]. intros ->. contradiction. }
      destruct (spec_reap_other p k l st0 Hpl) as (Hm1 & Hk1 & Hs1 & _).
      rewrite Hm1, Hk1, Hs1. repeat split; try done.
      intros q. rewrite Hq. by apply (reaped_cons_reap p k l q st0).
Qed.
Lemma kernel_wf_nonzero k l :
  kernel_wf k -> Forall (fun p => is_Some (procs k !! p)) l -> 0 ∉ l.
Proof.
  intros [_ Hwf] Hl Hz. rewrite Forall_forall in Hl. specialize (Hwf 0 (Hl 0 Hz)). lia.
Qed.

Lemma live_kernel_forall k l :
  Forall (fun p => is_Some (procs k !! p)) l -> Forall (fun p => live k p = true) l.
Proof. intros Hl. eapply Forall_impl; [done|]. intros p Hp. simpl. unfold k_live. by apply bool_decide_eq_true. Qed.

(** A pass over jobs that are all still running prints nothing, keeps
    them all, leaves the status word and reaps nobody. *)
Lemma reap_once_none k l st :
  (forall p, p ∈ l -> finished k p = None) ->
  reap_once_msgs k l = [] /\ reap_once_kept k l = l /\ reap_once_status k l st = st.
Proof.
  unfold reap_once_msgs, reap_once_kept, reap_once_status.
  induction l as [|p l IH]; intros Hf; [done|].
  rewrite filter_cons. simpl. rewrite Hf by set_solver. simpl.
  destruct IH as (-> & -> & ->); [|done].
  intros q Hq. apply Hf. set_solver.
Qed.

(** The status word after a pass is that of the last finished job, in
    registry order, whatever it was before. *)
Lemma reap_once_status_last k l1 p l2 st0 st :
  finished k p = Some st -> Forall (fun q => finished k q = None) l2 ->
  reap_once_status k (l1 ++ p :: l2) st0 = st.
Proof.
  intros Hp Hl2. unfold reap_once_status. rewrite foldl_app. cbn [foldl]. rewrite Hp. simpl.
  clear Hp. generalize st. induction Hl2 as [|q l2 Hq _ IH]; intros acc; [done|].
  cbn [foldl]. rewrite Hq. apply IH.
Qed.

Lemma reap_once_running k l st :
  Forall (fun p => procs k !! p = Some Running) l ->
  reap_once_msgs k l = [] /\ reap_once_kept k l = l /\ reap_once_status k l st = st /\
  forall q, ~ reaped k l q.
Proof.
  intros Hl. assert (Hf : forall p, p ∈ l -> finished k p = None).
  { intros p Hp. rewrite Forall_forall in Hl. unfold finished. by rewrite Hl. }
  destruct (reap_once_none k l st Hf) as (-> & -> & ->).
  repeat split. intros q [Hq Hs]. rewrite Hf in Hs by done. by destruct Hs.
Qed.

(** ** The refinement *)

(** C3: [reapChildren] implements the specified reap pass: on a
    well-formed registry of distinct children of a well-formed kernel, the
    array loop with its index rewind terminates within [2 * pidCount + 1]
    iterations; it prints the completion messages of exactly the finished
    jobs in registry order, keeps exactly the running ones in their order,
    leaves in the status word the status of the last finished job, and
    removes exactly the finished jobs from the process table. *)
Theorem reapChildren_meets_spec fuel r k st out :
  reg_wf r -> NoDup (jobs r) -> kernel_wf k ->
  Forall (fun p => is_Some (procs k !! p)) (jobs r) ->
  (2 * pidCount r < fuel)%nat ->
  exists r' k',
    reapChildren fuel (mkReap r k st out) =
      Some (mkReap r' k' (reap_once_status k (jobs r) st) (out ++ reap_once_msgs k (jobs r))) /\
    jobs r' = reap_once_kept k (jobs r) /\ reg_wf r' /\
    (forall q, procs k' !! q = if decide (reaped k (jobs r) q) then None else procs k !! q) /\
    next_pid k' = next_pid k.
Proof.
  intros Hwf Hnd Hk Hl Hf.
  destruct (reap_list (jobs r) k st) as [[[kept k'] st'] o] eqn:Hr.
  destruct (reap_list_kernel (jobs r) k st kept k' st' o) as (-> & -> & -> & Hq & Hn & _);
    try done; [by apply (kernel_wf_nonzero k)|].
  destruct (reap_loop_list fuel [] (jobs r) (mkReap r k st out) (reap_once_kept k (jobs r))
              k' (reap_once_status k (jobs r) st) (reap_once_msgs k (jobs r)))
    as (r' & Hloop & Hj & Hwf'); simpl; try done.
  - by apply live_kernel_forall.
  - by rewrite jobs_length.
  - by exists r', k'.
Qed.

Lemma ex_kern_wf : kernel_wf ex_kern.
Proof.
  split; [simpl; lia|]. intros p [x Hx]. simpl in Hx.
  rewrite !lookup_insert_Some, lookup_empty in Hx. simpl. naive_solver lia.
Qed.

Lemma reapChildren_meets_spec_witness :
  exists r' k',
    reapChildren 7 (mkReap ex_reg ex_kern (-5) []) =
      Some (mkReap r' k' 9 ["background pid 7 is done: exit value 1" ++ nl;
                            "background pid 9 is done: terminated by signal 9" ++ nl]%string) /\
    jobs r' = [8] /\ procs k' !! 7 = None /\ procs k' !! 8 = Some Running /\
    procs k' !! 9 = None.
Proof.
  destruct (reapChildren_meets_spec 7 ex_reg ex_kern (-5) [] ex_reg_wf
              (proj1 ex_jobs_ok) ex_kern_wf ltac:(decide_by_eval) ltac:(simpl; lia))
    as (r' & k' & Hr & Hj & _ & Hq & _).
  exists r', k'. rewrite Hr, Hj, !Hq. vm_compute. auto.
Defined.

End ReapSpec.
