(* ===== verification/Signals.v ===== *)
(** * Signal handling: the foreground-only toggle and the dispositions

    [main] (smallsh.c, lines 737-757) makes the shell ignore SIGINT and
    catch SIGTSTP with [toggleBG] (lines 542-556), which flips the global
    [canRunBG] and writes a fixed notice with [write(2)] and an explicit
    byte count.  A child inherits the dispositions at [fork]; before
    [execvp] a foreground child restores the default action of SIGINT
    (lines 489-491); [execvp] resets every caught signal to its default
    action and keeps ignored ones ignored (POSIX).

    [main]'s three [struct sigaction] are modelled with their handler, their
    mask ([sigfillset] or zero) and their flags (never [SA_RESTART]); the
    shell loop of file [Shell] reads the flag to decide whether a SIGTSTP
    interrupts the blocked call.

    The theorems: the byte counts 50 and 30 passed to [write] are exactly
    the lengths of the two notices; two SIGTSTPs restore the flag; and the
    dispositions of an executed child. *)

From S2P Require Import Prelude.
Local Open Scope sh_scope.

Module Signals.

(** ** [toggleBG] *)

(** [write(fd, buf, n)] on a terminal: the first [n] bytes of [buf].
    Reading past the end of the literal is undefined; [None] models it. *)
Definition write_bytes (buf : string) (n : nat) : option string :=
  if decide (n <= String.length buf)%nat then Some (String.substring 0 n buf) else None.

Definition enter_fg_msg : string :=
  (nl ++ "Entering foreground-only mode" ++ " (& is now ignored)" ++ nl)%string.
Definition exit_fg_msg : string := (nl ++ "Exiting foreground-only mode" ++ nl)%string.

(** The handler: the new value of [canRunBG] and what it writes. *)
Definition toggleBG (canRunBG : bool) : bool * option string :=
  if canRunBG then (false, write_bytes enter_fg_msg 50)
  else (true, write_bytes exit_fg_msg 30).

(** ** Dispositions *)

Inductive disposition := SIG_DFL | SIG_IGN | Catch_toggleBG.

#[export] Instance disposition_eq_dec : EqDecision disposition.
Proof. solve_decision. Defined.

Record sigdisp := mkDisp { d_sigint : disposition; d_sigtstp : disposition }.

(** A [struct sigaction]: the handler, whether [sa_mask] is full
    ([sigfillset]) or empty, and whether [sa_flags] holds [SA_RESTART]. *)
Record sigaction := mkAction { sa_handler : disposition; sa_mask_full : bool; sa_restart : bool }.

(** The three structs of [main], zero-initialised ([= {0}]) and then
    set field by field. *)
Definition ignore_action : sigaction := mkAction SIG_IGN true false.
Definition normal_action : sigaction := mkAction SIG_DFL false false.
Definition SIGTSTP_action : sigaction := mkAction Catch_toggleBG true false.

(** [sigaction(SIGINT, &ignore_action, NULL); sigaction(SIGTSTP,
    &SIGTSTP_action, NULL);] in [main]. *)
Definition main_dispositions : sigdisp :=
  mkDisp (sa_handler ignore_action) (sa_handler SIGTSTP_action).

(** The child of [forkAndExec] before [execvp]: it inherited the shell's
    dispositions and restores SIGINT when it runs in the foreground. *)
Definition child_dispositions (parent : sigdisp) (wantRunBG canRunBG : bool) : sigdisp :=
  if negb wantRunBG || negb canRunBG then mkDisp (sa_handler normal_action) (d_sigtstp parent)
  else parent.

(** [execvp]: caught signals go back to their default action. *)
Definition exec_reset (d : disposition) : disposition :=
  match d with Catch_toggleBG => SIG_DFL | d => d end.
Definition exec_dispositions (d : sigdisp) : sigdisp :=
  mkDisp (exec_reset (d_sigint d)) (exec_reset (d_sigtstp d)).

(** ** Theorems *)

(** C21: the byte counts given to [write] in [toggleBG] are exactly the
    lengths of the notices, so each notice is written whole and nothing
    past a literal is read; what is written is the text the spec gives. *)
Theorem toggleBG_writes_whole (b : bool) :
  toggleBG b = (negb b, Some (if b then enter_fg_msg else exit_fg_msg)).
Proof. destruct b; reflexivity. Qed.

(** Two SIGTSTPs restore [canRunBG], writing the entering notice and
    then the exiting one (or the converse). *)
Theorem toggleBG_twice (b : bool) :
  fst (toggleBG (fst (toggleBG b))) = b /\
  [snd (toggleBG b); snd (toggleBG (fst (toggleBG b)))] =
    (if b then [Some enter_fg_msg; Some exit_fg_msg] else [Some exit_fg_msg; Some enter_fg_msg]).
Proof. destruct b; split; reflexivity. Qed.

(** C22: the signal dispositions of a program started by [forkAndExec]:
    SIGINT takes its default action exactly when the command runs in the
    foreground and stays ignored in a background job; SIGTSTP always takes
    its default action (stop), since [execvp] resets the caught SIGTSTP and
    no code of smallsh ignores it in the child. *)
Theorem exec_child_dispositions (wantRunBG canRunBG : bool) :
  exec_dispositions (child_dispositions main_dispositions wantRunBG canRunBG) =
  mkDisp (if wantRunBG && canRunBG then SIG_IGN else SIG_DFL) SIG_DFL.
Proof. by destruct wantRunBG, canRunBG. Qed.

End Signals.
