(* ===== verification/Tokenize.v ===== *)
(** * The tokenizer: [tokenizeInput]

    [tokenizeInput] (smallsh.c, lines 56-73) splits the line with
    [strtok(userInput, " ")]: the tokens are the maximal runs of characters
    other than the space character (a tab is an ordinary character).  Each
    token is copied with [strcpy] into a fresh 50-byte [calloc] buffer and
    stored in [userCmds], an array of [MAXARGS] = 512 pointers, with no
    bound check on either.

    [strtok_all] is the [strtok] loop; [tokenizeInput] returns [None] when
    the line would make the code write past a buffer (a token of 50
    characters or more, or more than 512 tokens).  The theorems: every
    token is non-empty and space-free; re-joining tokens with single spaces
    and tokenizing again gives them back; a line of [n] characters has at
    most [(n + 1) / 2] tokens, so lines of the 2048 characters the code
    reserves can overflow [userCmds]. *)

From S2P Require Import Prelude.
Local Open Scope sh_scope.

Module Tokenize.

Definition MAXINPUT : nat := 2048.
Definition MAXARGS : nat := 512.
(** [calloc(50, sizeof(char))] per token. *)
Definition TOKBUF : nat := 50.

(** ** [strtok] on [" "] *)

(** The [strtok] loop from the middle of a token [cur]. *)
Fixpoint strtok_from (s cur : string) : list string :=
  match s with
  | EmptyString => match cur with EmptyString => [] | _ => [cur] end
  | String c s' =>
      if Ascii.eqb c " "%char then
        match cur with
        | EmptyString => strtok_from s' EmptyString
        | _ => cur :: strtok_from s' EmptyString
        end
      else strtok_from s' (cur ++ String c EmptyString)%string
  end.

Definition strtok_all (s : string) : list string := strtok_from s EmptyString.

Definition tokenizeInput (userInput : string) : option (list string) :=
  let toks := strtok_all userInput in
  if decide ((length toks <= MAXARGS)%nat /\
             Forall (fun t => (String.length t < TOKBUF)%nat) toks)
  then Some toks else None.

(** ** Well-formed tokens and re-joining *)

Fixpoint has_space (s : string) : bool :=
  match s with
  | EmptyString => false
  | String c s' => Ascii.eqb c " "%char || has_space s'
  end.

Definition tok_wf (t : string) : Prop := t <> EmptyString /\ has_space t = false.

(** The line with its space characters removed (and every other byte,
    tabs included, kept). *)
Fixpoint drop_spaces (s : string) : string :=
  match s with
  | EmptyString => EmptyString
  | String c s' => if Ascii.eqb c " "%char then drop_spaces s' else String c (drop_spaces s')
  end.

(** [toks] printed with single spaces between them. *)
Fixpoint join (toks : list string) : string :=
  match toks with
  | [] => EmptyString
  | [t] => t
  | t :: ts => (t ++ " " ++ join ts)%string
  end.

(** ** Lemmas *)

Lemma has_space_app (a b : string) :
  has_space (a ++ b) = has_space a || has_space b.
Proof. induction a as [|c a IH]; str_simpl; [done|]. by rewrite IH, orb_assoc. Qed.

Lemma append_nonempty_l (a b : string) : a <> EmptyString -> (a ++ b)%string <> EmptyString.
Proof. by destruct a. Qed.

(** Reading a space-free stretch [t] extends the current token. *)
Lemma strtok_from_word (t s cur : string) :
  has_space t = false -> strtok_from (t ++ s) cur = strtok_from s (cur ++ t).
Proof.
  revert cur. induction t as [|c t IH]; intros cur Ht; str_simpl.
  - by rewrite str_app_nil_r.
  - apply orb_false_iff in Ht as [Hc Ht]. rewrite Hc, IH by done.
    by rewrite <- str_app_assoc.
Qed.

(** A space ends the current token. *)
Lemma strtok_from_space (s cur : string) :
  strtok_from (String " "%char s) cur =
  match cur with EmptyString => strtok_from s EmptyString | _ => cur :: strtok_from s EmptyString end.
Proof. done. Qed.

(** Every token produced from a space-free [cur] is well formed. *)
Lemma strtok_from_wf (s cur : string) :
  has_space cur = false -> Forall tok_wf (strtok_from s cur).
Proof.
  revert cur. induction s as [|c s IH]; intros cur Hcur; simpl.
  - destruct cur; constructor; [split; [done|done]|constructor].
  - destruct (Ascii.eqb c " "%char) eqn:Hc.
    + destruct cur; [by apply IH|]. constructor; [split; [done|done]|by apply IH].
    + apply IH. rewrite has_space_app, Hcur. simpl. by rewrite Hc.
Qed.

(** The tokens read from [s] after the current token [cur] concatenate
    to [cur] followed by [s] without its spaces. *)
Lemma strtok_from_concat (s cur : string) :
  foldr String.append EmptyString (strtok_from s cur) = (cur ++ drop_spaces s)%string.
Proof.
  revert cur. induction s as [|c s IH]; intros cur; simpl.
  - destruct cur; simpl; by rewrite ?str_app_nil_r.
  - destruct (Ascii.eqb c " "%char).
    + destruct cur as [|c0 cur]; [by rewrite IH|]. cbn [foldr]. by rewrite IH.
    + by rewrite IH, <- str_app_assoc.
Qed.

Lemma strtok_from_count (s cur : string) :
  (2 * length (strtok_from s cur) <=
   String.length s + 1 + match cur with EmptyString => 0 | _ => 1 end)%nat.
Proof.
  revert cur. induction s as [|c s IH]; intros cur; simpl.
  - destruct cur; simpl; lia.
  - destruct (Ascii.eqb c " "%char).
    + specialize (IH EmptyString). destruct cur; simpl in *; lia.
    + specialize (IH (cur ++ String c EmptyString)%string).
      destruct (cur ++ String c EmptyString)%string eqn:E.
      * exfalso. destruct cur; discriminate E.
      * destruct cur; simpl in *; lia.
Qed.

(** ** Theorems *)

(** C28: [strtok] with the delimiter string [" "] splits on the space
    character only: every token is non-empty and holds no space, and the
    tokens concatenate to the line with its spaces removed, so a tab or
    any other byte stays inside a token. *)
Theorem strtok_all_wf (s : string) :
  Forall tok_wf (strtok_all s) /\ foldr String.append EmptyString (strtok_all s) = drop_spaces s.
Proof. split; [by apply strtok_from_wf | apply strtok_from_concat]. Qed.

(** C19: round trip: well-formed tokens joined with single spaces are
    tokenized back into the same list. *)
Theorem strtok_join (toks : list string) :
  Forall tok_wf toks -> strtok_all (join toks) = toks.
Proof.
  unfold strtok_all. induction toks as [|t toks IH]; intros Hwf; [done|].
  apply Forall_cons in Hwf as [[Hne Hsp] Hwf].
  destruct toks as [|t' toks].
  - simpl. rewrite <- (str_app_nil_r t), strtok_from_word by done.
    rewrite str_app_nil_l, str_app_nil_r. simpl. by destruct t.
  - change (join (t :: t' :: toks)) with (t ++ String " "%char (join (t' :: toks)))%string.
    rewrite strtok_from_word, strtok_from_space by done. rewrite str_app_nil_l.
    destruct t; [done|]. by rewrite IH.
Qed.

(** A line of [n] characters has at most [(n + 1) / 2] tokens. *)
Theorem strtok_all_count (s : string) :
  (2 * length (strtok_all s) <= String.length s + 1)%nat.
Proof. pose proof (strtok_from_count s EmptyString) as H. cbv iota in H. unfold strtok_all. lia. Qed.

Lemma strtok_join_witness :
  Forall tok_wf ["ls"; "-l"; "x	y"] /\ strtok_all (join ["ls"; "-l"; "x	y"]) = ["ls"; "-l"; "x	y"].
Proof.
  assert (H : Forall tok_wf ["ls"; "-l"; "x	y"]) by (repeat constructor; done).
  split; [exact H | apply strtok_join; exact H].
Defined.

(** [n] copies of ["a "]. *)
Fixpoint a_tokens (n : nat) : string :=
  match n with O => EmptyString | S n' => ("a " ++ a_tokens n')%string end.

Lemma a_tokens_length n : String.length (a_tokens n) = (2 * n)%nat.
Proof. induction n as [|n IH]; [done|]. change (S (S (String.length (a_tokens n))) = 2 * S n)%nat. lia. Qed.

Lemma strtok_a_tokens n : strtok_all (a_tokens n) = replicate n "a"%string.
Proof.
  unfold strtok_all. induction n as [|n IH]; [done|].
  change (a_tokens (S n)) with (String "a" (String " " (a_tokens n))).
  simpl. rewrite str_app_nil_l. simpl. by rewrite IH.
Qed.

(** C39: the bound is reached within the 2048 characters the code
    reserves for a line: [n] one-letter tokens take [2 n] characters, and
    [tokenizeInput] stores them exactly when [n <= 512]; from 513 tokens
    (1026 characters) on it writes past the 512 slots of [userCmds]. *)
Theorem tokenizeInput_overflow n :
  String.length (a_tokens n) = (2 * n)%nat /\
  tokenizeInput (a_tokens n) = if decide (n <= MAXARGS)%nat then Some (replicate n "a"%string) else None.
Proof.
  split; [apply a_tokens_length|]. unfold tokenizeInput. rewrite strtok_a_tokens, length_replicate.
  assert (Forall (fun t => (String.length t < TOKBUF)%nat) (replicate n "a"%string)).
  { apply Forall_replicate. vm_compute. lia. }
  destruct (decide (n <= MAXARGS)%nat); [by rewrite decide_True|by rewrite decide_False by tauto].
Qed.

End Tokenize.
