(* ===== verification/Input.v ===== *)
(** * Line input: [getline] and the chop of the last character

    [shellLoop] reads a line with [getline(&userInput, &size, stdin)]
    (smallsh.c, line 630), retries when it returns [-1] (lines 633-636)
    and otherwise cuts the line with
    [userInput[strlen(userInput) - 1] = '\0'] (line 640), meaning to
    remove the trailing newline.  Every later step of the shell ([strcmp],
    [strtok], [userInput[0] == '#']) reads [userInput] as a C string: its
    bytes up to the first NUL.

    This file models the bytes [getline] hands back from an input stream
    ([getline], POSIX: up to and including the first newline, or the rest
    of the stream at end of file, [-1] when nothing is left), the C string
    a buffer holds ([c_string], [strlen]) and the chop ([chop_line]), whose
    write at index [-1] when [strlen] is 0 is undefined behaviour.  The
    theorems: reading a stream line by line loses and adds nothing and
    takes as many reads as the stream has lines (round trips through
    [lines_of]); the read loop, [getline] then the chop, hands the
    dispatch exactly the lines of a text of newline-terminated lines
    without NUL ([chop_reads_lines]); a line that starts with a NUL byte
    makes the chop write before the buffer (file [Shell]). *)

From S2P Require Import Prelude.
Local Open Scope sh_scope.

Module Input.

(** ** C strings *)

Definition NUL : ascii := Ascii.ascii_of_nat 0.
Definition newline : ascii := Ascii.ascii_of_nat 10.

(** The C string a buffer holds: its bytes up to the first NUL. *)
Fixpoint c_string (s : string) : string :=
  match s with
  | EmptyString => EmptyString
  | String c s' => if Ascii.eqb c NUL then EmptyString else String c (c_string s')
  end.

Definition strlen (s : string) : nat := String.length (c_string s).

(** [userInput[strlen(userInput) - 1] = '\0']: the C string loses its
    last byte; with [strlen] 0 the write is at index [-1], undefined
    behaviour ([None]). *)
Definition chop_line (userInput : string) : option string :=
  match strlen userInput with
  | O => None
  | S n => Some (String.substring 0 n (c_string userInput))
  end.

(** ** [getline] on a stream *)

(** The bytes up to and including the first newline, and the rest. *)
Fixpoint getline_split (inp : string) : string * string :=
  match inp with
  | EmptyString => (EmptyString, EmptyString)
  | String c s =>
      if Ascii.eqb c newline then (String c EmptyString, s)
      else let '(l, r) := getline_split s in (String c l, r)
  end.

(** [getline(&userInput, &size, stdin)]: [None] is the [-1] of end of
    file; otherwise the line read and what is left of the stream. *)
Definition getline (inp : string) : option (string * string) :=
  match inp with EmptyString => None | String _ _ => Some (getline_split inp) end.

(** The successive reads of a stream until end of file; each read
    consumes at least one byte, so the stream's length is enough fuel. *)
Fixpoint lines_of_fuel (fuel : nat) (inp : string) : list string :=
  match fuel with
  | O => []
  | S fuel' =>
      match getline inp with
      | None => []
      | Some (l, r) => l :: lines_of_fuel fuel' r
      end
  end.

Definition lines_of (inp : string) : list string := lines_of_fuel (String.length inp) inp.

(** A text made of lines, each followed by a newline. *)
Definition unlines (ls : list string) : string := foldr (fun l acc => l ++ nl ++ acc)%string EmptyString ls.

(** [s] holds no newline byte. *)
Fixpoint no_newline (s : string) : bool :=
  match s with
  | EmptyString => true
  | String c s' => negb (Ascii.eqb c newline) && no_newline s'
  end.

(** ** Lemmas *)

Lemma nl_newline : nl = String newline EmptyString.
Proof. reflexivity. Qed.

Lemma getline_split_app l r :
  no_newline l = true -> getline_split (l ++ nl ++ r) = (l ++ nl, r)%string.
Proof.
  induction l as [|c l IH]; [done|]. simpl. intros [Hc Hl]%andb_prop.
  apply negb_true_iff in Hc. rewrite Hc, IH by done. done.
Qed.

Lemma getline_split_app_nonl l :
  no_newline l = true -> getline_split l = (l, EmptyString).
Proof.
  induction l as [|c l IH]; [done|]. simpl. intros [Hc Hl]%andb_prop.
  apply negb_true_iff in Hc. rewrite Hc, IH by done. done.
Qed.

(** What a read takes and what it leaves make up the stream, and the
    read takes at least one byte. *)
Lemma getline_split_spec inp l r :
  inp <> EmptyString -> getline_split inp = (l, r) ->
  (l ++ r)%string = inp /\ (String.length r < String.length inp)%nat.
Proof.
  revert l r. induction inp as [|c s IH]; intros l r Hne; [done|]. simpl.
  destruct (Ascii.eqb c newline); [intros [= <- <-]; simpl; split; [done|lia]|].
  destruct s as [|c' s'].
  - simpl. intros [= <- <-]. simpl. split; [done|lia].
  - destruct (getline_split (String c' s')) as [l1 r1] eqn:E. intros [= <- <-].
    destruct (IH l1 r1) as [Happ Hlen]; [done|done|]. rewrite str_app_cons, Happ. split; [done|simpl in *; lia].
Qed.

Lemma lines_of_fuel_enough fuel inp :
  (String.length inp <= fuel)%nat -> lines_of_fuel fuel inp = lines_of inp.
Proof.
  unfold lines_of. remember (String.length inp) as n eqn:Hn.
  revert inp fuel Hn. induction n as [n IH] using lt_wf_ind.
  intros inp fuel Hn Hf. destruct inp as [|c s].
  - destruct fuel, n; done.
  - destruct fuel as [|fuel]; [simpl in *; lia|]. destruct n as [|n]; [simpl in *; lia|].
    cbn [lines_of_fuel getline]. destruct (getline_split (String c s)) as [l r] eqn:E.
    destruct (getline_split_spec (String c s) l r) as [_ Hr]; [done|done|].
    f_equal. rewrite (IH (String.length r)) by lia.
    symmetry. apply IH; lia.
Qed.

Lemma c_string_app_nl l : c_string l = l -> c_string (l ++ nl)%string = (l ++ nl)%string.
Proof.
  induction l as [|c l IH]; [done|]. simpl. destruct (Ascii.eqb c NUL); [done|].
  intros [= Hl]. by rewrite IH.
Qed.

Lemma substring_app_length l r : String.substring 0 (String.length l) (l ++ r)%string = l.
Proof.
  induction l as [|c l IH]; simpl; [by destruct r|]. by rewrite IH.
Qed.

(** One read, then the reads of what it leaves. *)
Lemma lines_of_cons inp l r :
  inp <> EmptyString -> getline_split inp = (l, r) -> lines_of inp = l :: lines_of r.
Proof.
  intros Hne Hs. destruct (getline_split_spec inp l r Hne Hs) as [_ Hlen].
  destruct inp as [|c s]; [done|]. unfold lines_of at 1. cbn [String.length lines_of_fuel getline].
  rewrite Hs. f_equal. apply lines_of_fuel_enough. simpl in Hlen. lia.
Qed.

(** The chop removes the newline of a line without NUL. *)
Lemma chop_line_nl l : c_string l = l -> chop_line (l ++ nl)%string = Some l.
Proof.
  intros Hl. unfold chop_line, strlen. rewrite c_string_app_nl by done.
  rewrite str_length_app. simpl (String.length nl). rewrite Nat.add_1_r.
  by rewrite substring_app_length.
Qed.

(** ** Theorems *)

(** Reading a text made of newline-terminated lines with [getline]
    until end of file gives back exactly its lines, each with its
    newline, one read per line. *)
Theorem lines_of_unlines ls :
  Forall (fun l => no_newline l = true) ls ->
  lines_of (unlines ls) = map (fun l => l ++ nl)%string ls.
Proof.
  induction ls as [|l ls IH]; intros Hls; [done|]. apply Forall_cons in Hls as [Hl Hls].
  cbn [unlines foldr map]. rewrite (lines_of_cons _ (l ++ nl) (unlines ls)).
  - f_equal. by apply IH.
  - by destruct l.
  - by apply getline_split_app.
Qed.

(** Reading a stream line by line neither loses nor adds a byte:
    the lines [getline] returns until end of file concatenate to the
    stream, and every one of them is non-empty. *)
Theorem lines_of_concat inp :
  foldr String.append EmptyString (lines_of inp) = inp /\
  Forall (fun l => l <> EmptyString) (lines_of inp).
Proof.
  remember (String.length inp) as n eqn:Hn. revert inp Hn.
  induction n as [n IH] using lt_wf_ind. intros inp Hn.
  destruct inp as [|c s]; [split; [done|constructor]|].
  destruct (getline_split (String c s)) as [l r] eqn:E.
  destruct (getline_split_spec (String c s) l r) as [Happ Hlen]; [done|done|].
  rewrite (lines_of_cons _ l r) by done. cbn [foldr].
  destruct (IH (String.length r)) with (inp := r) as [Hc Hne]; [lia|done|].
  rewrite Hc. split; [done|]. constructor; [|done].
  intros ->. rewrite str_app_nil_l in Happ. subst r. lia.
Qed.

(** C20: what the read loop hands to the dispatch: reading a text of
    newline-terminated lines (without NUL bytes) with [getline] and
    chopping each read with [userInput[strlen(userInput) - 1] = '\0']
    gives back exactly the lines of the text, in order, one per read,
    without their newlines. *)
Theorem chop_reads_lines ls :
  Forall (fun l => no_newline l = true /\ c_string l = l) ls ->
  map chop_line (lines_of (unlines ls)) = map Some ls.
Proof.
  intros Hls. rewrite lines_of_unlines by (eapply Forall_impl; [exact Hls|]; by intros ? [? ?]).
  rewrite map_map. induction Hls as [|l ls [_ Hc] _ IH]; [done|].
  cbn [map]. by rewrite chop_line_nl, IH.
Qed.

Lemma chop_reads_lines_witness :
  map chop_line (lines_of ("ls &" ++ nl ++ "exit" ++ nl)%string) = [Some "ls &"; Some "exit"]%string.
Proof.
  apply (chop_reads_lines ["ls &"; "exit"]%string). repeat constructor.
Defined.

End Input.
