(* ===== verification/Expand.v ===== *)
(** * [$$] expansion: [expandPID]

    [expandPID] (smallsh.c, lines 106-152) rewrites every token in place:
    while [strstr(token, "$$")] finds an occurrence, it saves the text
    after it in a 40-byte [calloc] buffer [post], cuts the token at the
    occurrence, appends the pid printed by [snprintf(pidBuff, 9, "%d",
    getpid())] (at most 8 characters) and appends [post] back, then
    searches again from the start of the token.  The token lives in the
    50-byte buffer [tokenizeInput] allocated.

    [expand_loop] is that loop, with fuel, returning [Overflow] when a
    [strcpy] or [strcat] writes past its buffer.  The reference is the
    one-pass left-to-right replacement [replace_dd].  The theorems: the
    loop computes [replace_dd] (or overflows) and stops after one
    iteration per occurrence; no [$$] is left; and a token the tokenizer
    accepts can still overflow [post]. *)

From S2P Require Import Prelude.
Local Open Scope sh_scope.

Module Expand.

Abbreviation dollar := "$"%char (only parsing).

(** [calloc(40, sizeof(char))] for [post], and the 50-byte token. *)
Definition POSTBUF : nat := 40.
Definition TOKBUF : nat := 50.

(** ** The C building blocks *)

(** [strstr(s, "$$")]: the text before and after the first occurrence. *)
Fixpoint strstr_dd (s : string) : option (string * string) :=
  match s with
  | EmptyString => None
  | String c rest =>
      let later := match strstr_dd rest with
                   | Some (pre, post) => Some (String c pre, post)
                   | None => None
                   end in
      if Ascii.eqb c dollar then
        match rest with
        | String c2 rest2 => if Ascii.eqb c2 dollar then Some (EmptyString, rest2) else later
        | EmptyString => None
        end
      else later
  end.

(** [snprintf(pidBuff, 9, "%d", getpid())]: at most 8 characters. *)
Definition pid_text (pid : Z) : string := String.substring 0 8 (string_of_Z pid).

Inductive expansion := Expanded (s : string) | Overflow.

(** The [do { ... } while (index)] loop on one token. *)
Fixpoint expand_loop (fuel : nat) (pid : string) (s : string) : option expansion :=
  match fuel with
  | O => None
  | S fuel' =>
      match strstr_dd s with
      | None => Some (Expanded s)
      | Some (pre, post) =>
          if decide (POSTBUF <= String.length post)%nat then Some Overflow
          else
            let s' := (pre ++ pid ++ post)%string in
            if decide (TOKBUF <= String.length s')%nat then Some Overflow
            else expand_loop fuel' pid s'
      end
  end.

(** The [for] loop over the tokens; the fuel of each token is its length,
    which the theorems below show is enough. *)
Definition expandPID (pid : Z) (userCmds : list string) : option (list string) :=
  mapM (fun t => match expand_loop (S (String.length t)) (pid_text pid) t with
                 | Some (Expanded t') => Some t'
                 | _ => None
                 end) userCmds.

(** ** The reference: one pass from left to right *)

Fixpoint replace_dd (pid s : string) : string :=
  match s with
  | EmptyString => EmptyString
  | String c rest =>
      if Ascii.eqb c dollar then
        match rest with
        | String c2 rest2 =>
            if Ascii.eqb c2 dollar then (pid ++ replace_dd pid rest2)%string
            else String c (replace_dd pid rest)
        | EmptyString => String c EmptyString
        end
      else String c (replace_dd pid rest)
  end.

Fixpoint dollars (s : string) : nat :=
  match s with
  | EmptyString => O
  | String c s' => ((if Ascii.eqb c dollar then 1 else 0) + dollars s')%nat
  end.

(** ** Lemmas *)

Lemma dollars_app (a b : string) : dollars (a ++ b) = (dollars a + dollars b)%nat.
Proof. induction a as [|c a IH]; str_simpl; [done|]. rewrite IH. lia. Qed.

Lemma dollars_le_length (s : string) : (dollars s <= String.length s)%nat.
Proof. induction s as [|c s IH]; simpl; [done|]. destruct (Ascii.eqb c dollar); lia. Qed.

(** A dollar-free prefix passes through the replacement unchanged. *)
Lemma replace_dd_clean (p t x : string) :
  dollars t = O -> replace_dd p (t ++ x) = (t ++ replace_dd p x)%string.
Proof.
  induction t as [|c t IH]; intros Ht; str_simpl; [done|].
  simpl in Ht. destruct (Ascii.eqb c dollar) eqn:Hc; [lia|].
  rewrite IH by lia. done.
Qed.

Lemma strstr_dd_split (s pre post : string) :
  strstr_dd s = Some (pre, post) -> s = (pre ++ String dollar (String dollar post))%string.
Proof.
  revert pre post. induction s as [|c rest IH]; intros pre post; simpl; [done|].
  destruct (strstr_dd rest) as [[pre' post']|] eqn:Hr.
  - specialize (IH pre' post' eq_refl).
    destruct (Ascii.eqb c dollar) eqn:Hc; [destruct rest as [|c2 rest2]; [done|]|].
    + destruct (Ascii.eqb c2 dollar) eqn:Hc2.
      * intros [= <- <-]. apply Ascii.eqb_eq in Hc, Hc2. by subst.
      * intros [= <- <-]. str_simpl. by rewrite <- IH.
    + intros [= <- <-]. str_simpl. by rewrite <- IH.
  - destruct (Ascii.eqb c dollar) eqn:Hc; [destruct rest as [|c2 rest2]; [done|]|done].
    destruct (Ascii.eqb c2 dollar) eqn:Hc2; [|done].
    intros [= <- <-]. apply Ascii.eqb_eq in Hc, Hc2. by subst.
Qed.

(** One step of [replace_dd], as an equation to rewrite with. *)
Lemma replace_dd_cons p c rest :
  replace_dd p (String c rest) =
  if Ascii.eqb c dollar then
    match rest with
    | String c2 rest2 =>
        if Ascii.eqb c2 dollar then (p ++ replace_dd p rest2)%string
        else String c (replace_dd p rest)
    | EmptyString => String c EmptyString
    end
  else String c (replace_dd p rest).
Proof. reflexivity. Qed.

(** Replacing at the first occurrence [pre $$ post] a dollar-free text
    [t] for the [$$] lets the one-pass replacement go through [pre] and
    [t] unchanged; on [s] itself it replaces that occurrence first. *)
Lemma replace_dd_at (p s pre post t : string) :
  strstr_dd s = Some (pre, post) -> dollars t = O ->
  replace_dd p (pre ++ t ++ post) = (pre ++ t ++ replace_dd p post)%string /\
  replace_dd p s = (pre ++ p ++ replace_dd p post)%string.
Proof.
  intros Hs Ht. revert pre post Hs.
  induction s as [|c rest IH]; intros pre post; cbn [strstr_dd]; [done|].
  destruct (strstr_dd rest) as [[pre' post']|] eqn:Hr.
  - destruct (IH pre' post' eq_refl) as [IH1 IH2].
    pose proof (strstr_dd_split rest pre' post' Hr) as Hsplit.
    destruct (Ascii.eqb c dollar) eqn:Hc; [destruct rest as [|c2 rest2]; [done|]|].
    + destruct (Ascii.eqb c2 dollar) eqn:Hc2; intros [= <- <-]; autorewrite with smallsh_rw.
      * split; [by apply replace_dd_clean|].
        rewrite replace_dd_cons, Hc. cbv beta iota. by rewrite Hc2.
      * split.
        -- destruct pre' as [|d pre'']; autorewrite with smallsh_rw in *.
           { exfalso. injection Hsplit as -> _. by rewrite Ascii.eqb_refl in Hc2. }
           injection Hsplit as -> _. rewrite replace_dd_cons, Hc. cbv beta iota.
           rewrite Hc2. by rewrite IH1.
        -- rewrite replace_dd_cons, Hc. cbv beta iota. by rewrite Hc2, IH2.
    + intros [= <- <-]. autorewrite with smallsh_rw.
      split; rewrite replace_dd_cons, Hc; cbv beta iota; [by rewrite IH1 | by rewrite IH2].
  - destruct (Ascii.eqb c dollar) eqn:Hc; [destruct rest as [|c2 rest2]; [done|]|done].
    destruct (Ascii.eqb c2 dollar) eqn:Hc2; [|done].
    intros [= <- <-]. autorewrite with smallsh_rw.
    split; [by apply replace_dd_clean|]. rewrite replace_dd_cons, Hc. cbv beta iota.
    by rewrite Hc2.
Qed.

Lemma replace_dd_none (p s : string) : strstr_dd s = None -> replace_dd p s = s.
Proof.
  induction s as [|c rest IH]; intros H; [done|].
  cbn [strstr_dd] in H. rewrite replace_dd_cons.
  destruct (strstr_dd rest) as [[pre' post']|] eqn:Hr.
  - destruct (Ascii.eqb c dollar); [destruct rest as [|c2 rest2]; [done|]|done].
    by destruct (Ascii.eqb c2 dollar).
  - rewrite IH by done.
    destruct (Ascii.eqb c dollar); [|done]. destruct rest as [|c2 rest2]; [done|].
    by destruct (Ascii.eqb c2 dollar).
Qed.

(** [replace_dd] on a token that does not start with [$]. *)
Lemma replace_dd_cons' p c rest :
  Ascii.eqb c dollar = false -> replace_dd p (String c rest) = String c (replace_dd p rest).
Proof. intros H. by rewrite replace_dd_cons, H. Qed.

(** ** Theorems *)

(** [expandPID]'s loop, which searches again from the start of the
    token after every replacement, computes the one-pass left-to-right
    replacement of [$$] by the pid text (or stops on a buffer overflow),
    given fuel for one iteration per pair of dollars; in particular a
    token's length is enough fuel, so the loop terminates. *)
Lemma expand_loop_correct fuel p s :
  dollars p = O -> (dollars s < 2 * fuel)%nat ->
  expand_loop fuel p s = Some Overflow \/
  expand_loop fuel p s = Some (Expanded (replace_dd p s)).
Proof.
  intros Hp. revert s. induction fuel as [|fuel IH]; intros s Hf; [lia|]. simpl.
  destruct (strstr_dd s) as [[pre post]|] eqn:Hs.
  - case_decide; [by left|]. case_decide; [by left|].
    destruct (replace_dd_at p s pre post p Hs Hp) as [H1 H2].
    rewrite H2, <- H1. apply IH.
    rewrite (strstr_dd_split s pre post Hs) in Hf.
    repeat rewrite dollars_app in *. simpl in Hf. lia.
  - right. by rewrite replace_dd_none.
Qed.

Lemma expand_loop_fuel_enough s : (dollars s < 2 * S (String.length s))%nat.
Proof. pose proof (dollars_le_length s). lia. Qed.

(** One step of [strstr_dd], as an equation to rewrite with. *)
Lemma strstr_dd_cons c rest :
  strstr_dd (String c rest) =
  let later := match strstr_dd rest with
               | Some (pre, post) => Some (String c pre, post)
               | None => None
               end in
  if Ascii.eqb c dollar then
    match rest with
    | String c2 rest2 => if Ascii.eqb c2 dollar then Some (EmptyString, rest2) else later
    | EmptyString => None
    end
  else later.
Proof. reflexivity. Qed.

Lemma strstr_dd_clean (t y : string) :
  dollars t = O -> strstr_dd y = None -> strstr_dd (t ++ y) = None.
Proof.
  induction t as [|d t IH]; intros Ht Hy; autorewrite with smallsh_rw; [done|].
  simpl in Ht. rewrite strstr_dd_cons, IH by (done || destruct (Ascii.eqb d dollar); lia).
  destruct (Ascii.eqb d dollar) eqn:Hd; [|done]. rewrite ?Hd in Ht. lia.
Qed.

(** The reference replacement leaves no [$$], whatever the token: a
    pid text has no dollar, and a run of three dollars leaves its last
    one alone. *)
Theorem replace_dd_complete p s : dollars p = O -> strstr_dd (replace_dd p s) = None.
Proof.
  intros Hp. induction s as [s IH] using (induction_ltof1 _ String.length).
  unfold ltof in IH. destruct s as [|c rest]; [done|].
  rewrite replace_dd_cons. destruct (Ascii.eqb c dollar) eqn:Hc.
  - destruct rest as [|c2 rest2]; [by rewrite strstr_dd_cons, Hc|].
    destruct (Ascii.eqb c2 dollar) eqn:Hc2.
    + apply strstr_dd_clean; [done|]. apply IH. simpl. lia.
    + rewrite strstr_dd_cons, Hc, replace_dd_cons, Hc2. cbv beta iota zeta.
      rewrite Hc2, <- (replace_dd_cons' p c2 rest2 Hc2), IH by (simpl; lia). done.
  - rewrite strstr_dd_cons, Hc. cbv beta iota zeta. rewrite IH by (simpl; lia). done.
Qed.

(** ** The pid text and the whole token array *)

Lemma dollars_digits (d : Decimal.uint) : dollars (NilEmpty.string_of_uint d) = O.
Proof. induction d; simpl; auto. Qed.

Lemma dollars_substring (n : nat) (s : string) :
  (dollars (String.substring 0 n s) <= dollars s)%nat.
Proof.
  revert n. induction s as [|c s IH]; intros [|n]; simpl; try lia.
  specialize (IH n). destruct (Ascii.eqb c dollar); lia.
Qed.

(** [printf("%d")] writes digits and a minus sign, never a dollar. *)
Lemma pid_text_no_dollar (pid : Z) : dollars (pid_text pid) = O.
Proof.
  unfold pid_text. pose proof (dollars_substring 8 (string_of_Z pid)) as H.
  enough (dollars (string_of_Z pid) = O) by lia.
  unfold string_of_Z, NilZero.string_of_int, NilZero.string_of_uint.
  destruct (Z.to_int pid) as [d|d]; simpl; destruct d; simpl; auto using dollars_digits.
Qed.

(** Tokens without [$$] come out of [expandPID] unchanged. *)
Lemma expandPID_clean (pid : Z) (toks : list string) :
  Forall (fun t => strstr_dd t = None) toks -> expandPID pid toks = Some toks.
Proof.
  unfold expandPID. induction toks as [|t toks IH]; intros Hc; [done|].
  apply Forall_cons in Hc as [Ht Hc]. rewrite mapM_cons_option, IH by done. cbv beta.
  cbn [expand_loop]. by rewrite Ht.
Qed.

(** C18: [expandPID] as a whole: either every token is replaced by its
    one-pass expansion, or some token overflows a buffer on the way; the
    fuel never runs out. *)
Theorem expandPID_spec (pid : Z) (toks : list string) :
  expandPID pid toks = Some (map (replace_dd (pid_text pid)) toks) \/
  exists t, t ∈ toks /\
    expand_loop (S (String.length t)) (pid_text pid) t = Some Overflow.
Proof.
  unfold expandPID. induction toks as [|t toks IH]; [by left|].
  rewrite mapM_cons_option. cbv beta.
  destruct (expand_loop_correct (S (String.length t)) (pid_text pid) t)
    as [Ho | He]; [apply pid_text_no_dollar | apply expand_loop_fuel_enough | |].
  - right. exists t. split; [set_solver | done].
  - rewrite He. destruct IH as [-> | (t' & Hin & Ho)]; [by left|].
    right. exists t'. split; [set_solver | done].
Qed.

(** A token the tokenizer accepts (47 characters, under the 50-byte
    buffer) whose text after [$$] does not fit in the 40 bytes of
    [post]. *)
Definition long_post_token : string :=
  ("$$" ++ "xxxxxxxxxxxxxxxxxxxxxxxxxxxxxxxxxxxxxxxxxxxxx")%string.

(** C40: [expandPID] has no bound check on its [post] buffer: as soon as
    a token holds a [$$] followed by 40 bytes or more, [strcpy(post,
    index2)] writes past the 40-byte allocation (the [Overflow] of
    [expand_loop]), and tokens of up to 49 bytes, which [tokenizeInput]
    stores without overflow, have such a [$$]. *)
Theorem expandPID_post_overflow pid toks t pre post :
  t ∈ toks -> strstr_dd t = Some (pre, post) -> (POSTBUF <= String.length post)%nat ->
  expandPID pid toks = None.
Proof.
  intros Hin Hs Hp. unfold expandPID. induction toks as [|t' toks IH]; [by apply elem_of_nil in Hin|].
  rewrite mapM_cons_option. apply elem_of_cons in Hin as [->|Hin].
  - cbn [expand_loop]. by rewrite Hs, decide_True.
  - case_match; [|done]. by rewrite IH.
Qed.

Lemma expandPID_post_overflow_witness :
  (String.length long_post_token < TOKBUF)%nat /\ expandPID 4242 [long_post_token] = None.
Proof.
  split; [vm_compute; lia|].
  apply (expandPID_post_overflow 4242 [long_post_token] long_post_token EmptyString
           "xxxxxxxxxxxxxxxxxxxxxxxxxxxxxxxxxxxxxxxxxxxxx"); [by left | reflexivity | vm_compute; lia].
Defined.

(** [expand_loop] stops with a token only when [strstr] finds no [$$]
    in it: the [while (index)] exit of the [do] loop. *)
Lemma expand_loop_no_dd fuel p s t :
  expand_loop fuel p s = Some (Expanded t) -> strstr_dd t = None.
Proof.
  revert s. induction fuel as [|fuel IH]; intros s; [done|]. cbn [expand_loop].
  destruct (strstr_dd s) as [[pre post]|] eqn:Hs; [|by intros [= <-]].
  repeat case_decide; [done|done|apply IH].
Qed.

(** C27: whatever the pid, every token [expandPID] returns is free of
    [$$] and there is one per token of the line: the restarting loop
    searches again until [strstr] finds nothing. *)
Theorem expandPID_no_dd pid toks toks' :
  expandPID pid toks = Some toks' ->
  Forall (fun t => strstr_dd t = None) toks' /\ length toks' = length toks.
Proof.
  unfold expandPID. revert toks'. induction toks as [|t toks IH]; intros toks'.
  - by intros [= <-].
  - rewrite mapM_cons_option. cbv beta.
    destruct (expand_loop _ _ t) as [[t'|]|] eqn:He; try done.
    destruct (mapM _ toks) as [ts|]; [|done]. intros [= <-].
    destruct (IH ts eq_refl) as [Hf Hl]. split; [constructor; [eapply expand_loop_no_dd, He|done]|].
    simpl. by rewrite Hl.
Qed.

Lemma expandPID_no_dd_witness :
  expandPID 4242 ["a$$b"; "$$$$$"] = Some ["a4242b"; "42424242$"] /\
  Forall (fun t => strstr_dd t = None) ["a4242b"; "42424242$"] /\
  length ["a4242b"; "42424242$"] = length ["a$$b"; "$$$$$"].
Proof.
  assert (H : expandPID 4242 ["a$$b"; "$$$$$"] = Some ["a4242b"; "42424242$"]) by reflexivity.
  split; [exact H|]. exact (expandPID_no_dd 4242 _ _ H).
Defined.

End Expand.
