(* ===== verification/Command.v ===== *)
(** * The command in the child: [checkIfBG], [checkReDirect], [execvp]

    After tokenizing, the argument array [userCmds] holds the tokens in
    its first [cmdCount] slots and NULL in the others (it is [calloc]ed
    and reset to NULL after every line).  [checkIfBG] (lines 200-212)
    frees and NULLs a trailing [&]; in the child, [checkReDirect] (lines
    251-360) scans the slots, and for [<] / [>] opens the next slot's file
    and [dup2]s it onto descriptor 0 / 1 and NULLs the operator slot; for
    a background job it binds the unredirected directions to /dev/null.
    [execvp(userCmds[0], userCmds)] then sees the slots up to the first
    NULL (lines 494-501).

    The slots are a [list (option string)] ([None] is NULL), the child's
    descriptor table a [gmap Z ofile], and the filesystem an oracle
    [fsys] saying which opens and which [execvp]s succeed.  The child's
    life until [execvp] is written in a small monad [cm] of its own: a
    step continues, exits with a status (after writing its diagnostic),
    or hits undefined behaviour. *)

From S2P Require Import Prelude.
From S2P Require Import Signals.
Local Open Scope Z_scope.
Local Open Scope sh_scope.

Module Command.
Import Signals.

(** ** The argument slots *)

Abbreviation slots := (list (option string)).

(** [MAXARGS] slots: the tokens, then NULL. *)
Definition slots_of (toks : list string) : slots :=
  map Some toks ++ replicate (512 - length toks) None.

(** [checkIfBG]: [strcmp(userCmds[cmdCount - 1], "&")]; [None] when that
    slot is NULL or out of the array, [userCmds[-1]] included (undefined
    behaviour). *)
Definition checkIfBG (userCmds : slots) (cmdCount : nat) : option (slots * bool) :=
  match cmdCount with
  | O => None
  | S last_i =>
      match userCmds !! last_i with
      | Some (Some last) =>
          if last ==s "&" then Some (<[last_i := None]> userCmds, true)
          else Some (userCmds, false)
      | _ => None
      end
  end.

(** What [execvp] reads: the slots up to the first NULL; [None] when the
    array has no NULL, so [execvp] reads past it. *)
Fixpoint argv_of (userCmds : slots) : option (list string) :=
  match userCmds with
  | [] => None
  | None :: _ => Some []
  | Some a :: rest => cons a <$> argv_of rest
  end.

(** ** Files and descriptors *)

Inductive open_mode := O_RDONLY | O_WRONLY_CREAT_TRUNC.

#[export] Instance open_mode_eq_dec : EqDecision open_mode.
Proof. solve_decision. Qed.

Inductive ofile := Terminal | OFile (path : string) (mode : open_mode).

#[export] Instance ofile_eq_dec : EqDecision ofile.
Proof. solve_decision. Qed.

(** What the child can do with the filesystem. *)
Record fsys := mkFsys {
  can_open : string -> open_mode -> bool;   (** [open] succeeds *)
  can_exec : string -> bool                 (** [execvp] finds the program *)
}.

(** Descriptors 0, 1, 2 on the terminal, as the shell has them. *)
Definition tty_fds : gmap Z ofile := <[0 := Terminal]> (<[1 := Terminal]> (<[2 := Terminal]> ∅)).

(** The lowest free descriptor, as [open] returns it. *)
Fixpoint lowest_free_from (fds : gmap Z ofile) (n : Z) (fuel : nat) : Z :=
  match fuel with
  | O => n
  | S f => match fds !! n with Some _ => lowest_free_from fds (n + 1) f | None => n end
  end.
Definition lowest_free (fds : gmap Z ofile) : Z := lowest_free_from fds 0 (S (size fds)).

(** ** The child until [execvp] *)

Record child := mkChild {
  c_fds : gmap Z ofile;
  c_cmds : slots;
  c_out : list (ofile * string)   (** what it wrote, to which open file *)
}.

Inductive cm (A : Type) :=
  | CmOk (a : A) (c : child)
  | CmExit (code : Z) (c : child)
  | CmUB (c : child).
Arguments CmOk {A}. Arguments CmExit {A}. Arguments CmUB {A}.

Definition cm_bind {A B} (m : cm A) (k : A -> child -> cm B) : cm B :=
  match m with
  | CmOk a c => k a c
  | CmExit n c => CmExit n c
  | CmUB c => CmUB c
  end.

Declare Scope cm_scope.
Notation "'let!' x , c := m 'in' k" := (cm_bind m (fun x c => k))
  (at level 10, x name, c name, m at level 100, k at level 200,
   format "'[' 'let!'  x ,  c  :=  m  'in' ']' '/' k") : cm_scope.
Local Open Scope cm_scope.

(** A write on descriptor [fd]: it goes to the file [fd] is open on. *)
Definition c_write (fd : Z) (msg : string) (c : child) : child :=
  mkChild (c_fds c) (c_cmds c) (c_out c ++ [(default Terminal (c_fds c !! fd), msg)]).
(** [printf] of the child writes on descriptor 1, [perror] on 2. *)
Definition c_print : string -> child -> child := c_write 1.
Definition c_perror : string -> child -> child := c_write 2.

(** [open(path, mode)]: the new descriptor, or [-1]; a NULL path fails
    (EFAULT). *)
Definition c_open (fs : fsys) (path : option string) (mode : open_mode) (c : child) : Z * child :=
  match path with
  | Some p =>
      if can_open fs p mode then
        let fd := lowest_free (c_fds c) in
        (fd, mkChild (<[fd := OFile p mode]> (c_fds c)) (c_cmds c) (c_out c))
      else (-1, c)
  | None => (-1, c)
  end.

(** [dup2(fd, target)]: [-1] when [fd] is not open. *)
Definition c_dup2 (fd target : Z) (c : child) : Z * child :=
  match c_fds c !! fd with
  | Some f => (target, mkChild (<[target := f]> (c_fds c)) (c_cmds c) (c_out c))
  | None => (-1, c)
  end.

(** [printf("%s")] of a NULL pointer prints [(null)] with glibc. *)
Definition c_str (p : option string) : string :=
  match p with Some s => s | None => "(null)" end.

(** [printInput], the debugging dump whose two calls in [shellLoop] are
    commented out: a header, then [userCmds[i]] for [i < cmdCount]; a
    read past the array is undefined behaviour, [None]. *)
Definition printInput (userCmds : slots) (cmdCount : nat) : option output :=
  if decide (cmdCount <= length userCmds)%nat then
    Some (("tokenized input is:" ++ nl)%string :: map (fun p => (c_str p ++ nl)%string) (take cmdCount userCmds))
  else None.

(** ** [checkReDirect] *)

Definition in_msg (f : string) : string := ("cannot open " ++ f ++ " for input" ++ nl)%string.
Definition out_msg (f : string) : string := ("cannot open " ++ f ++ " for output" ++ nl)%string.

(** One of the two [if (userCmds[i]) { if (strcmp(userCmds[i], op) == 0)
    ... }] blocks of the loop body: open [userCmds[i + 1]], print and
    [exit(1)] on failure, [dup2] onto [target], NULL the operator slot. *)
Definition redirect_at (fs : fsys) (i : nat) (op : string) (mode : open_mode)
    (target : Z) (msg : string -> string) (dupmsg : string) (found : bool)
    (c : child) : cm bool :=
  match c_cmds c !! i with
  | Some (Some tok) =>
      if tok ==s op then
        match c_cmds c !! S i with
        | None => CmUB c
        | Some fname =>
            let '(fd, c1) := c_open fs fname mode c in
            if decide (fd = -1) then CmExit 1 (c_print (msg (c_str fname)) c1)
            else
              let '(ret, c2) := c_dup2 fd target c1 in
              if decide (ret = -1) then CmExit 1 (c_perror dupmsg c2)
              else CmOk true (mkChild (c_fds c2) (<[i := None]> (c_cmds c2)) (c_out c2))
        end
      else CmOk found c
  | Some None => CmOk found c
  | None => CmUB c
  end.

(** [for (i = 0; i < cmdCount; i++)], from slot [i] for [n] slots; the
    result is [(foundIn, foundOut)]. *)
Fixpoint redirect_loop (fs : fsys) (i n : nat) (foundIn foundOut : bool) (c : child)
    : cm (bool * bool) :=
  match n with
  | O => CmOk (foundIn, foundOut) c
  | S n' =>
      let! fi, c1 := redirect_at fs i "<" O_RDONLY 0 in_msg "dup2 - input redirect" foundIn c in
      let! fo, c2 := redirect_at fs i ">" O_WRONLY_CREAT_TRUNC 1 out_msg
                      "dup2 - output redirect" foundOut c1 in
      redirect_loop fs (S i) n' fi fo c2
  end.

(** Binding an unredirected direction of a background job to /dev/null. *)
Definition devnull_at (fs : fsys) (mode : open_mode) (target : Z) (openmsg dupmsg : string)
    (c : child) : cm unit :=
  let '(fd, c1) := c_open fs (Some "/dev/null") mode c in
  if decide (fd = -1) then CmExit 1 (c_perror openmsg c1)
  else
    let '(ret, c2) := c_dup2 fd target c1 in
    if decide (ret = -1) then CmExit 1 (c_perror dupmsg c2) else CmOk tt c2.

Definition checkReDirect (fs : fsys) (cmdCount : nat) (wantRunBG canRunBG : bool)
    (c : child) : cm unit :=
  let! found, c1 := redirect_loop fs 0 cmdCount false false c in
  if wantRunBG && canRunBG then
    let! u, c2 := (if negb found.1
                  then devnull_at fs O_RDONLY 0 "couldnt open dev/null for reading"
                         "dup2 - input from dev/null" c1
                  else CmOk tt c1) in
    (if negb found.2
     then devnull_at fs O_WRONLY_CREAT_TRUNC 1 "couldnt open dev/null for writing"
            "dup2 - output to dev/null" c2
     else CmOk tt c2)
  else CmOk tt c1.

(** ** The child of [forkAndExec] *)

Inductive child_end :=
  | ChildExec (prog : string) (argv : list string) (fds : gmap Z ofile) (disp : sigdisp)
  | ChildExit (code : Z) (out : list (ofile * string))
  | ChildUB.

(** [case 0:] of [forkAndExec] (lines 481-502): redirections, SIGINT back
    to its default in the foreground, [execvp]; when [execvp] returns,
    [perror(userCmds[0])] and [exit(1)].  [disp] are the dispositions
    inherited from the shell. *)
Definition run_child (fs : fsys) (disp : sigdisp) (userCmds : slots) (cmdCount : nat)
    (wantRunBG canRunBG : bool) : child_end :=
  match checkReDirect fs cmdCount wantRunBG canRunBG (mkChild tty_fds userCmds []) with
  | CmExit n c => ChildExit n (c_out c)
  | CmUB _ => ChildUB
  | CmOk _ c =>
      let disp' := child_dispositions disp wantRunBG canRunBG in
      match c_cmds c !! 0%nat, argv_of (c_cmds c) with
      | Some (Some prog), Some argv =>
          if can_exec fs prog then ChildExec prog argv (c_fds c) (exec_dispositions disp')
          else ChildExit 1 (c_out (c_perror prog c))
      | _, _ => ChildUB
      end
  end.

(** ** Lemmas: descriptors *)

Lemma lowest_free_from_spec fds n fuel :
  (n <= lowest_free_from fds n fuel) /\
  (fds !! lowest_free_from fds n fuel = None \/
   forall j, 0 <= j < Z.of_nat fuel -> is_Some (fds !! (n + j))).
Proof.
  revert n. induction fuel as [|f IH]; intros n; simpl.
  - split; [lia|]. right. lia.
  - destruct (fds !! n) eqn:E; [|split; [lia | by left]].
    destruct (IH (n + 1)) as [Hle [Hn | Hall]]; split; try lia; [by left|].
    right. intros j Hj. destruct (decide (j = 0)) as [->|Hj0].
    + rewrite Z.add_0_r, E. eauto.
    + replace (n + j) with (n + 1 + (j - 1)) by lia. apply Hall. lia.
Qed.

(** [open] returns a descriptor that is not in use. *)
Lemma lowest_free_fresh fds : fds !! lowest_free fds = None /\ 0 <= lowest_free fds.
Proof.
  unfold lowest_free.
  destruct (lowest_free_from_spec fds 0 (S (size fds))) as [Hle [H | Hall]]; [done|].
  exfalso.
  assert (Hsub : (list_to_set (seqZ 0 (Z.of_nat (S (size fds)))) : gset Z) ⊆ dom fds).
  { intros x Hx. apply elem_of_list_to_set, elem_of_seqZ in Hx. apply elem_of_dom.
    replace x with (0 + x) by lia. apply Hall. lia. }
  apply subseteq_size in Hsub.
  rewrite size_list_to_set, length_seqZ, size_dom in Hsub by apply NoDup_seqZ. lia.
Qed.

(** ** Lemmas: the redirection loop *)

Definition is_op (t : string) : bool := (t ==s "<") || (t ==s ">").

Lemma cm_bind_ok {A B} (a : A) c (k : A -> child -> cm B) : cm_bind (CmOk a c) k = k a c.
Proof. done. Qed.

Lemma cm_bind_exit {A B} n c (k : A -> child -> cm B) : cm_bind (CmExit n c) k = CmExit n c.
Proof. done. Qed.

Lemma argv_of_head (l : slots) a r : argv_of l = Some (a :: r) -> l !! 0%nat = Some (Some a).
Proof. destruct l as [|[s|] l]; simpl; try done. destruct (argv_of l); by intros [= -> _]. Qed.

Lemma redirect_at_skip fs i op mode target msg dupmsg found c t :
  c_cmds c !! i = Some t -> (forall tok, t = Some tok -> tok <> op) ->
  redirect_at fs i op mode target msg dupmsg found c = CmOk found c.
Proof.
  intros Hi Hop. unfold redirect_at. rewrite Hi. destruct t as [tok|]; [|done].
  by rewrite streq_neq by (by apply Hop).
Qed.

Lemma redirect_loop_app fs i a b fi fo c :
  redirect_loop fs i (a + b) fi fo c =
  cm_bind (redirect_loop fs i a fi fo c) (fun f c' => redirect_loop fs (i + a) b f.1 f.2 c').
Proof.
  revert i fi fo c. induction a as [|a IH]; intros i fi fo c; simpl.
  - by rewrite Nat.add_0_r.
  - destruct (redirect_at _ i "<" _ _ _ _ fi c) as [fi1 c1| |]; simpl; [|done|done].
    destruct (redirect_at _ i ">" _ _ _ _ fo c1) as [fo1 c2| |]; simpl; [|done|done].
    rewrite IH. by replace (S i + a)%nat with (i + S a)%nat by lia.
Qed.

(** Slots that hold no operator are passed over. *)
Lemma redirect_loop_skip fs i n fi fo c :
  (forall j, (i <= j < i + n)%nat ->
     exists t, c_cmds c !! j = Some t /\ forall tok, t = Some tok -> is_op tok = false) ->
  redirect_loop fs i n fi fo c = CmOk (fi, fo) c.
Proof.
  revert i. induction n as [|n IH]; intros i Hs; [done|]. simpl.
  destruct (Hs i) as [t [Ht Hop]]; [lia|].
  unfold is_op in Hop.
  rewrite (redirect_at_skip _ _ _ _ _ _ _ _ _ t); try done;
    [|intros tok -> Heq; subst tok; specialize (Hop _ eq_refl); rewrite streq_refl, ?orb_true_r in Hop; discriminate].
  simpl. rewrite (redirect_at_skip _ _ _ _ _ _ _ _ _ t); try done;
    [|intros tok -> Heq; subst tok; specialize (Hop _ eq_refl); rewrite streq_refl in Hop; discriminate].
  simpl. apply IH. intros j Hj. apply Hs. lia.
Qed.

(** The descriptors after a successful [open] of [f] and [dup2] onto
    [target]. *)
Definition after_redirect (fds : gmap Z ofile) (target : Z) (v : ofile) : gmap Z ofile :=
  <[target := v]> (<[lowest_free fds := v]> fds).

Lemma after_redirect_keep fds target v j x :
  j <> target -> fds !! j = Some x -> after_redirect fds target v !! j = Some x.
Proof.
  intros Hj Hx. unfold after_redirect. rewrite lookup_insert_ne by done.
  destruct (lowest_free_fresh fds) as [Hf _].
  rewrite lookup_insert_ne; [done|]. intros E. rewrite <- E in Hx. congruence.
Qed.

(** The operator found, its file opened and [dup2]ed. *)
Lemma redirect_at_open fs i op mode target msg dupmsg found c f :
  c_cmds c !! i = Some (Some op) -> c_cmds c !! S i = Some (Some f) ->
  can_open fs f mode = true -> 0 <= target ->
  redirect_at fs i op mode target msg dupmsg found c =
  CmOk true (mkChild (after_redirect (c_fds c) target (OFile f mode))
                     (<[i := None]> (c_cmds c)) (c_out c)).
Proof.
  intros Hi Hf Hopen Ht. unfold redirect_at. rewrite Hi, streq_refl, Hf. simpl.
  rewrite Hopen. destruct (lowest_free_fresh (c_fds c)) as [_ Hpos].
  rewrite decide_False by lia. unfold c_dup2. simpl. rewrite lookup_insert_eq.
  by rewrite decide_False by lia.
Qed.

(** The operator found and its file not opened: the message is printed
    with [printf] on descriptor 1 and the child exits with status 1. *)
Lemma redirect_at_fail fs i op mode target msg dupmsg found c fname :
  c_cmds c !! i = Some (Some op) -> c_cmds c !! S i = Some fname ->
  match fname with Some f => can_open fs f mode | None => false end = false ->
  redirect_at fs i op mode target msg dupmsg found c = CmExit 1 (c_print (msg (c_str fname)) c).
Proof.
  intros Hi Hf Hno. unfold redirect_at. rewrite Hi, streq_refl, Hf.
  destruct fname as [f|]; simpl; [|done]. by rewrite Hno.
Qed.

Lemma is_op_neq (t : string) : is_op t = false -> t <> "<" /\ t <> ">".
Proof. unfold is_op. intros H. apply orb_false_iff in H as [H1 H2]. split; by apply streq_false. Qed.

(** [< f] at slots [i], [i + 1]. *)
Lemma redirect_loop_in fs i f fi fo c :
  c_cmds c !! i = Some (Some "<") -> c_cmds c !! S i = Some (Some f) -> is_op f = false ->
  can_open fs f O_RDONLY = true ->
  redirect_loop fs i 2 fi fo c =
  CmOk (true, fo) (mkChild (after_redirect (c_fds c) 0 (OFile f O_RDONLY))
                           (<[i := None]> (c_cmds c)) (c_out c)).
Proof.
  intros Hi Hf Hop Hopen. apply is_op_neq in Hop as [Hl Hr]. simpl.
  rewrite (redirect_at_open _ _ _ _ _ _ _ _ _ f) by (done || lia). simpl.
  rewrite (redirect_at_skip _ _ _ _ _ _ _ _ _ None);
    [|simpl; apply list_lookup_insert_eq; by eapply lookup_lt_Some|by intros ? ?]. simpl.
  rewrite (redirect_at_skip _ _ _ _ _ _ _ _ _ (Some f));
    [|simpl; by rewrite list_lookup_insert_ne by lia|by intros ? [= <-]]. simpl.
  rewrite (redirect_at_skip _ _ _ _ _ _ _ _ _ (Some f));
    [done|simpl; by rewrite list_lookup_insert_ne by lia|by intros ? [= <-]].
Qed.

(** [> f] at slots [i], [i + 1]. *)
Lemma redirect_loop_out fs i f fi fo c :
  c_cmds c !! i = Some (Some ">") -> c_cmds c !! S i = Some (Some f) -> is_op f = false ->
  can_open fs f O_WRONLY_CREAT_TRUNC = true ->
  redirect_loop fs i 2 fi fo c =
  CmOk (fi, true) (mkChild (after_redirect (c_fds c) 1 (OFile f O_WRONLY_CREAT_TRUNC))
                           (<[i := None]> (c_cmds c)) (c_out c)).
Proof.
  intros Hi Hf Hop Hopen. pose proof (is_op_neq _ Hop) as [Hl Hr]. simpl.
  rewrite (redirect_at_skip _ _ _ _ _ _ _ _ _ (Some ">")) by (done || by intros ? [= <-]).
  simpl. rewrite (redirect_at_open _ _ _ _ _ _ _ _ _ f) by (done || lia). simpl.
  rewrite (redirect_at_skip _ _ _ _ _ _ _ _ _ (Some f));
    [|simpl; by rewrite list_lookup_insert_ne by lia|by intros ? [= <-]]. simpl.
  rewrite (redirect_at_skip _ _ _ _ _ _ _ _ _ (Some f));
    [done|simpl; by rewrite list_lookup_insert_ne by lia|by intros ? [= <-]].
Qed.

(** ** Lemmas: the slots of a tokenized line *)

Lemma slots_of_tok toks j t : toks !! j = Some t -> slots_of toks !! j = Some (Some t).
Proof.
  intros Hj. unfold slots_of. rewrite lookup_app_l by (rewrite length_map; by eapply lookup_lt_Some).
  by rewrite list_lookup_fmap, Hj.
Qed.

Lemma slots_of_pad toks j : (length toks <= j < 512)%nat -> slots_of toks !! j = Some None.
Proof.
  intros Hj. unfold slots_of. rewrite lookup_app_r by (rewrite length_map; lia).
  rewrite length_map. apply lookup_replicate. split; [done|lia].
Qed.

Lemma length_slots_of toks : (length toks <= 512)%nat -> length (slots_of toks) = 512%nat.
Proof. intros H. unfold slots_of. rewrite length_app, length_map, length_replicate. lia. Qed.

(** [printInput] on the slots of a line prints each token on its own
    line: no NULL is printed as [(null)]. *)
Lemma printInput_tokens toks :
  (length toks <= 512)%nat ->
  printInput (slots_of toks) (length toks) =
    Some (("tokenized input is:" ++ nl)%string :: map (fun t => (t ++ nl)%string) toks).
Proof.
  intros H. unfold printInput. rewrite decide_True by (rewrite length_slots_of; lia).
  unfold slots_of. rewrite take_app_length' by (by rewrite length_map).
  by rewrite map_map.
Qed.

(** A trailing [&] is removed: the slots become those of the line
    without it. *)
Lemma checkIfBG_amp toks :
  (length toks < 512)%nat ->
  checkIfBG (slots_of (toks ++ ["&"])) (length (toks ++ ["&"])) = Some (slots_of toks, true).
Proof.
  intros Hlen. rewrite length_app, Nat.add_1_r. simpl.
  rewrite (slots_of_tok _ _ "&") by (by rewrite lookup_app_r, Nat.sub_diag by lia).
  rewrite streq_refl. f_equal. f_equal. unfold slots_of.
  rewrite map_app, length_app, <- app_assoc, insert_app_r_alt by (rewrite length_map; lia).
  rewrite length_map, Nat.sub_diag. simpl. f_equal. rewrite Nat.add_1_r.
  by replace (512 - length toks)%nat with (S (512 - S (length toks))) by lia.
Qed.

Lemma checkIfBG_last toks t :
  last toks = Some t -> t <> "&" -> (length toks <= 512)%nat ->
  checkIfBG (slots_of toks) (length toks) = Some (slots_of toks, false).
Proof.
  intros Hl Ht _. destruct toks as [|a toks'] using rev_ind; [done|].
  rewrite last_snoc in Hl. injection Hl as ->.
  rewrite length_app, Nat.add_1_r. simpl.
  rewrite (slots_of_tok _ _ t) by (by rewrite lookup_app_r, Nat.sub_diag by lia).
  by rewrite streq_neq.
Qed.

(** C24: [checkIfBG] on the slots of a non-empty line: exactly when the
    last token is [&] it reports a background request and NULLs that
    slot, leaving the slots of the line without the marker; otherwise it
    reports [false] and changes nothing. *)
Theorem checkIfBG_spec toks :
  toks <> [] -> (length toks <= 512)%nat ->
  checkIfBG (slots_of toks) (length toks) =
    Some (if bool_decide (last toks = Some "&") then (slots_of (removelast toks), true)
          else (slots_of toks, false)).
Proof.
  intros Hne Hlen. destruct toks as [|t toks'] using rev_ind; [done|]. clear IHtoks'.
  rewrite last_snoc, removelast_last. rewrite length_app in Hlen. simpl in Hlen.
  case_bool_decide as Ht.
  - injection Ht as ->. apply checkIfBG_amp. lia.
  - apply (checkIfBG_last _ t); [apply last_snoc | by intros -> | rewrite length_app; simpl; lia].
Qed.

Lemma checkIfBG_spec_witness :
  ["sleep"; "5"; "&"] <> [] /\ (length ["sleep"; "5"; "&"] <= 512)%nat /\
  checkIfBG (slots_of ["sleep"; "5"; "&"]) (length ["sleep"; "5"; "&"]) =
    Some (if bool_decide (last ["sleep"; "5"; "&"] = Some "&")
          then (slots_of (removelast ["sleep"; "5"; "&"]), true)
          else (slots_of ["sleep"; "5"; "&"], false)).
Proof.
  split; [done|]. split; [simpl; lia|].
  apply (checkIfBG_spec ["sleep"; "5"; "&"]); [done | simpl; lia].
Defined.

(** ** Lemmas: a command line with redirections *)

Definition out_toks (outr : option string) : list string :=
  match outr with Some f => [">"; f] | None => [] end.
(** Where descriptors 0 and 1 of the program end up. *)
Definition in_target (inr : option string) (bg : bool) : ofile :=
  match inr with
  | Some f => OFile f O_RDONLY
  | None => if bg then OFile "/dev/null" O_RDONLY else Terminal
  end.
Definition out_target (outr : option string) (bg : bool) : ofile :=
  match outr with
  | Some f => OFile f O_WRONLY_CREAT_TRUNC
  | None => if bg then OFile "/dev/null" O_WRONLY_CREAT_TRUNC else Terminal
  end.

Lemma after_redirect_eq fds target v : after_redirect fds target v !! target = Some v.
Proof. apply lookup_insert_eq. Qed.

Lemma devnull_at_ok fs mode target openmsg dupmsg c :
  can_open fs "/dev/null" mode = true -> 0 <= target ->
  devnull_at fs mode target openmsg dupmsg c =
  CmOk tt (mkChild (after_redirect (c_fds c) target (OFile "/dev/null" mode)) (c_cmds c) (c_out c)).
Proof.
  intros Hopen Ht. unfold devnull_at, c_open. rewrite Hopen.
  destruct (lowest_free_fresh (c_fds c)) as [_ Hpos].
  rewrite decide_False by lia. unfold c_dup2. simpl. rewrite lookup_insert_eq.
  by rewrite decide_False by lia.
Qed.

Lemma argv_of_lookup args (l : slots) :
  (forall j x, args !! j = Some x -> l !! j = Some (Some x)) -> l !! length args = Some None ->
  argv_of l = Some args.
Proof.
  revert l. induction args as [|a args IH]; intros [|s l] Hargs Hend; try done.
  - by injection Hend as ->.
  - specialize (Hargs 0%nat a eq_refl) as Ha. injection Ha as ->. simpl.
    rewrite (IH l); [done| |done]. intros j x Hj. by apply (Hargs (S j)).
Qed.

Definition out_child (outr : option string) (i : nat) (c : child) : child :=
  match outr with
  | Some f => mkChild (after_redirect (c_fds c) 1 (OFile f O_WRONLY_CREAT_TRUNC))
                      (<[i := None]> (c_cmds c)) (c_out c)
  | None => c
  end.

Lemma redirect_loop_opt_out fs i outr fi fo c :
  (forall f, outr = Some f -> c_cmds c !! i = Some (Some ">") /\ c_cmds c !! S i = Some (Some f) /\
                             is_op f = false /\ can_open fs f O_WRONLY_CREAT_TRUNC = true) ->
  redirect_loop fs i (length (out_toks outr)) fi fo c =
  CmOk (fi, match outr with Some _ => true | None => fo end) (out_child outr i c).
Proof.
  destruct outr as [f|]; [|done]. intros H. destruct (H f) as (?&?&?&?); [done|].
  by apply redirect_loop_out.
Qed.

(** ** Lemmas: a list of redirections

    [(true, f)] is [< f] and [(false, f)] is [> f]; a line is the words
    followed by the redirections in any order, repetitions included. *)

Definition redir_op (r : bool * string) : string := if r.1 then "<" else ">".
Definition redir_mode (r : bool * string) : open_mode := if r.1 then O_RDONLY else O_WRONLY_CREAT_TRUNC.
Definition redir_target (r : bool * string) : Z := if r.1 then 0 else 1.
Definition redir_toks (r : bool * string) : list string := [redir_op r; r.2].
Definition redirs_line (args : list string) (rs : list (bool * string)) : list string :=
  args ++ concat (map redir_toks rs).

(** The file of the last redirection of a direction. *)
Fixpoint last_file (input : bool) (rs : list (bool * string)) : option string :=
  match rs with
  | [] => None
  | r :: rs' =>
      match last_file input rs' with
      | Some f => Some f
      | None => if Bool.eqb r.1 input then Some r.2 else None
      end
  end.

Definition found_dir (input : bool) (rs : list (bool * string)) : bool :=
  match last_file input rs with Some _ => true | None => false end.

(** The file is a plain word and opens. *)
Definition redir_ok (fs : fsys) (r : bool * string) : Prop :=
  is_op r.2 = false /\ can_open fs r.2 (redir_mode r) = true.

Lemma length_redirs rs : length (concat (map redir_toks rs)) = (2 * length rs)%nat.
Proof. induction rs as [|r rs IH]; [done|]. simpl. lia. Qed.

Lemma redirs_lookup rs j r :
  rs !! j = Some r ->
  concat (map redir_toks rs) !! (2 * j)%nat = Some (redir_op r) /\
  concat (map redir_toks rs) !! (2 * j + 1)%nat = Some r.2.
Proof.
  revert j. induction rs as [|r' rs IH]; intros [|j] Hj; simpl in *; try done.
  - by injection Hj as ->.
  - replace (j + S (j + 0))%nat with (S (2 * j)) by lia. simpl.
    replace (j + S (j + 0) + 1)%nat with (S (2 * j + 1)) by lia. simpl. by apply IH.
Qed.

Lemma redirect_loop_one fs i r fi fo c :
  c_cmds c !! i = Some (Some (redir_op r)) -> c_cmds c !! S i = Some (Some r.2) -> redir_ok fs r ->
  redirect_loop fs i 2 fi fo c =
  CmOk (if r.1 then (true, fo) else (fi, true))
       (mkChild (after_redirect (c_fds c) (redir_target r) (OFile r.2 (redir_mode r)))
                (<[i := None]> (c_cmds c)) (c_out c)).
Proof.
  destruct r as [[|] f]; intros ? ? [? ?]; [by apply redirect_loop_in | by apply redirect_loop_out].
Qed.

Lemma slots_of_rest args rest i j x :
  i = (length args + j)%nat -> rest !! j = Some x -> slots_of (args ++ rest) !! i = Some (Some x).
Proof.
  intros -> Hj. apply slots_of_tok. rewrite lookup_app_r by lia. by replace (length args + j - length args)%nat with j by lia.
Qed.

(** Lookups in the slots after the operator slots are NULLed. *)
Ltac slot_tac :=
  cbn [c_cmds c_fds c_out out_child out_toks length] in *;
  rewrite ?Nat.add_0_r;
  repeat (rewrite list_lookup_insert_ne by lia);
  first
    [ first [ apply (slots_of_rest _ _ _ 0); [lia|reflexivity]
            | apply (slots_of_rest _ _ _ 1); [lia|reflexivity]
            | apply (slots_of_rest _ _ _ 2); [lia|reflexivity]
            | apply (slots_of_rest _ _ _ 3); [lia|reflexivity] ]
    | apply slots_of_pad; rewrite ?length_app in *; simpl in *; lia
    | apply list_lookup_insert_eq; rewrite ?length_insert, length_slots_of;
      rewrite ?length_app in *; simpl in *; lia ].

(** ** Theorems *)

(** The loop over a run of redirections at slots [i], [i + 1], ...:
    each opens its file and [dup2]s it, so the last one of each direction
    decides descriptors 0 and 1; descriptor 2 is kept, nothing is printed,
    the slots outside the run are untouched and its first slot is NULLed. *)
Lemma redirect_loop_redirs fs rs i fi fo c a0 a1 a2 :
  Forall (redir_ok fs) rs ->
  (forall j r, rs !! j = Some r ->
     c_cmds c !! (i + 2 * j)%nat = Some (Some (redir_op r)) /\
     c_cmds c !! (i + 2 * j + 1)%nat = Some (Some r.2)) ->
  c_fds c !! 0 = Some a0 -> c_fds c !! 1 = Some a1 -> c_fds c !! 2 = Some a2 ->
  exists c', redirect_loop fs i (2 * length rs) fi fo c =
               CmOk (fi || found_dir true rs, fo || found_dir false rs) c' /\
    c_fds c' !! 0 = Some (default a0 ((fun f => OFile f O_RDONLY) <$> last_file true rs)) /\
    c_fds c' !! 1 = Some (default a1 ((fun f => OFile f O_WRONLY_CREAT_TRUNC) <$> last_file false rs)) /\
    c_fds c' !! 2 = Some a2 /\ c_out c' = c_out c /\
    (forall j, (j < i \/ i + 2 * length rs <= j)%nat -> c_cmds c' !! j = c_cmds c !! j) /\
    (rs <> [] -> c_cmds c' !! i = Some None).
Proof.
  revert i fi fo c a0 a1. induction rs as [|r rs IH]; intros i fi fo c a0 a1 Hok Hslots H0 H1 H2.
  { exists c. simpl. rewrite !orb_false_r. done. }
  apply Forall_cons in Hok as [Hr Hok].
  destruct (Hslots 0%nat r eq_refl) as [Hop Hf]. rewrite Nat.add_0_r in Hop.
  rewrite Nat.add_0_r, Nat.add_1_r in Hf.
  replace (2 * length (r :: rs))%nat with (2 + 2 * length rs)%nat by (simpl; lia).
  rewrite redirect_loop_app, (redirect_loop_one _ _ r) by done.
  set (c1 := mkChild _ _ _).
  assert (Hk : forall j x, j <> redir_target r -> c_fds c !! j = Some x -> c_fds c1 !! j = Some x)
    by (intros; by apply after_redirect_keep).
  destruct (IH (i + 2)%nat (if r.1 then true else fi) (if r.1 then fo else true) c1
              (if r.1 then OFile r.2 O_RDONLY else a0) (if r.1 then a1 else OFile r.2 O_WRONLY_CREAT_TRUNC))
    as (c' & Hl & H0' & H1' & H2' & Ho & Hc & _); try done.
  { intros j r' Hj. destruct (Hslots (S j) r' Hj) as [Ha Hb]. unfold c1; cbn [c_cmds].
    rewrite !list_lookup_insert_ne by lia.
    replace (i + 2 * S j)%nat with (i + 2 + 2 * j)%nat in Ha, Hb by lia. by split. }
  { destruct r as [[|] f]; unfold redir_target in Hk; simpl in *; [apply after_redirect_eq|by apply Hk]. }
  { destruct r as [[|] f]; unfold redir_target in Hk; simpl in *; [by apply Hk|apply after_redirect_eq]. }
  { apply Hk; [by destruct r as [[|] ?]|done]. }
  exists c'. destruct r as [[|] f]; cbn [fst snd] in *; rewrite cm_bind_ok; cbn [fst snd]; rewrite Hl.
  all: unfold found_dir in *; cbn [last_file Bool.eqb fst snd]; split;
    [f_equal; f_equal; destruct (last_file true rs), (last_file false rs), fi, fo; reflexivity|].
  all: split; [rewrite H0'; by destruct (last_file true rs)|].
  all: split; [rewrite H1'; by destruct (last_file false rs)|].
  all: split; [done|]; split; [done|].
  all: split; [intros j Hj; rewrite Hc by lia; simpl; apply list_lookup_insert_ne; lia|].
  all: intros _; rewrite Hc by lia; simpl; apply list_lookup_insert_eq; by eapply lookup_lt_Some.
Qed.

(** [checkReDirect] on a line of words followed by redirections in any
    order (the files plain words that open, no operator among the words):
    the program's descriptor 0 reads the last input file, or /dev/null for
    a background job without [<], or the terminal; descriptor 1 writes the
    last output file, /dev/null or the terminal likewise; descriptor 2
    stays on the terminal; [execvp] receives exactly the words; nothing is
    printed. *)
Lemma checkReDirect_spec fs args rs n wantRunBG canRunBG out :
  Forall (fun a => is_op a = false) args -> Forall (redir_ok fs) rs ->
  (wantRunBG && canRunBG = true ->
   can_open fs "/dev/null" O_RDONLY = true /\ can_open fs "/dev/null" O_WRONLY_CREAT_TRUNC = true) ->
  (length (redirs_line args rs) < 512)%nat -> (length (redirs_line args rs) <= n <= 512)%nat ->
  exists c',
    checkReDirect fs n wantRunBG canRunBG (mkChild tty_fds (slots_of (redirs_line args rs)) out)
      = CmOk tt c' /\
    c_fds c' !! 0 = Some (in_target (last_file true rs) (wantRunBG && canRunBG)) /\
    c_fds c' !! 1 = Some (out_target (last_file false rs) (wantRunBG && canRunBG)) /\
    c_fds c' !! 2 = Some Terminal /\
    argv_of (c_cmds c') = Some args /\ c_out c' = out.
Proof.
  intros Hargs Hok Hnull Hlt Hn. unfold redirs_line in *. rewrite length_app, length_redirs in *.
  set (c0 := mkChild tty_fds (slots_of (args ++ concat (map redir_toks rs))) out).
  assert (Hpre : forall j x, args !! j = Some x -> c_cmds c0 !! j = Some (Some x)).
  { intros j x Hj. apply slots_of_tok. by apply lookup_app_l_Some. }
  unfold checkReDirect.
  replace n with (length args + (2 * length rs + (n - (length args + 2 * length rs))))%nat by lia.
  rewrite redirect_loop_app, redirect_loop_skip; cycle 1.
  { intros j Hj. destruct (lookup_lt_is_Some_2 args j) as [a Ha]; [lia|].
    exists (Some a). split; [by apply Hpre|].
    intros tok [= <-]. exact (Forall_lookup_1 _ _ _ _ Hargs Ha). }
  rewrite cm_bind_ok; cbn [fst snd]. rewrite redirect_loop_app.
  destruct (redirect_loop_redirs fs rs (0 + length args) false false c0 Terminal Terminal Terminal)
    as (c1 & Hl & H0 & H1 & H2 & Ho & Hc & Hfirst); try done.
  { intros j r Hj. destruct (redirs_lookup rs j r Hj) as [Ha Hb].
    unfold c0; cbn [c_cmds].
    split; [apply (slots_of_rest _ _ _ (2 * j)) | apply (slots_of_rest _ _ _ (2 * j + 1))]; done || lia. }
  rewrite Hl, cm_bind_ok; cbn [fst snd orb]. rewrite redirect_loop_skip; cycle 1.
  { intros j Hj. exists None. split; [|done]. rewrite Hc by lia. apply slots_of_pad.
    rewrite length_app, length_redirs. lia. }
  rewrite cm_bind_ok; cbn [fst snd].
  assert (Hargv : argv_of (c_cmds c1) = Some args).
  { apply argv_of_lookup.
    - intros j x Hj. pose proof (lookup_lt_Some _ _ _ Hj). rewrite Hc by lia. by apply Hpre.
    - destruct rs as [|r rs]; [|by apply Hfirst].
      rewrite Hc by (simpl; lia). apply slots_of_pad. simpl. rewrite app_nil_r. lia. }
  unfold found_dir, in_target, out_target in *.
  destruct (wantRunBG && canRunBG) eqn:Hbg.
  - destruct (Hnull eq_refl) as [Hr Hw].
    destruct (last_file true rs), (last_file false rs); cbn [negb fst snd] in *;
      rewrite ?devnull_at_ok by (done || lia); rewrite ?cm_bind_ok; cbn [negb fst snd];
      rewrite ?devnull_at_ok by (done || lia);
      (eexists; split; [reflexivity|]); cbn [c_fds c_cmds c_out];
      repeat split; try done;
      repeat first [ apply after_redirect_eq | apply after_redirect_keep; [lia|] | eassumption ].
  - eexists; split; [reflexivity|].
    destruct (last_file true rs), (last_file false rs); repeat split; done.
Qed.

(** The slot after [<]: the file name, or NULL when the line ends there. *)
Definition fname_toks (fname : option string) : list string :=
  match fname with Some f => [f] | None => [] end.

(** C23: a missing input file ([<] followed by a name that cannot be
    opened, or by nothing at all, which passes NULL to [open]): the child
    prints [cannot open F for input] with [printf] and exits with status
    1, where [F] is the name or [(null)].  The message goes to descriptor
    1 as it is at that point: the terminal, or the output file when a [>]
    came first on the line. *)
Theorem checkReDirect_bad_input fs args outr fname n wantRunBG canRunBG out :
  Forall (fun a => is_op a = false) args ->
  (forall g, outr = Some g -> is_op g = false /\ can_open fs g O_WRONLY_CREAT_TRUNC = true) ->
  match fname with Some f => can_open fs f O_RDONLY | None => false end = false ->
  let line := args ++ out_toks outr ++ "<" :: fname_toks fname in
  (length line < 512)%nat -> (length line <= n <= 512)%nat ->
  exists c',
    checkReDirect fs n wantRunBG canRunBG (mkChild tty_fds (slots_of line) out) = CmExit 1 c' /\
    c_out c' = out ++ [(match outr with Some g => OFile g O_WRONLY_CREAT_TRUNC | None => Terminal end,
                        in_msg (c_str fname))].
Proof.
  intros Hargs Hout Hno line Hlt Hn. subst line.
  unfold checkReDirect.
  replace n with (length args + (length (out_toks outr) + S (n - S (length args + length (out_toks outr)))))%nat
    by (rewrite !length_app in *; simpl in *; lia).
  rewrite redirect_loop_app, redirect_loop_skip; cycle 1.
  { intros j Hj. destruct (lookup_lt_is_Some_2 args j) as [a Ha]; [lia|].
    exists (Some a). split; [cbn [c_cmds]; apply slots_of_tok; by apply lookup_app_l_Some|].
    intros tok [= <-]. exact (Forall_lookup_1 _ _ _ _ Hargs Ha). }
  rewrite cm_bind_ok; cbn [fst snd].
  rewrite redirect_loop_app, redirect_loop_opt_out; cycle 1.
  { intros g ->. destruct (Hout g eq_refl). split; [slot_tac|]. split; [slot_tac|done]. }
  rewrite cm_bind_ok; cbn [fst snd redirect_loop].
  rewrite (redirect_at_fail _ _ _ _ _ _ _ _ _ (match fname with Some f => Some f | None => None end)).
  - rewrite !cm_bind_exit. eexists; split; [reflexivity|]. unfold c_print, c_write.
    destruct outr, fname; cbn [c_out c_fds out_child]; rewrite ?after_redirect_eq; try done.
  - destruct outr; slot_tac.
  - destruct outr, fname; slot_tac.
  - by destruct fname.
Qed.

(** ** Lemmas: descriptors that stay open *)

(** Descriptors 0 to 2 are open. *)
Definition std_open (fds : gmap Z ofile) : Prop := forall d, 0 <= d <= 2 -> is_Some (fds !! d).
(** Every descriptor above 2 of [fds] is still open on the same file in [fds']. *)
Definition high_kept (fds fds' : gmap Z ofile) : Prop :=
  forall d x, 3 <= d -> fds !! d = Some x -> fds' !! d = Some x.
(** Some descriptor above 2 is open on [v]. *)
Definition leaked (fds : gmap Z ofile) (v : ofile) : Prop := exists d, 3 <= d /\ fds !! d = Some v.

Lemma high_kept_refl fds : high_kept fds fds.
Proof. by intros d x _. Qed.

Lemma high_kept_trans fds1 fds2 fds3 :
  high_kept fds1 fds2 -> high_kept fds2 fds3 -> high_kept fds1 fds3.
Proof. intros H12 H23 d x Hd Hx. by apply H23, H12. Qed.

Lemma leaked_kept fds fds' v : high_kept fds fds' -> leaked fds v -> leaked fds' v.
Proof. intros Hk (d & Hd & Hv). exists d. split; [done|]. by apply Hk. Qed.

(** [open] then [dup2] onto 0, 1 or 2: the descriptor [open] returned is
    above 2 and stays open on the file. *)
Lemma after_redirect_leak fds target v :
  std_open fds -> 0 <= target <= 2 ->
  std_open (after_redirect fds target v) /\ high_kept fds (after_redirect fds target v) /\
  leaked (after_redirect fds target v) v.
Proof.
  intros Hstd Ht. destruct (lowest_free_fresh fds) as [Hf Hpos].
  assert (3 <= lowest_free fds) as H3.
  { destruct (decide (lowest_free fds <= 2)) as [Hle|]; [|lia].
    destruct (Hstd (lowest_free fds)) as [? Hs]; [lia|congruence]. }
  unfold after_redirect. split; [|split].
  - intros d Hd. rewrite !lookup_insert_is_Some'. right. right. by apply Hstd.
  - intros d x Hd Hx. rewrite !lookup_insert_ne; [done| |lia]. intros <-. congruence.
  - exists (lowest_free fds). split; [done|]. rewrite lookup_insert_ne by lia.
    apply lookup_insert_eq.
Qed.

(** The loop over a run of redirections leaves the file of every one of
    them open on a descriptor above 2, and closes nothing above 2. *)
Lemma redirect_loop_redirs_leak fs rs i fi fo c fl c' :
  Forall (redir_ok fs) rs ->
  (forall j r, rs !! j = Some r ->
     c_cmds c !! (i + 2 * j)%nat = Some (Some (redir_op r)) /\
     c_cmds c !! (i + 2 * j + 1)%nat = Some (Some r.2)) ->
  std_open (c_fds c) ->
  redirect_loop fs i (2 * length rs) fi fo c = CmOk fl c' ->
  std_open (c_fds c') /\ high_kept (c_fds c) (c_fds c') /\
  Forall (fun r => leaked (c_fds c') (OFile r.2 (redir_mode r))) rs.
Proof.
  revert i fi fo c. induction rs as [|r rs IH]; intros i fi fo c Hok Hslots Hstd.
  { intros [= _ <-]. split; [done|]. split; [apply high_kept_refl|constructor]. }
  apply Forall_cons in Hok as [Hr Hok].
  destruct (Hslots 0%nat r eq_refl) as [Hop Hf]. rewrite Nat.add_0_r in Hop.
  rewrite Nat.add_0_r, Nat.add_1_r in Hf.
  replace (2 * length (r :: rs))%nat with (2 + 2 * length rs)%nat by (simpl; lia).
  rewrite redirect_loop_app, (redirect_loop_one _ _ r) by done. rewrite cm_bind_ok.
  destruct (after_redirect_leak (c_fds c) (redir_target r) (OFile r.2 (redir_mode r)))
    as (Hstd1 & Hk1 & Hl1); [done|unfold redir_target; case_match; lia|].
  intros Hl. edestruct (IH (i + 2)%nat) as (Hstd' & Hk' & Hls); [exact Hok| | |exact Hl|];
    [|exact Hstd1|].
  { intros j r' Hj. destruct (Hslots (S j) r' Hj) as [Ha Hb]. cbn [c_cmds].
    rewrite !list_lookup_insert_ne by lia.
    replace (i + 2 * S j)%nat with (i + 2 + 2 * j)%nat in Ha, Hb by lia. by split. }
  split; [done|]. split; [by eapply high_kept_trans|]. constructor; [|done].
  by eapply leaked_kept.
Qed.

Lemma devnull_at_leak fs mode target openmsg dupmsg c c' :
  std_open (c_fds c) -> 0 <= target <= 2 ->
  devnull_at fs mode target openmsg dupmsg c = CmOk tt c' ->
  std_open (c_fds c') /\ high_kept (c_fds c) (c_fds c') /\ leaked (c_fds c') (OFile "/dev/null" mode).
Proof.
  intros Hstd Ht. destruct (can_open fs "/dev/null" mode) eqn:Ho.
  - rewrite devnull_at_ok by (done || lia). intros [= <-]. by apply after_redirect_leak.
  - unfold devnull_at, c_open. rewrite Ho. by rewrite decide_True.
Qed.

Lemma std_open_tty : std_open tty_fds.
Proof.
  intros d Hd. assert (d = 0 \/ d = 1 \/ d = 2) as [-> | [-> | ->]] by lia; eexists; reflexivity.
Qed.

Lemma leaked_all_kept fds fds' (rs : list (bool * string)) :
  high_kept fds fds' -> Forall (fun r => leaked fds (OFile r.2 (redir_mode r))) rs ->
  Forall (fun r => leaked fds' (OFile r.2 (redir_mode r))) rs.
Proof. intros Hk Hl. eapply Forall_impl; [exact Hl|]. intros r. by apply leaked_kept. Qed.

(** [checkReDirect] on a line of words and redirections closes none of
    the descriptors it opens: the file of every redirection, and
    /dev/null for each unredirected direction of a background job, stays
    open on a descriptor above 2. *)
Lemma checkReDirect_leak fs args rs n wantRunBG canRunBG out c' :
  Forall (fun a => is_op a = false) args -> Forall (redir_ok fs) rs ->
  (length (redirs_line args rs) < 512)%nat -> (length (redirs_line args rs) <= n <= 512)%nat ->
  checkReDirect fs n wantRunBG canRunBG (mkChild tty_fds (slots_of (redirs_line args rs)) out)
    = CmOk tt c' ->
  Forall (fun r => leaked (c_fds c') (OFile r.2 (redir_mode r))) rs /\
  (wantRunBG && canRunBG = true -> last_file true rs = None ->
   leaked (c_fds c') (OFile "/dev/null" O_RDONLY)) /\
  (wantRunBG && canRunBG = true -> last_file false rs = None ->
   leaked (c_fds c') (OFile "/dev/null" O_WRONLY_CREAT_TRUNC)).
Proof.
  intros Hargs Hok Hlt Hn. unfold redirs_line in *. rewrite length_app, length_redirs in *.
  set (c0 := mkChild tty_fds (slots_of (args ++ concat (map redir_toks rs))) out).
  unfold checkReDirect.
  replace n with (length args + (2 * length rs + (n - (length args + 2 * length rs))))%nat by lia.
  rewrite redirect_loop_app, redirect_loop_skip; cycle 1.
  { intros j Hj. destruct (lookup_lt_is_Some_2 args j) as [a Ha]; [lia|].
    exists (Some a). split; [apply slots_of_tok; by apply lookup_app_l_Some|].
    intros tok [= <-]. exact (Forall_lookup_1 _ _ _ _ Hargs Ha). }
  rewrite cm_bind_ok; cbn [fst snd]. rewrite redirect_loop_app.
  assert (Hsl : forall j r, rs !! j = Some r ->
     c_cmds c0 !! (0 + length args + 2 * j)%nat = Some (Some (redir_op r)) /\
     c_cmds c0 !! (0 + length args + 2 * j + 1)%nat = Some (Some r.2)).
  { intros j r Hj. destruct (redirs_lookup rs j r Hj) as [Ha Hb]. unfold c0; cbn [c_cmds].
    split; [apply (slots_of_rest _ _ _ (2 * j)) | apply (slots_of_rest _ _ _ (2 * j + 1))]; done || lia. }
  destruct (redirect_loop_redirs fs rs (0 + length args) false false c0 Terminal Terminal Terminal)
    as (c1 & Hl & _ & _ & _ & _ & Hc & _); try done.
  destruct (redirect_loop_redirs_leak fs rs _ _ _ c0 _ c1 Hok Hsl std_open_tty Hl) as (Hstd1 & _ & Hls1).
  rewrite Hl, cm_bind_ok; cbn [fst snd orb]. rewrite redirect_loop_skip; cycle 1.
  { intros j Hj. exists None. split; [|done]. rewrite Hc by lia. apply slots_of_pad.
    rewrite length_app, length_redirs. lia. }
  rewrite cm_bind_ok; cbn [fst snd]. unfold found_dir.
  destruct (wantRunBG && canRunBG); [|intros [= <-]; split; [done|split; by intros ?]].
  destruct (last_file true rs), (last_file false rs); cbn [negb]; rewrite ?cm_bind_ok.
  - intros [= <-]. split; [done|split; by intros _ ?].
  - intros Hd. destruct (devnull_at_leak fs _ 1 _ _ c1 c' Hstd1 ltac:(lia) Hd) as (_ & Hk & Hv).
    split; [by eapply leaked_all_kept|split; [by intros _ ?|by intros _ _]].
  - destruct (devnull_at fs O_RDONLY 0 _ _ c1) as [[] c2| |] eqn:Hd; try done. cbn [cm_bind].
    intros [= <-]. destruct (devnull_at_leak fs _ 0 _ _ c1 c2 Hstd1 ltac:(lia) Hd) as (_ & Hk & Hv).
    split; [by eapply leaked_all_kept|split; [by intros _ _|by intros _ ?]].
  - destruct (devnull_at fs O_RDONLY 0 _ _ c1) as [[] c2| |] eqn:Hd; try done. cbn [cm_bind].
    intros Hd'. destruct (devnull_at_leak fs _ 0 _ _ c1 c2 Hstd1 ltac:(lia) Hd) as (Hstd2 & Hk & Hv).
    destruct (devnull_at_leak fs _ 1 _ _ c2 c' Hstd2 ltac:(lia) Hd') as (_ & Hk' & Hv').
    split; [by eapply leaked_all_kept, leaked_all_kept|].
    split; intros _ _; [by eapply leaked_kept|done].
Qed.

(** C7: a command line [prog args] followed by [<] / [>] redirections in
    any order (the files plain words that open, the program found, no
    operator among the words) reaches [execvp] with exactly its words, with
    descriptor 0 on the last input file (or /dev/null for an allowed
    background job, else the terminal), descriptor 1 on the last output
    file (or /dev/null, else the terminal), descriptor 2 on the terminal,
    and with SIGINT at its default action exactly in the foreground. *)
Theorem run_child_exec fs prog rest rs n wantRunBG canRunBG :
  let args := prog :: rest in
  Forall (fun a => is_op a = false) args -> Forall (redir_ok fs) rs ->
  (wantRunBG && canRunBG = true ->
   can_open fs "/dev/null" O_RDONLY = true /\ can_open fs "/dev/null" O_WRONLY_CREAT_TRUNC = true) ->
  (length (redirs_line args rs) < 512)%nat -> (length (redirs_line args rs) <= n <= 512)%nat ->
  can_exec fs prog = true ->
  exists fds,
    run_child fs main_dispositions (slots_of (redirs_line args rs)) n wantRunBG canRunBG =
      ChildExec prog args fds
        (exec_dispositions (child_dispositions main_dispositions wantRunBG canRunBG)) /\
    fds !! 0 = Some (in_target (last_file true rs) (wantRunBG && canRunBG)) /\
    fds !! 1 = Some (out_target (last_file false rs) (wantRunBG && canRunBG)) /\
    fds !! 2 = Some Terminal.
Proof.
  intros args Hargs Hok Hnull Hlt Hn Hexec.
  destruct (checkReDirect_spec fs args rs n wantRunBG canRunBG [])
    as (c' & Hc & H0 & H1 & H2 & Hargv & _); try done.
  exists (c_fds c'). unfold run_child. rewrite Hc, Hargv, (argv_of_head _ _ _ Hargv), Hexec.
  done.
Qed.

(** ** Concrete runs *)

(** A filesystem where every file but [missing] opens and [cat], [ls]
    and [sort] are programs. *)
Definition ex_fs : fsys :=
  mkFsys (fun p _ => negb (p ==s "missing")) (fun p => (p ==s "cat") || (p ==s "ls") || (p ==s "sort")).

(** Descriptor [fd] of the program [execvp] starts. *)
Definition exec_fd (e : child_end) (fd : Z) : option ofile :=
  match e with ChildExec _ _ fds _ => fds !! fd | _ => None end.

Lemma run_child_exec_witness :
  exists fds,
    run_child ex_fs main_dispositions
      (slots_of (redirs_line ["sort"; "-r"] [(false, "out"); (true, "in"); (false, "log")])) 9 true true =
      ChildExec "sort" ["sort"; "-r"] fds (exec_dispositions (child_dispositions main_dispositions true true)) /\
    fds !! 0 = Some (in_target (last_file true [(false, "out"); (true, "in"); (false, "log")]) true) /\
    fds !! 1 = Some (out_target (last_file false [(false, "out"); (true, "in"); (false, "log")]) true) /\
    fds !! 2 = Some Terminal.
Proof.
  apply (run_child_exec ex_fs "sort" ["-r"] [(false, "out"); (true, "in"); (false, "log")] 9 true true).
  - decide_by_eval.
  - repeat constructor.
  - split; reflexivity.
  - vm_compute. lia.
  - vm_compute. lia.
  - reflexivity.
Defined.

Lemma checkReDirect_bad_input_witness :
  exists c',
    checkReDirect ex_fs 5 false true
      (mkChild tty_fds (slots_of (["cat"] ++ out_toks (Some "out") ++ "<" :: fname_toks (Some "missing"))) [])
      = CmExit 1 c' /\
    c_out c' = [] ++ [(OFile "out" O_WRONLY_CREAT_TRUNC, in_msg (c_str (Some "missing")))].
Proof.
  apply (checkReDirect_bad_input ex_fs ["cat"] (Some "out") (Some "missing") 5 false true []).
  - decide_by_eval.
  - intros g [= <-]. split; reflexivity.
  - reflexivity.
  - vm_compute. lia.
  - vm_compute. lia.
Defined.

(** C37: the descriptors [checkReDirect] opens are never closed: for a
    command line with redirections in any order (the files plain words
    that open, the program found), the program [execvp] starts still has
    the file of every redirection open on a descriptor above 2, and, in
    an allowed background job, /dev/null for each direction the line does
    not redirect; the spec asks for redirection without descriptors
    leaking into the program. *)
Theorem redirect_fd_leak fs prog rest rs n wantRunBG canRunBG :
  let args := prog :: rest in
  Forall (fun a => is_op a = false) args -> Forall (redir_ok fs) rs ->
  (wantRunBG && canRunBG = true ->
   can_open fs "/dev/null" O_RDONLY = true /\ can_open fs "/dev/null" O_WRONLY_CREAT_TRUNC = true) ->
  (length (redirs_line args rs) < 512)%nat -> (length (redirs_line args rs) <= n <= 512)%nat ->
  can_exec fs prog = true ->
  exists fds,
    run_child fs main_dispositions (slots_of (redirs_line args rs)) n wantRunBG canRunBG =
      ChildExec prog args fds
        (exec_dispositions (child_dispositions main_dispositions wantRunBG canRunBG)) /\
    Forall (fun r => leaked fds (OFile r.2 (redir_mode r))) rs /\
    (wantRunBG && canRunBG = true -> last_file true rs = None ->
     leaked fds (OFile "/dev/null" O_RDONLY)) /\
    (wantRunBG && canRunBG = true -> last_file false rs = None ->
     leaked fds (OFile "/dev/null" O_WRONLY_CREAT_TRUNC)).
Proof.
  intros args Hargs Hok Hnull Hlt Hn Hexec.
  destruct (checkReDirect_spec fs args rs n wantRunBG canRunBG [])
    as (c' & Hc & _ & _ & _ & Hargv & _); try done.
  exists (c_fds c'). split.
  - unfold run_child. by rewrite Hc, Hargv, (argv_of_head _ _ _ Hargv), Hexec.
  - by apply (checkReDirect_leak fs args rs n wantRunBG canRunBG [] c').
Qed.

(** [cat < in &] in a background job: [in] and /dev/null (for writing)
    stay open above descriptor 2. *)
Lemma redirect_fd_leak_witness :
  exists fds,
    run_child ex_fs main_dispositions (slots_of (redirs_line ["cat"] [(true, "in")])) 3 true true =
      ChildExec "cat" ["cat"] fds (exec_dispositions (child_dispositions main_dispositions true true)) /\
    Forall (fun r => leaked fds (OFile r.2 (redir_mode r))) [(true, "in")] /\
    (true && true = true -> last_file true [(true, "in")] = None ->
     leaked fds (OFile "/dev/null" O_RDONLY)) /\
    (true && true = true -> last_file false [(true, "in")] = None ->
     leaked fds (OFile "/dev/null" O_WRONLY_CREAT_TRUNC)).
Proof.
  apply (redirect_fd_leak ex_fs "cat" [] [(true, "in")] 3 true true);
    [repeat constructor | repeat constructor | intros _; split; reflexivity
    | vm_compute; lia | vm_compute; lia | reflexivity].
Defined.

End Command.
