(* ===== verification/Launcher.v ===== *)
(** * The process launcher: [forkAndExec] and the foreground wait

    [forkAndExec] (smallsh.c, lines 461-529) forks; on failure the shell
    itself prints a diagnostic with [perror] and exits with status 1.  The
    child runs [run_child] of file [Command].  The parent either prints
    [background pid is N] and registers the job with [addPid] (a background
    command while background launches are allowed), or blocks in
    [waitpid(spawnPid, childExitMethod, 0)] and prints [terminated by
    signal N] when the status word says the child was killed.

    The shell's state is the record [shell]: the flag [canRunBG], the
    status word [childExitMethod], the job registry, the process table,
    what the shell wrote on its standard output and error, and, as ghost
    state, what each forked child does ([child_end] of file [Command]).

    The foreground wait blocks; it ends in one of two ways the environment
    decides: the child terminates ([fg_wait]), or a SIGTSTP arrives first.
    The handler [toggleBG] runs and, since [sa_flags] is 0 (no
    [SA_RESTART]), [waitpid] returns [-1] with EINTR ([fg_interrupted]). *)

From S2P Require Import Prelude.
From S2P Require Import WaitStatus.
From S2P Require Import Backend.
From S2P Require Import Kernel.
From S2P Require Import Jobs.
From S2P Require Import Signals.
From S2P Require Import Command.
Local Open Scope Z_scope.
Local Open Scope sh_scope.

Module Launcher.
Import WaitStatus Kernel Jobs Signals Command.

Record shell := mkShell {
  canRunBG : bool;
  childExitMethod : Z;
  sh_reg : registry;
  sh_kern : kernel;
  sh_out : list string;              (** the shell's standard output *)
  sh_err : list string;              (** the shell's [perror] diagnostics *)
  sh_children : gmap Z child_end     (** ghost: what each forked child does *)
}.

(** ** Updates of the shell state *)

Definition sh_print (m : list string) (s : shell) : shell :=
  mkShell (canRunBG s) (childExitMethod s) (sh_reg s) (sh_kern s) (sh_out s ++ m) (sh_err s)
          (sh_children s).
Definition sh_set_status (st : Z) (s : shell) : shell :=
  mkShell (canRunBG s) st (sh_reg s) (sh_kern s) (sh_out s) (sh_err s) (sh_children s).
Definition sh_set_kern (k : kernel) (s : shell) : shell :=
  mkShell (canRunBG s) (childExitMethod s) (sh_reg s) k (sh_out s) (sh_err s) (sh_children s).
Definition sh_set_reg (r : registry) (s : shell) : shell :=
  mkShell (canRunBG s) (childExitMethod s) r (sh_kern s) (sh_out s) (sh_err s) (sh_children s).
Definition sh_set_bg (b : bool) (s : shell) : shell :=
  mkShell b (childExitMethod s) (sh_reg s) (sh_kern s) (sh_out s) (sh_err s) (sh_children s).

(** ** [forkAndExec] *)

Inductive launch :=
  | LaunchExit (code : Z) (s : shell)    (** the shell exits: fork failed *)
  | LaunchUB (s : shell)                 (** [addPid] writes past [pidArray] *)
  | LaunchBG (s : shell)                 (** background job registered *)
  | LaunchFG (pid : Z) (s : shell).      (** the shell waits for [pid] *)

Definition bg_pid_msg (pid : Z) : string :=
  ("background pid is " ++ string_of_Z pid ++ nl)%string.

Definition forkAndExec (fs : fsys) (userCmds : slots) (cmdCount : nat) (wantRunBG : bool)
    (s : shell) : launch :=
  match fork (sh_kern s) with
  | None =>
      LaunchExit 1 (mkShell (canRunBG s) (childExitMethod s) (sh_reg s) (sh_kern s) (sh_out s)
                            (sh_err s ++ ["Hull Breach! error forking..."]) (sh_children s))
  | Some (spawnPid, k') =>
      let ce := run_child fs main_dispositions userCmds cmdCount wantRunBG (canRunBG s) in
      let s1 := mkShell (canRunBG s) (childExitMethod s) (sh_reg s) k' (sh_out s) (sh_err s)
                        (<[spawnPid := ce]> (sh_children s)) in
      if wantRunBG && canRunBG s then
        let s2 := sh_print [bg_pid_msg spawnPid] s1 in
        match addPid (sh_reg s2) spawnPid with
        | Some r => LaunchBG (sh_set_reg r s2)
        | None => LaunchUB s2
        end
      else LaunchFG spawnPid s1
  end.

(** ** The foreground wait *)

(** After [waitpid] returns: [written] is what it stored in
    [*childExitMethod] ([None] when it failed), then the [WIFSIGNALED]
    report. *)
Definition fg_finish (written : option Z) (k : kernel) (s : shell) : shell :=
  let cem := default (childExitMethod s) written in
  let s1 := sh_set_status cem (sh_set_kern k s) in
  if WIFSIGNALED cem then sh_print [terminated_msg (WTERMSIG cem)] s1 else s1.

(** [waitpid(spawnPid, childExitMethod, 0)] returns on its own; [None]
    while the child is running (the call blocks). *)
Definition fg_wait (pid : Z) (s : shell) : option shell :=
  match waitpid_block pid (sh_kern s) with
  | Some (_, written, k') => Some (fg_finish written k' s)
  | None => None
  end.

(** A SIGTSTP during the wait: [toggleBG] runs, then [waitpid] fails with
    EINTR, storing nothing. *)
Definition fg_interrupted (s : shell) : option shell :=
  let '(b, msg) := toggleBG (canRunBG s) in
  match msg with
  | Some m => Some (fg_finish None (sh_kern s) (sh_print [m] (sh_set_bg b s)))
  | None => None
  end.

(** ** Lemmas *)

(** What the shell prints after a foreground wait: the signal report of
    [decode] and nothing for an exit. *)
Definition fg_report (st : Z) : list string :=
  match decode st with Signaled n => [terminated_msg n] | _ => [] end.

Lemma fg_report_signaled st : (if WIFSIGNALED st then [terminated_msg (WTERMSIG st)] else []) = fg_report st.
Proof.
  unfold fg_report, decode. destruct (WIFEXITED st) eqn:He; [|by destruct (WIFSIGNALED st)].
  by rewrite exited_not_signaled.
Qed.

Lemma fg_finish_fields written k s :
  let s' := fg_finish written k s in
  canRunBG s' = canRunBG s /\ childExitMethod s' = default (childExitMethod s) written /\
  sh_reg s' = sh_reg s /\ sh_kern s' = k /\ sh_err s' = sh_err s /\
  sh_children s' = sh_children s /\
  sh_out s' = sh_out s ++ fg_report (default (childExitMethod s) written).
Proof.
  unfold fg_finish. rewrite <- fg_report_signaled.
  destruct (WIFSIGNALED _); simpl; repeat split; by rewrite ?app_nil_r.
Qed.

(** ** Theorems *)

(** C8: a background command while background launches are allowed,
    with a free process slot and a free registry slot: the shell prints
    [background pid is N] for the new pid [N], appends [N] to the jobs
    and does not wait; the status word is unchanged and [N] is a running
    child that runs [run_child]. *)
Theorem forkAndExec_background fs cmds n s :
  reg_wf (sh_reg s) -> (pidCount (sh_reg s) < MAXJOBS)%nat ->
  (size (procs (sh_kern s)) < max_procs (sh_kern s))%nat -> canRunBG s = true ->
  let pid := next_pid (sh_kern s) in
  exists s', forkAndExec fs cmds n true s = LaunchBG s' /\
    sh_out s' = sh_out s ++ [bg_pid_msg pid] /\
    jobs (sh_reg s') = jobs (sh_reg s) ++ [pid] /\ reg_wf (sh_reg s') /\
    childExitMethod s' = childExitMethod s /\ canRunBG s' = true /\
    procs (sh_kern s') !! pid = Some Running /\
    sh_children s' !! pid = Some (run_child fs main_dispositions cmds n true true).
Proof.
  intros Hwf Hcnt Hfree Hbg pid. unfold forkAndExec, fork.
  rewrite decide_False by lia. rewrite Hbg. simpl.
  destruct (addPid (sh_reg s) (next_pid (sh_kern s))) as [r|] eqn:Ha.
  - destruct (addPid_jobs _ _ _ Hwf Ha) as [Hj Hw].
    eexists; split; [reflexivity|]. simpl. rewrite !lookup_insert_eq. done.
  - exfalso. unfold addPid in Ha. by rewrite decide_True in Ha.
Qed.

(** C9: a foreground command (no [&], or [&] while background launches
    are disabled) with a free process slot: the shell waits for the new
    pid; the registry, the status word and the output are untouched. *)
Theorem forkAndExec_foreground fs cmds n wantRunBG s :
  wantRunBG && canRunBG s = false ->
  (size (procs (sh_kern s)) < max_procs (sh_kern s))%nat ->
  let pid := next_pid (sh_kern s) in
  exists s', forkAndExec fs cmds n wantRunBG s = LaunchFG pid s' /\
    sh_reg s' = sh_reg s /\ sh_out s' = sh_out s /\ childExitMethod s' = childExitMethod s /\
    canRunBG s' = canRunBG s /\ procs (sh_kern s') !! pid = Some Running /\
    sh_children s' !! pid = Some (run_child fs main_dispositions cmds n wantRunBG (canRunBG s)).
Proof.
  intros Hfg Hfree pid. unfold forkAndExec, fork.
  rewrite decide_False by lia. simpl. rewrite Hfg.
  eexists; split; [reflexivity|]. simpl. by rewrite !lookup_insert_eq.
Qed.

(** C36: when [fork] fails (the process table is full) the shell itself
    exits with status 1 after its diagnostic. *)
Theorem forkAndExec_fork_fails fs cmds n wantRunBG s :
  (max_procs (sh_kern s) <= size (procs (sh_kern s)))%nat ->
  exists s', forkAndExec fs cmds n wantRunBG s = LaunchExit 1 s' /\
    sh_err s' = sh_err s ++ ["Hull Breach! error forking..."].
Proof.
  intros Hfull. unfold forkAndExec, fork. rewrite decide_True by done.
  eexists; split; reflexivity.
Qed.

(** C10: the foreground wait returns once the child has terminated with
    status [st]: [childExitMethod] becomes [st], the child is reaped and
    no other process is (no other child's completion is consumed), and
    the shell prints [terminated by signal N] exactly when [st] is a death
    by signal [N]. *)
Theorem fg_wait_done pid st s :
  procs (sh_kern s) !! pid = Some (Zombie st) ->
  exists s', fg_wait pid s = Some s' /\ childExitMethod s' = st /\
    procs (sh_kern s') !! pid = None /\
    (forall q, q <> pid -> procs (sh_kern s') !! q = procs (sh_kern s) !! q) /\
    sh_reg s' = sh_reg s /\ sh_out s' = sh_out s ++ fg_report st.
Proof.
  intros Hz. unfold fg_wait, waitpid_block. rewrite Hz.
  destruct (fg_finish_fields (Some st) (reap pid (sh_kern s)) s) as (_ & Hst & Hr & Hk & _ & _ & Ho).
  eexists; split; [reflexivity|]. rewrite Hst, Hr, Hk, Ho. simpl.
  split; [done|]. split; [by rewrite lookup_delete_eq|]. split; [|done].
  intros q Hq. by rewrite lookup_delete_ne.
Qed.

(** C29: a SIGTSTP during the foreground wait: the mode flips and its
    notice is printed, [waitpid] fails with EINTR and stores nothing, so
    the shell returns to its prompt with the child neither waited for nor
    registered (it stays in the process table), the status word keeps the
    previous command's value, and a previous death by signal is reported
    again. *)
Theorem fg_interrupted_stale s :
  exists s', fg_interrupted s = Some s' /\
    canRunBG s' = negb (canRunBG s) /\ childExitMethod s' = childExitMethod s /\
    sh_kern s' = sh_kern s /\ sh_reg s' = sh_reg s /\
    sh_out s' = sh_out s ++ [if canRunBG s then enter_fg_msg else exit_fg_msg] ++
                fg_report (childExitMethod s).
Proof.
  unfold fg_interrupted. destruct (canRunBG s) eqn:Hb; unfold toggleBG.
  - change (write_bytes enter_fg_msg 50) with (Some enter_fg_msg).
    destruct (fg_finish_fields None (sh_kern s) (sh_print [enter_fg_msg] (sh_set_bg false s)))
      as (Hc & Hst & Hr & Hk & _ & _ & Ho).
    eexists; split; [reflexivity|]. rewrite Hc, Hst, Hr, Hk, Ho. simpl. by rewrite <- app_assoc.
  - change (write_bytes exit_fg_msg 30) with (Some exit_fg_msg).
    destruct (fg_finish_fields None (sh_kern s) (sh_print [exit_fg_msg] (sh_set_bg true s)))
      as (Hc & Hst & Hr & Hk & _ & _ & Ho).
    eexists; split; [reflexivity|]. rewrite Hc, Hst, Hr, Hk, Ho. simpl. by rewrite <- app_assoc.
Qed.

(** ** Concrete runs *)

(** A fresh shell: background launches allowed, the status word at its
    initial [-5], no job, no child, pids from 100, room for 64 processes. *)
Definition sh0 : shell :=
  mkShell true (-5) (mkRegistry (replicate 50 0) 0) (mkKernel ∅ 100 64) [] [] ∅.

Definition ex_cmds : slots := slots_of ["sleep"; "5"].

Lemma forkAndExec_background_witness :
  exists s', forkAndExec ex_fs ex_cmds 3 true sh0 = LaunchBG s' /\
    sh_out s' = sh_out sh0 ++ [bg_pid_msg 100] /\
    jobs (sh_reg s') = jobs (sh_reg sh0) ++ [100] /\ reg_wf (sh_reg s') /\
    childExitMethod s' = childExitMethod sh0 /\ canRunBG s' = true /\
    procs (sh_kern s') !! 100 = Some Running /\
    sh_children s' !! 100 = Some (run_child ex_fs main_dispositions ex_cmds 3 true true).
Proof.
  apply (forkAndExec_background ex_fs ex_cmds 3 sh0).
  - split; [reflexivity | cbv; lia].
  - vm_compute. lia.
  - vm_compute. lia.
  - reflexivity.
Defined.

Lemma forkAndExec_foreground_witness :
  exists s', forkAndExec ex_fs ex_cmds 2 false sh0 = LaunchFG 100 s' /\
    sh_reg s' = sh_reg sh0 /\ sh_out s' = sh_out sh0 /\ childExitMethod s' = childExitMethod sh0 /\
    canRunBG s' = canRunBG sh0 /\ procs (sh_kern s') !! 100 = Some Running /\
    sh_children s' !! 100 = Some (run_child ex_fs main_dispositions ex_cmds 2 false (canRunBG sh0)).
Proof.
  apply (forkAndExec_foreground ex_fs ex_cmds 2 false sh0).
  - reflexivity.
  - vm_compute. lia.
Defined.

(** A shell whose process table is full. *)
Definition sh_full : shell :=
  mkShell true (-5) (mkRegistry (replicate 50 0) 0) (mkKernel {[7 := Running]} 100 1) [] [] ∅.

Lemma forkAndExec_fork_fails_witness :
  exists s', forkAndExec ex_fs ex_cmds 2 false sh_full = LaunchExit 1 s' /\
    sh_err s' = sh_err sh_full ++ ["Hull Breach! error forking..."].
Proof.
  apply (forkAndExec_fork_fails ex_fs ex_cmds 2 false sh_full). vm_compute. lia.
Defined.

(** [sh0] after the foreground [sleep 5] was killed by SIGINT. *)
Definition sh_killed : shell :=
  mkShell true (-5) (mkRegistry (replicate 50 0) 0)
          (mkKernel {[100 := Zombie (status_of_signal 2 false)]} 101 64) [] [] ∅.

Lemma fg_wait_done_witness :
  exists s', fg_wait 100 sh_killed = Some s' /\ childExitMethod s' = status_of_signal 2 false /\
    procs (sh_kern s') !! 100 = None /\
    (forall q, q <> 100 -> procs (sh_kern s') !! q = procs (sh_kern sh_killed) !! q) /\
    sh_reg s' = sh_reg sh_killed /\
    sh_out s' = sh_out sh_killed ++ fg_report (status_of_signal 2 false).
Proof. apply (fg_wait_done 100 (status_of_signal 2 false) sh_killed). reflexivity. Defined.

(** The stale report: after a foreground command killed by SIGINT, a
    SIGTSTP during the wait for the next one prints the mode notice and
    [terminated by signal 2] again. *)
Example fg_interrupted_example :
  option_map sh_out (fg_interrupted (sh_set_status (status_of_signal 2 false) sh0)) =
  Some [enter_fg_msg; terminated_msg 2].
Proof. vm_compute. reflexivity. Qed.

End Launcher.
