(* ===== verification/Shell.v ===== *)
(** * The shell loop: [shellLoop], [changeDirectory] and [main]

    [shellLoop] (smallsh.c, lines 600-722) prints the prompt, reads a line
    with [getline] (a failed read, [-1], is cleared and retried: a signal
    or end of file), chops the last character, and dispatches: [exit]
    leaves the loop, an empty line or a line starting with [#] only reaps,
    anything else is tokenized, [$$]-expanded and run as [cd]
    ([changeDirectory], lines 164-189), [status] ([checkStatus]) or an
    external command ([checkIfBG], [forkAndExec]), after which the
    finished background jobs are reaped ([reapChildren]).  After the loop,
    [killBG] and [reapBG]; [main] (lines 733-764) then prints a newline and
    exits with 0.

    The loop is a state machine.  Its state [sstate] is the shell of file
    [Launcher] with a phase (at the prompt, waiting for a foreground
    child, exited, undefined behaviour, or stuck in a loop that never
    ends, or blocked at exit in a wait on a stopped job) and the working
    directory, which [changeDirectory] moves and from which every child
    sees the filesystem ([e_chdir] and [e_fs] of the environment record
    take it).  The environment drives it with
    events ([event]): a line is read (its bytes go through the chop of
    file [Input]), a read fails, SIGTSTP arrives (sent to the shell
    alone, or by the terminal's suspend key to the shell and every
    exec'd child, which share its process group), a child terminates,
    the foreground [waitpid] returns.  [shell_step]
    gives the successor for each event ([None] when the event cannot
    happen in that state); [reachable] is its reflexive-transitive
    closure from [init].  The second module, [ShellProps], proves
    properties of runs of the loop that compose the components. *)

From S2P Require Import Prelude.
From S2P Require Import WaitStatus.
From S2P Require Import Backend.
From S2P Require Import Kernel.
From S2P Require Import Jobs.
From S2P Require Import Signals.
From S2P Require Import Tokenize.
From S2P Require Import Expand.
From S2P Require Import Command.
From S2P Require Import Launcher.
From S2P Require Import Input.
Local Open Scope Z_scope.
Local Open Scope sh_scope.

Module Shell.
Import WaitStatus Kernel Jobs Signals Tokenize Input Expand Command Launcher.

(** What the shell's environment fixes once for the run. *)
Record env := mkEnv {
  e_fs : string -> fsys;            (** the children's [open] and [execvp], seen from a working directory *)
  e_home : option string;           (** [getenv("HOME")] *)
  e_chdir : string -> string -> option string;
                                    (** [chdir(p)] from a working directory: the new one, or failure *)
  e_pid : Z                         (** [getpid()] of the shell *)
}.

Inductive phase :=
  | Prompt                (** the prompt is printed, [getline] blocks *)
  | Waiting (pid : Z)     (** [waitpid(pid, _, 0)] blocks *)
  | Done (code : Z)       (** the process has exited *)
  | Crashed               (** undefined behaviour *)
  | ExitBlocked           (** [reapBG]'s [waitpid] blocks on a stopped job *)
  | Hung.                 (** a loop that never ends *)

Record sstate := mkS { st_sh : shell; st_phase : phase; st_cwd : string }.

Inductive event :=
  | EvLine (raw : string)          (** [getline] returns [raw], newline included *)
  | EvReadFail                     (** [getline] returns [-1] *)
  | EvTSTP                         (** SIGTSTP is sent to the shell alone ([kill]) *)
  | EvSuspend                      (** the terminal's suspend key: SIGTSTP to the
                                       shell and every child, all in the shell's
                                       process group *)
  | EvChildExit (pid st : Z)       (** child [pid] terminates with status [st] *)
  | EvWaitReturns.                 (** the foreground [waitpid] returns *)

#[export] Instance event_eq_dec : EqDecision event.
Proof. solve_decision. Defined.

Definition prompt : string := ": ".

(** ** One pass of [reapChildren] from the shell

    [reapChildren] runs its loop with fuel [2 * pidCount + 1], which the
    theorems of file [Jobs] show is enough when every job is a live child;
    running out of fuel is the loop that never ends. *)
Definition shell_reap (s : shell) (cwd : string) : sstate :=
  match reapChildren (S (2 * pidCount (sh_reg s)))
                     (mkReap (sh_reg s) (sh_kern s) (childExitMethod s) []) with
  | Some rs =>
      mkS (mkShell (canRunBG s) (rs_status rs) (rs_reg rs) (rs_kern rs)
                   (sh_out s ++ rs_out rs ++ [prompt]) (sh_err s) (sh_children s))
          Prompt cwd
  | None => mkS s Hung cwd
  end.

(** ** [changeDirectory] *)

Definition cd_home_error : string := ("error changing to HOME dir" ++ nl)%string.
Definition cd_error (p : string) : string := ("error changing to " ++ p ++ nl)%string.

(** The new working directory, or the message printed before [exit(1)];
    [chdir(NULL)] (HOME unset) fails. *)
Definition changeDirectory (e : env) (cwd : string) (userCmds : slots) : string + string :=
  match userCmds !! 1%nat with
  | Some (Some p) =>
      match e_chdir e cwd p with Some d => inl d | None => inr (cd_error p) end
  | _ =>
      match e_home e with
      | Some h => match e_chdir e cwd h with Some d => inl d | None => inr cd_home_error end
      | None => inr cd_home_error
      end
  end.

(** ** Shutdown: [killBG], [reapBG], then [main]'s newline and [exit(0)] *)

(** [main] once [shellLoop] has returned: [printf("\n")], [exit(0)]. *)
Definition main_exit (s : shell) (cwd : string) : sstate := mkS (sh_print [nl] s) (Done 0) cwd.

(** The end of [shellLoop]: [killBG], then [reapBG] with the status
    word, then back in [main]. *)
Definition shutdown (s : shell) (cwd : string) : sstate :=
  let k1 := killBG (sh_reg s) (sh_kern s) in
  match reapBG (sh_reg s) k1 (childExitMethod s) with
  | Some (k2, st) => main_exit (sh_set_status st (sh_set_kern k2 s)) cwd
  | None => mkS s ExitBlocked cwd
  end.

(** ** A line *)

Definition is_comment (line : string) : bool :=
  match line with String c _ => Ascii.eqb c "#"%char | EmptyString => false end.

(** The [else] branch of the dispatch: tokenize, expand, then [cd],
    [status] or an external command. *)
Definition run_tokens (e : env) (s : shell) (cwd : string) (line : string) : sstate :=
  match tokenizeInput line with
  | None => mkS s Crashed cwd
  | Some toks =>
      match expandPID (e_pid e) toks with
      | None => mkS s Crashed cwd
      | Some toks' =>
          let userCmds := slots_of toks' in
          let cmdCount := length toks' in
          match userCmds !! 0%nat with
          | Some (Some cmd0) =>
              if cmd0 ==s "cd" then
                match changeDirectory e cwd userCmds with
                | inl dir => shell_reap s dir
                | inr msg => mkS (sh_print [msg] s) (Done 1) cwd
                end
              else if cmd0 ==s "status" then
                shell_reap (sh_print (checkStatus (childExitMethod s)) s) cwd
              else
                match checkIfBG userCmds cmdCount with
                | None => mkS s Crashed cwd
                | Some (userCmds', wantRunBG) =>
                    match forkAndExec (e_fs e cwd) userCmds' cmdCount wantRunBG s with
                    | LaunchExit code s' => mkS s' (Done code) cwd
                    | LaunchUB s' => mkS s' Crashed cwd
                    | LaunchBG s' => shell_reap s' cwd
                    | LaunchFG pid s' => mkS s' (Waiting pid) cwd
                    end
                end
          | _ => mkS s Crashed cwd      (** [strcmp(NULL, "cd")] *)
          end
      end
  end.

Definition process_line (e : env) (s : shell) (cwd : string) (line : string) : sstate :=
  if line ==s "exit" then shutdown s cwd
  else if line ==s "" then shell_reap s cwd
  else if is_comment line then shell_reap s cwd
  else run_tokens e s cwd line.

(** ** SIGTSTP *)

(** [toggleBG] runs while [getline] blocks.  Without [SA_RESTART] in
    [SIGTSTP_action], [getline] then fails with EINTR and the loop prints
    the prompt again; with it the read would go on. *)
Definition tstp_at_prompt (s : shell) (cwd : string) : sstate :=
  let '(b, msg) := toggleBG (canRunBG s) in
  match msg with
  | Some m =>
      if sa_restart SIGTSTP_action then mkS (sh_print [m] (sh_set_bg b s)) Prompt cwd
      else mkS (sh_print [m; prompt] (sh_set_bg b s)) Prompt cwd
  | None => mkS s Crashed cwd
  end.

(** [toggleBG] runs during the foreground [waitpid(pid, ...)].  Without
    [SA_RESTART] the wait fails with EINTR and the loop goes on to its
    reap pass; with it the wait would go on. *)
Definition tstp_in_wait (pid : Z) (s : shell) (cwd : string) : sstate :=
  if sa_restart SIGTSTP_action then
    let '(b, msg) := toggleBG (canRunBG s) in
    match msg with
    | Some m => mkS (sh_print [m] (sh_set_bg b s)) (Waiting pid) cwd
    | None => mkS s Crashed cwd
    end
  else
    match fg_interrupted s with
    | Some s' => shell_reap s' cwd
    | None => mkS s Crashed cwd
    end.

(** Which children SIGTSTP stops: those that reached [execvp] with its
    default action (the others still run the inherited [toggleBG] until
    they exit). *)
Definition tstp_stops (children : gmap Z child_end) (p : Z) : bool :=
  match children !! p with
  | Some (ChildExec _ _ _ d) => bool_decide (d_sigtstp d = SIG_DFL)
  | _ => false
  end.

(** The terminal's SIGTSTP reaches the children too: no code of smallsh
    gives them a process group of their own. *)
Definition suspend_children (s : shell) : shell :=
  sh_set_kern (stop_group (tstp_stops (sh_children s)) (sh_kern s)) s.

(** ** The environment's events *)

(** What a child may terminate with: a child that exits by itself
    before [execvp] leaves that exit status; a program may end in any
    way. *)
Definition status_allowed (ce : option child_end) (st : Z) : bool :=
  match ce with
  | Some (ChildExit code _) => st =? status_of_exit code
  | _ => true
  end.

Definition shell_step (e : env) (ev : event) (x : sstate) : option sstate :=
  let s := st_sh x in
  match ev, st_phase x with
  | EvLine raw, Prompt =>
      if decide (raw = EmptyString) then None
      else match chop_line raw with
           | Some line => Some (process_line e s (st_cwd x) line)
           | None => Some (mkS s Crashed (st_cwd x))
           end
  | EvReadFail, Prompt => Some (mkS (sh_print [prompt] s) Prompt (st_cwd x))
  | EvTSTP, Prompt => Some (tstp_at_prompt s (st_cwd x))
  | EvSuspend, Prompt => Some (tstp_at_prompt (suspend_children s) (st_cwd x))
  | EvTSTP, Waiting pid => Some (tstp_in_wait pid s (st_cwd x))
  | EvSuspend, Waiting pid => Some (tstp_in_wait pid (suspend_children s) (st_cwd x))
  | EvWaitReturns, Waiting pid =>
      match fg_wait pid s with
      | Some s' => Some (shell_reap s' (st_cwd x))
      | None => None
      end
  | EvChildExit p st, (Prompt | Waiting _) =>
      if status_allowed (sh_children s !! p) st then
        match child_terminates p st (sh_kern s) with
        | Some k' => Some (mkS (sh_set_kern k' s) (st_phase x) (st_cwd x))
        | None => None
        end
      else None
  | _, _ => None
  end.

Inductive reachable (e : env) (x0 : sstate) : sstate -> Prop :=
  | reach_init : reachable e x0 x0
  | reach_step x ev x' : reachable e x0 x -> shell_step e ev x = Some x' -> reachable e x0 x'.

(** The state in which [main] calls [shellLoop]: [canRunBG] true, the
    status word [-5], an empty registry, no child, the prompt printed. *)
Definition init (k : kernel) (cwd : string) : sstate :=
  mkS (mkShell true (-5) (mkRegistry (replicate 50 0) 0) k [prompt] [] ∅) Prompt cwd.

(** Running a list of events; [None] when one cannot happen. *)
Fixpoint run (e : env) (evs : list event) (x : sstate) : option sstate :=
  match evs with
  | [] => Some x
  | ev :: evs' => shell_step e ev x ≫= run e evs'
  end.

(** ** The registry invariant *)

(** The registry is well formed, its jobs are distinct live children of
    the shell, and the process table is well formed. *)
Definition inv_core (s : shell) : Prop :=
  reg_wf (sh_reg s) /\ NoDup (jobs (sh_reg s)) /\
  Forall (fun p => k_live (sh_kern s) p = true) (jobs (sh_reg s)) /\ kernel_wf (sh_kern s).

(** In a waiting state the waited-for child is not a job; no reachable
    state is [Hung]. *)
Definition shell_inv (x : sstate) : Prop :=
  match st_phase x with
  | Prompt => inv_core (st_sh x)
  | Waiting pid => inv_core (st_sh x) /\ pid ∉ jobs (sh_reg (st_sh x))
  | Done _ | Crashed | ExitBlocked => True
  | Hung => False
  end.

Lemma reap_list_next_pid l k st kept k' st' o :
  reap_list l k st = (kept, k', st', o) -> next_pid k' = next_pid k.
Proof.
  revert k st kept k' st' o. induction l as [|p l IH]; intros k st kept k' st' o Hr; simpl in Hr.
  - by injection Hr as _ <- _ _.
  - cbn [wait_nohang kernel_backend] in Hr. unfold waitpid_nohang in Hr.
    destruct (procs k !! p) as [[| |st0]|]; simpl in Hr;
      match type of Hr with
      | context [reap_list l ?k1 ?st1] =>
          destruct (reap_list l k1 st1) as [[[kept1 k2] st2] o1] eqn:E
      end;
      apply IH in E; try case_decide; injection Hr as _ <- _ _; done.
Qed.

Lemma jobs_positive s p : inv_core s -> p ∈ jobs (sh_reg s) -> 0 < p.
Proof.
  intros (_ & _ & Hl & _ & Hk) Hp. rewrite Forall_forall in Hl.
  specialize (Hl p Hp). unfold k_live in Hl. apply bool_decide_eq_true in Hl.
  specialize (Hk p Hl). lia.
Qed.

(** What [shell_reap] computes from a state of the invariant: one
    [reap_list] pass over the jobs, then the prompt. *)
Lemma shell_reap_spec s cwd :
  inv_core s ->
  exists kept k' st' o r',
    reap_list (jobs (sh_reg s)) (sh_kern s) (childExitMethod s) = (kept, k', st', o) /\
    shell_reap s cwd =
      mkS (mkShell (canRunBG s) st' r' k' (sh_out s ++ o ++ [prompt]) (sh_err s) (sh_children s))
          Prompt cwd /\
    jobs r' = kept /\ reg_wf r'.
Proof.
  intros (Hwf & Hnd & Hl & Hk).
  destruct (reap_list (jobs (sh_reg s)) (sh_kern s) (childExitMethod s))
    as [[[kept k'] st'] o] eqn:E.
  destruct (reap_loop_list (S (2 * pidCount (sh_reg s))) [] (jobs (sh_reg s))
              (mkReap (sh_reg s) (sh_kern s) (childExitMethod s) []) kept k' st' o)
    as (r' & Hloop & Hj & Hw); simpl; try done.
  { rewrite jobs_length by done. lia. }
  exists kept, k', st', o, r'. unfold shell_reap, reapChildren.
  cbn [length rs_out] in Hloop. rewrite app_nil_l in Hloop.
  rewrite Hloop. done.
Qed.

Lemma shell_reap_inv s cwd :
  inv_core s ->
  exists s', shell_reap s cwd = mkS s' Prompt cwd /\ inv_core s' /\
             canRunBG s' = canRunBG s /\ sh_children s' = sh_children s.
Proof.
  intros Hinv. destruct (shell_reap_spec s cwd Hinv) as (kept & k' & st' & o & r' & Hr & -> & Hj & Hw).
  pose proof Hinv as (Hwf & Hnd & Hl & Hk).
  destruct (reap_list_spec (jobs (sh_reg s)) (sh_kern s) (childExitMethod s) kept k' st' o)
    as (Hsub & Hlk & Hgone & Hout); try done.
  { intros H0. pose proof (jobs_positive s 0 Hinv H0). lia. }
  eexists; split; [reflexivity|]. split; [|done]. unfold inv_core; simpl.
  rewrite Hj. split; [done|]. split; [by eapply sublist_NoDup|]. split; [done|].
  apply (kernel_wf_sub (sh_kern s)); [done|by eapply reap_list_next_pid|].
  intros q Hq. destruct (decide (q ∈ jobs (sh_reg s))) as [Hin|Hnin].
  - rewrite Forall_forall in Hl. specialize (Hl q Hin). unfold k_live in Hl.
    by apply bool_decide_eq_true in Hl.
  - destruct (Hout q Hnin) as [Hlive _]. cbn [live kernel_backend] in Hlive. unfold k_live in Hlive.
    apply (bool_decide_eq_true_1 (is_Some (procs (sh_kern s) !! q))).
    rewrite <- Hlive. by apply bool_decide_eq_true_2.
Qed.

Lemma shell_reap_shell_inv s cwd : inv_core s -> shell_inv (shell_reap s cwd).
Proof. intros H. destruct (shell_reap_inv s cwd H) as (s' & -> & Hi & _). exact Hi. Qed.

(** A new child is fresh and the jobs stay live; a background job joins
    them. *)
Lemma forkAndExec_inv fs cmds n w s :
  inv_core s ->
  (forall s', forkAndExec fs cmds n w s = LaunchBG s' -> inv_core s') /\
  (forall pid s', forkAndExec fs cmds n w s = LaunchFG pid s' ->
                  inv_core s' /\ pid ∉ jobs (sh_reg s')).
Proof.
  intros (Hwf & Hnd & Hl & Hk). unfold forkAndExec.
  destruct (fork (sh_kern s)) as [[pid k']|] eqn:Hf; [|done].
  destruct (fork_fresh _ _ _ Hk Hf) as (Hpos & Hdead & Hlive & Hwf' & Hoth).
  assert (Hnin : pid ∉ jobs (sh_reg s)).
  { intros Hin. rewrite Forall_forall in Hl. specialize (Hl pid Hin). congruence. }
  assert (Hl' : Forall (fun q => k_live k' q = true) (jobs (sh_reg s))).
  { rewrite Forall_forall in Hl |- *. intros q Hq. unfold k_live.
    rewrite Hoth by (intros ->; by apply Hnin). apply Hl, Hq. }
  destruct (w && canRunBG s); simpl.
  - destruct (addPid (sh_reg s) pid) as [r|] eqn:Ha; [|done].
    split; [|done]. intros s' [= <-].
    destruct (addPid_jobs _ _ _ Hwf Ha) as [Hj Hwr].
    unfold inv_core; simpl. rewrite Hj. split; [done|]. split.
    + apply NoDup_app. split; [done|]. split; [set_solver|]. apply NoDup_singleton.
    + split; [|done]. apply Forall_app. by split; [|constructor].
  - split; [done|]. intros pid' s' [= <- <-]. done.
Qed.

(** A child's termination changes no one's liveness. *)
Lemma child_exit_inv p st s k' :
  inv_core s -> child_terminates p st (sh_kern s) = Some k' -> inv_core (sh_set_kern k' s).
Proof.
  intros (Hwf & Hnd & Hl & Hk) Ht. unfold child_terminates in Ht.
  destruct (procs (sh_kern s) !! p) as [[| |]|] eqn:Hp; try done. injection Ht as <-.
  assert (Hsame : forall q, is_Some (<[p := Zombie st]> (procs (sh_kern s)) !! q) <->
                            is_Some (procs (sh_kern s) !! q)).
  { intros q. destruct (decide (p = q)) as [->|Hne].
    - rewrite lookup_insert_eq, Hp. split; eauto.
    - by rewrite lookup_insert_ne. }
  unfold inv_core, k_live; simpl. split; [done|]. split; [done|]. split.
  - rewrite Forall_forall in Hl |- *. intros q Hq. apply bool_decide_eq_true_2.
    apply Hsame. apply (bool_decide_eq_true_1 _), Hl, Hq.
  - apply (kernel_wf_sub (sh_kern s)); [done|done|]. intros q. apply Hsame.
Qed.

Lemma fg_wait_inv pid s s' :
  inv_core s -> pid ∉ jobs (sh_reg s) -> fg_wait pid s = Some s' -> inv_core s'.
Proof.
  intros (Hwf & Hnd & Hl & Hk) Hnin. unfold fg_wait, waitpid_block.
  destruct (procs (sh_kern s) !! pid) as [[| |st]|] eqn:Hp; try done; intros [= <-].
  - destruct (fg_finish_fields (Some st) (reap pid (sh_kern s)) s) as (_ & _ & Hr & Hkk & _).
    unfold inv_core. rewrite Hr, Hkk. split; [done|]. split; [done|]. split.
    + rewrite Forall_forall in Hl |- *. intros q Hq. unfold k_live, reap; simpl.
      rewrite lookup_delete_ne by (intros ->; by apply Hnin). apply Hl, Hq.
    + apply (kernel_wf_sub (sh_kern s)); [done|done|]. intros q. unfold reap; simpl.
      destruct (decide (pid = q)) as [->|Hne]; [by rewrite lookup_delete_eq; intros []|].
      by rewrite lookup_delete_ne.
  - destruct (fg_finish_fields None (sh_kern s) s) as (_ & _ & Hr & Hkk & _).
    unfold inv_core. by rewrite Hr, Hkk.
Qed.

Lemma fg_interrupted_inv s s' : inv_core s -> fg_interrupted s = Some s' -> inv_core s'.
Proof.
  intros Hi. unfold fg_interrupted. destruct (toggleBG (canRunBG s)) as [b [m|]]; [|done].
  intros [= <-]. destruct (fg_finish_fields None (sh_kern s) (sh_print [m] (sh_set_bg b s)))
    as (_ & _ & Hr & Hkk & _). unfold inv_core. by rewrite Hr, Hkk.
Qed.

(** The stop of the children changes no one's presence in the table. *)
Lemma suspend_inv s : inv_core s -> inv_core (suspend_children s).
Proof.
  intros (Hwf & Hnd & Hl & Hk).
  assert (Hsame : forall q, is_Some (procs (sh_kern (suspend_children s)) !! q) <->
                            is_Some (procs (sh_kern s) !! q)).
  { intros q. unfold suspend_children, sh_set_kern; cbn [sh_kern]. rewrite stop_group_lookup.
    by rewrite fmap_is_Some. }
  unfold inv_core. split; [done|]. split; [done|]. split.
  - rewrite Forall_forall in Hl |- *. intros q Hq. unfold k_live. apply bool_decide_eq_true_2.
    apply Hsame. apply (bool_decide_eq_true_1 _), Hl, Hq.
  - apply (kernel_wf_sub (sh_kern s)); [done|done|]. intros q. apply Hsame.
Qed.

Lemma tstp_at_prompt_inv s cwd : inv_core s -> shell_inv (tstp_at_prompt s cwd).
Proof. intros Hi. unfold tstp_at_prompt. by destruct (toggleBG (canRunBG s)) as [b [m|]]. Qed.

Lemma tstp_in_wait_inv pid s cwd : inv_core s -> shell_inv (tstp_in_wait pid s cwd).
Proof.
  intros Hi. unfold tstp_in_wait; simpl. destruct (fg_interrupted s) eqn:E; [|exact I].
  apply shell_reap_shell_inv. by eapply fg_interrupted_inv.
Qed.

(** [exit] never loops: it ends the shell or blocks in a wait. *)
Lemma shutdown_inv s cwd : shell_inv (shutdown s cwd).
Proof. unfold shutdown. by destruct (reapBG _ _ _) as [[]|]. Qed.

(** [exit]: every job receives SIGTERM and is waited for; the shell
    prints its final newline and exits with 0. *)
Lemma shutdown_spec s cwd :
  inv_core s -> Forall (fun p => k_stopped (sh_kern s) p = false) (jobs (sh_reg s)) ->
  exists k' st', shutdown s cwd =
    mkS (mkShell (canRunBG s) st' (sh_reg s) k' (sh_out s ++ [nl]) (sh_err s) (sh_children s))
        (Done 0) cwd /\
    Forall (fun p => k_live k' p = false) (jobs (sh_reg s)) /\
    (forall q, q ∉ jobs (sh_reg s) -> k_live k' q = k_live (sh_kern s) q).
Proof.
  intros (Hwf & Hnd & Hl & Hk) Hs.
  assert (Hl2 : Forall (fun p => live (sh_kern s) p = true /\ stopped (sh_kern s) p = false)
                       (jobs (sh_reg s))) by (apply Forall_and; split; done).
  destruct (shutdown_reaps (sh_reg s) (sh_kern s) (childExitMethod s) Hwf Hnd Hl2)
    as (k' & st' & Hr & Hg & Ho).
  exists k', st'. unfold shutdown. by rewrite Hr.
Qed.

Lemma process_line_inv e s cwd line : inv_core s -> shell_inv (process_line e s cwd line).
Proof.
  intros Hi. unfold process_line.
  destruct (line ==s "exit"); [apply shutdown_inv|].
  destruct (line ==s ""); [by apply shell_reap_shell_inv|].
  destruct (is_comment line); [by apply shell_reap_shell_inv|].
  pose proof (fun fs cmds n w => forkAndExec_inv fs cmds n w s Hi) as Hf.
  unfold run_tokens. repeat case_match; try exact I; try by apply shell_reap_shell_inv.
  - apply shell_reap_shell_inv. by eapply (proj1 (Hf _ _ _ _)).
  - by eapply (proj2 (Hf _ _ _ _)).
Qed.

Lemma step_inv e ev x x' : shell_inv x -> shell_step e ev x = Some x' -> shell_inv x'.
Proof.
  destruct x as [s ph cwd]. unfold shell_step; simpl.
  destruct ev as [raw| | | |p st|], ph as [|pid| | | |]; simpl; try done.
  - intros Hi. case_decide; [done|].
    destruct (chop_line raw); intros [= <-]; [by apply process_line_inv|exact I].
  - intros Hi [= <-]. exact Hi.
  - intros Hi [= <-]. by apply tstp_at_prompt_inv.
  - intros [Hi Hn] [= <-]. by apply tstp_in_wait_inv.
  - intros Hi [= <-]. by apply tstp_at_prompt_inv, suspend_inv.
  - intros [Hi Hn] [= <-]. by apply tstp_in_wait_inv, suspend_inv.
  - intros Hi. destruct (status_allowed _ _); [|done].
    destruct (child_terminates p st (sh_kern s)) eqn:E; [|done]. intros [= <-].
    by eapply child_exit_inv.
  - intros [Hi Hn]. destruct (status_allowed _ _); [|done].
    destruct (child_terminates p st (sh_kern s)) eqn:E; [|done]. intros [= <-].
    split; [by eapply child_exit_inv | exact Hn].
  - intros [Hi Hn]. destruct (fg_wait pid s) eqn:E; [|done]. intros [= <-].
    apply shell_reap_shell_inv. by eapply fg_wait_inv.
Qed.

Lemma init_inv k cwd : kernel_wf k -> shell_inv (init k cwd).
Proof.
  intros Hk. unfold init, shell_inv, inv_core; simpl.
  split; [split; [done | cbv; lia]|]. unfold jobs; simpl.
  split; [constructor|]. split; [constructor|done].
Qed.

(** ** Lemmas on lines *)

(** A line [getline] returned is processed as what the chop leaves. *)
Lemma step_raw e s cwd raw line :
  raw <> EmptyString -> chop_line raw = Some line ->
  shell_step e (EvLine raw) (mkS s Prompt cwd) = Some (process_line e s cwd line).
Proof. intros Hr Hc. unfold shell_step; simpl. rewrite decide_False by done. by rewrite Hc. Qed.

(** A line without NUL typed at the prompt is processed without its
    newline. *)
Lemma step_line e s cwd line :
  c_string line = line ->
  shell_step e (EvLine (line ++ nl)) (mkS s Prompt cwd) = Some (process_line e s cwd line).
Proof. intros Hl. apply step_raw; [by destruct line|by apply chop_line_nl]. Qed.

(** [n] spaces. *)
Fixpoint spaces (n : nat) : string :=
  match n with O => EmptyString | S n' => String " " (spaces n') end.

Lemma c_string_spaces n : c_string (spaces n) = spaces n.
Proof. induction n as [|n IH]; [done|]. simpl. by rewrite IH. Qed.

Lemma strtok_spaces n : strtok_from (spaces n) EmptyString = [].
Proof. induction n as [|n IH]; [done|]. exact IH. Qed.

Lemma print_print m1 m2 s : sh_print m2 (sh_print m1 s) = sh_print (m1 ++ m2) s.
Proof. unfold sh_print; simpl. by rewrite app_assoc. Qed.

(** ** Theorems *)

(** C1: the registry invariant holds in every reachable state: the jobs
    are distinct live children of the shell, the registry and the process
    table are well formed, the child being waited for is not a job; and
    no reachable state is [Hung]: every [reapChildren] returns (the
    divergence of [reapChildren_diverges] needs a job that is not a live
    child, which the invariant excludes); the shutdown either exits or
    blocks in a wait, its own phase [ExitBlocked]. *)
Theorem reachable_inv e k cwd x :
  kernel_wf k -> reachable e (init k cwd) x -> shell_inv x.
Proof.
  intros Hk Hr. induction Hr as [|x ev x' Hr IH Hs]; [by apply init_inv|].
  by eapply step_inv.
Qed.

(** C5: [exit] at the prompt, in a state of the invariant where no job
    is stopped: every job gets SIGTERM and is reaped, no other process is
    touched, the shell prints its final newline and exits with status 0. *)
Theorem exit_shutdown e x :
  shell_inv x -> st_phase x = Prompt ->
  Forall (fun p => k_stopped (sh_kern (st_sh x)) p = false) (jobs (sh_reg (st_sh x))) ->
  exists x', shell_step e (EvLine ("exit" ++ nl)) x = Some x' /\ st_phase x' = Done 0 /\
    sh_out (st_sh x') = sh_out (st_sh x) ++ [nl] /\
    Forall (fun p => k_live (sh_kern (st_sh x')) p = false) (jobs (sh_reg (st_sh x))) /\
    (forall q, q ∉ jobs (sh_reg (st_sh x)) -> k_live (sh_kern (st_sh x')) q = k_live (sh_kern (st_sh x)) q).
Proof.
  destruct x as [s ph cwd]. cbn [st_phase st_sh st_cwd] in *. intros Hi -> Hs.
  rewrite step_line by reflexivity. unfold process_line. rewrite streq_refl.
  destruct (shutdown_spec s cwd Hi Hs) as (k' & st' & -> & Hg & Ho).
  eexists; split; [reflexivity|]. done.
Qed.

(** C32: a line of spaces is not treated as an empty line: the tokenizer
    yields no token and [strcmp(userCmds[0], "cd")] reads the NULL first
    slot (undefined behaviour, a crash in practice), where the spec asks
    for a reap pass and nothing else. *)
Theorem blank_tokens_crash e x n :
  st_phase x = Prompt -> (1 <= n)%nat ->
  shell_step e (EvLine (spaces n ++ nl)) x = Some (mkS (st_sh x) Crashed (st_cwd x)).
Proof.
  destruct x as [s ph cwd]. cbn [st_phase st_sh st_cwd] in *. intros -> Hn. destruct n as [|n]; [lia|].
  rewrite step_line by apply c_string_spaces. unfold process_line, run_tokens, tokenizeInput.
  cbn [spaces]. unfold strtok_all. simpl (strtok_from _ _). rewrite strtok_spaces.
  rewrite decide_True by (split; [cbn; lia | constructor]). done.
Qed.

(** C33: a line whose first byte is NUL has [strlen] 0, so the chop
    [userInput[strlen(userInput) - 1] = '\0'] writes one byte before the
    buffer (undefined behaviour); the spec only knows lines of text. *)
Theorem nul_line_crash e x rest :
  st_phase x = Prompt ->
  shell_step e (EvLine (String NUL rest)) x = Some (mkS (st_sh x) Crashed (st_cwd x)).
Proof. destruct x as [s ph cwd]. cbn [st_phase]. intros ->. reflexivity. Qed.

(** C34: when [getline] keeps failing (end of input, or signals), the
    shell stays at its prompt and prints it again each time: it never
    reaches [exit], so at end of file it loops for ever instead of
    shutting down. *)
Theorem read_failures_loop e x n :
  st_phase x = Prompt ->
  run e (replicate n EvReadFail) x =
    Some (mkS (sh_print (replicate n prompt) (st_sh x)) Prompt (st_cwd x)).
Proof.
  revert x. induction n as [|n IH]; intros [s ph cwd] Hp; simpl in *; subst ph.
  - destruct s; unfold sh_print; simpl. by rewrite app_nil_r.
  - cbn [mbind option_bind]. rewrite IH by done. cbn [st_sh st_cwd]. by rewrite print_print.
Qed.

(** C13: [cd P] from the prompt calls [chdir(P)] from the shell's
    working directory: when it succeeds the shell moves to the directory
    it reaches and goes on to [reapChildren] and the prompt; when it fails
    [changeDirectory] prints [error changing to P] and calls [exit(1)],
    where a shell would report the error and go on (the spec flags this
    policy). *)
Theorem cd_fails_exits e x raw line p rest :
  st_phase x = Prompt -> raw <> EmptyString -> chop_line raw = Some line ->
  is_comment line = false -> tokenizeInput line = Some ("cd" :: p :: rest) ->
  Forall (fun t => strstr_dd t = None) ("cd" :: p :: rest) ->
  shell_step e (EvLine raw) x =
    Some (match e_chdir e (st_cwd x) p with
          | Some d => shell_reap (st_sh x) d
          | None => mkS (sh_print [cd_error p] (st_sh x)) (Done 1) (st_cwd x)
          end).
Proof.
  destruct x as [s ph cwd]. cbn [st_phase st_sh st_cwd] in *. intros -> Hraw Hl Hc Ht Hclean.
  rewrite (step_raw e s cwd raw line Hraw Hl). f_equal.
  unfold process_line. destruct (line ==s "exit") eqn:E1.
  { apply streq_true in E1. rewrite E1 in Ht. vm_compute in Ht. discriminate. }
  destruct (line ==s "") eqn:E2.
  { apply streq_true in E2. rewrite E2 in Ht. vm_compute in Ht. discriminate. }
  rewrite Hc. unfold run_tokens. rewrite Ht, expandPID_clean by done.
  simpl. unfold changeDirectory. simpl. by destruct (e_chdir e cwd p).
Qed.

(** C14: [cd] alone calls [chdir(getenv("HOME"))] from the prompt: with
    HOME set and reachable the shell moves there, reaps and prompts
    again; when [chdir] fails, and when HOME is unset (which passes NULL
    to [chdir]), it prints [error changing to HOME dir] and exits with
    status 1. *)
Theorem cd_home e x raw line :
  st_phase x = Prompt -> raw <> EmptyString -> chop_line raw = Some line ->
  is_comment line = false -> tokenizeInput line = Some ["cd"] ->
  shell_step e (EvLine raw) x =
    Some (match e_home e with
          | Some h =>
              match e_chdir e (st_cwd x) h with
              | Some d => shell_reap (st_sh x) d
              | None => mkS (sh_print [cd_home_error] (st_sh x)) (Done 1) (st_cwd x)
              end
          | None => mkS (sh_print [cd_home_error] (st_sh x)) (Done 1) (st_cwd x)
          end).
Proof.
  destruct x as [s ph cwd]. cbn [st_phase st_sh st_cwd] in *. intros -> Hraw Hl Hc Ht.
  rewrite (step_raw e s cwd raw line Hraw Hl). f_equal.
  unfold process_line. destruct (line ==s "exit") eqn:E1.
  { apply streq_true in E1. rewrite E1 in Ht. vm_compute in Ht. discriminate. }
  destruct (line ==s "") eqn:E2.
  { apply streq_true in E2. rewrite E2 in Ht. vm_compute in Ht. discriminate. }
  rewrite Hc. unfold run_tokens. rewrite Ht, expandPID_clean by (repeat constructor).
  simpl. unfold changeDirectory. simpl.
  destruct (e_home e) as [h|]; [by destruct (e_chdir e cwd h)|done].
Qed.

(** ** Concrete runs *)

(** [chdir] from [cwd]: an absolute path is taken as it is, a relative
    one below [cwd]; [nowhere] does not exist. *)
Definition ex_chdir (cwd p : string) : option string :=
  if p ==s "nowhere" then None
  else match p with
       | String "/" _ => Some p
       | _ => Some (cwd ++ "/" ++ p)%string
       end.

(** Every directory sees [ex_fs] but [/data], where [missing] opens too;
    the shell's pid is 4242; children get pids from 100. *)
Definition ex_fs_at (cwd : string) : fsys :=
  if cwd ==s "/data" then mkFsys (fun _ _ => true) (can_exec ex_fs) else ex_fs.
Definition ex_env : env := mkEnv ex_fs_at (Some "/home/u") ex_chdir 4242.
Definition k0 : kernel := mkKernel ∅ 100 64.
Definition line (s : string) : event := EvLine (s ++ nl).

Lemma k0_wf : kernel_wf k0.
Proof. split; [unfold k0; simpl; lia|]. intros p [? Hp]. unfold k0 in Hp; simpl in Hp. by rewrite lookup_empty in Hp. Qed.

(** The state after [ls &] from [init k0 "/"]. *)
Definition x1 : sstate := default (init k0 "/") (shell_step ex_env (line "ls &") (init k0 "/")).

Lemma reachable_inv_witness : kernel_wf k0 /\ shell_inv x1.
Proof.
  split; [apply k0_wf|].
  apply (reachable_inv ex_env k0 "/" x1); [apply k0_wf|].
  apply (reach_step _ _ (init k0 "/") (line "ls &")); [apply reach_init | vm_compute; reflexivity].
Defined.

Lemma exit_shutdown_witness :
  exists x', shell_step ex_env (EvLine ("exit" ++ nl)) (init k0 "/") = Some x' /\
    st_phase x' = Done 0 /\ sh_out (st_sh x') = sh_out (st_sh (init k0 "/")) ++ [nl] /\
    Forall (fun p => k_live (sh_kern (st_sh x')) p = false) (jobs (sh_reg (st_sh (init k0 "/")))) /\
    (forall q, q ∉ jobs (sh_reg (st_sh (init k0 "/"))) ->
               k_live (sh_kern (st_sh x')) q = k_live (sh_kern (st_sh (init k0 "/"))) q).
Proof. apply (exit_shutdown ex_env (init k0 "/")); [apply init_inv, k0_wf | reflexivity | decide_by_eval]. Defined.

Lemma blank_tokens_crash_witness :
  shell_step ex_env (EvLine (spaces 3 ++ nl)) (init k0 "/") =
    Some (mkS (st_sh (init k0 "/")) Crashed (st_cwd (init k0 "/"))).
Proof. apply (blank_tokens_crash ex_env (init k0 "/") 3); [reflexivity | lia]. Defined.

Lemma nul_line_crash_witness :
  shell_step ex_env (EvLine (String NUL nl)) (init k0 "/") =
    Some (mkS (st_sh (init k0 "/")) Crashed (st_cwd (init k0 "/"))).
Proof. apply (nul_line_crash ex_env (init k0 "/") nl). reflexivity. Defined.

Lemma read_failures_loop_witness :
  run ex_env (replicate 2 EvReadFail) (init k0 "/") =
    Some (mkS (sh_print (replicate 2 prompt) (st_sh (init k0 "/"))) Prompt (st_cwd (init k0 "/"))).
Proof. apply (read_failures_loop ex_env (init k0 "/") 2). reflexivity. Defined.

(** With HOME unset, [cd] ends the shell. *)
Lemma cd_home_witness :
  shell_step (mkEnv ex_fs_at None ex_chdir 4242) (line "cd") (init k0 "/") =
    Some (mkS (sh_print [cd_home_error] (st_sh (init k0 "/"))) (Done 1) "/").
Proof.
  apply (cd_home (mkEnv ex_fs_at None ex_chdir 4242) (init k0 "/") ("cd" ++ nl) "cd");
    [reflexivity | discriminate | reflexivity | reflexivity | vm_compute; reflexivity].
Defined.

Lemma cd_fails_exits_witness :
  shell_step ex_env (line "cd nowhere") (init k0 "/") =
    Some (mkS (sh_print [cd_error "nowhere"] (st_sh (init k0 "/"))) (Done 1) (st_cwd (init k0 "/"))).
Proof.
  apply (cd_fails_exits ex_env (init k0 "/") ("cd nowhere" ++ nl) "cd nowhere" "nowhere" []);
    [reflexivity | vm_compute; discriminate | vm_compute; reflexivity | reflexivity
    | vm_compute; reflexivity | decide_by_eval].
Defined.

(** a line holding only [&] is taken as a background command with no
    program: the shell prints a background pid and registers it, and the
    child calls [execvp(NULL, ...)] (undefined behaviour); the spec asks
    for at least one token before the marker. *)
Example amp_alone :
  option_map (fun x => (sh_out (st_sh x), jobs (sh_reg (st_sh x)), sh_children (st_sh x) !! 100))
    (run ex_env [line "&"] (init k0 "/")) =
  Some ([prompt; bg_pid_msg 100; prompt], [100], Some ChildUB).
Proof. vm_compute. reflexivity. Qed.

End Shell.

(** ** Properties of the whole shell loop

    Theorems about [shell_step] (file [Shell]) that compose the components:
    a blank line or a comment runs one reap pass of the specification
    (file [ReapSpec]) and prompts again; only SIGTSTP changes the
    foreground-only mode; in foreground-only mode no step adds a job; and
    [status] after a foreground command reports how that command ended
    when no background job completed meanwhile, and reports the last
    finished background job after a reap pass; an external command line
    is forked on its expanded tokens; [exit] without its newline is forked
    as [exi]; the fifty-first background job writes past [pidArray]. *)

Module ShellProps.
Import WaitStatus Kernel Jobs ReapSpec Signals Tokenize Input Expand Command Launcher Shell.

(** The jobs of a state of the loop. *)
Definition sjobs (x : sstate) : list Z := jobs (sh_reg (st_sh x)).

(** The shell a launch leaves, whatever its outcome. *)
Definition launch_shell (l : launch) : shell :=
  match l with LaunchExit _ s | LaunchUB s | LaunchBG s | LaunchFG _ s => s end.

(** ** [shell_reap] against the specification *)

Lemma inv_core_kernel s :
  inv_core s -> Forall (fun p => is_Some (procs (sh_kern s) !! p)) (jobs (sh_reg s)).
Proof.
  intros (_ & _ & Hl & _). eapply Forall_impl; [exact Hl|]. intros p Hp.
  unfold k_live in Hp. by apply bool_decide_eq_true in Hp.
Qed.

(** From a state of the invariant, [shell_reap] prints the specified
    messages and the prompt, keeps the specified jobs, leaves the
    specified status word and reaps the specified children. *)
Lemma shell_reap_meets_spec s cwd :
  inv_core s ->
  let k := sh_kern s in let l := jobs (sh_reg s) in
  exists r' k',
    shell_reap s cwd =
      mkS (mkShell (canRunBG s) (reap_once_status k l (childExitMethod s)) r' k'
                   (sh_out s ++ reap_once_msgs k l ++ [prompt]) (sh_err s) (sh_children s))
          Prompt cwd /\
    jobs r' = reap_once_kept k l /\ reg_wf r' /\
    (forall q, procs k' !! q = if decide (reaped k l q) then None else procs k !! q) /\
    next_pid k' = next_pid k /\ max_procs k' = max_procs k.
Proof.
  intros Hi k l. pose proof Hi as (_ & Hnd & _ & _).
  destruct (shell_reap_spec s cwd Hi) as (kept & k' & st' & o & r' & Hr & -> & Hj & Hw).
  destruct (reap_list_kernel l k (childExitMethod s) kept k' st' o)
    as (-> & -> & -> & Hq & Hn & Hm); try done.
  - intros H0. pose proof (jobs_positive s 0 Hi H0). lia.
  - by apply inv_core_kernel.
  - by exists r', k'.
Qed.

(** When every job is still running, [shell_reap] only prints the
    prompt: the process table and the status word are untouched. *)
Lemma shell_reap_quiet s cwd :
  inv_core s -> Forall (fun p => procs (sh_kern s) !! p = Some Running) (jobs (sh_reg s)) ->
  exists r', shell_reap s cwd =
    mkS (mkShell (canRunBG s) (childExitMethod s) r' (sh_kern s) (sh_out s ++ [prompt])
                 (sh_err s) (sh_children s)) Prompt cwd /\
    jobs r' = jobs (sh_reg s) /\ reg_wf r'.
Proof.
  intros Hi Hrun.
  destruct (shell_reap_meets_spec s cwd Hi) as (r' & k' & -> & Hj & Hw & Hq & Hn & Hm).
  destruct (reap_once_running (sh_kern s) (jobs (sh_reg s)) (childExitMethod s) Hrun)
    as (-> & Hk & -> & Hnone).
  assert (k' = sh_kern s) as ->.
  { destruct k' as [pk nk mk], (sh_kern s) as [pk0 nk0 mk0] eqn:E; simpl in *.
    subst. f_equal. apply map_eq. intros q. rewrite Hq. by rewrite decide_False. }
  exists r'. by rewrite Hj, Hk.
Qed.

(** ** Lines *)

(** A blank line and a comment go straight to the reap pass. *)
Lemma process_line_quiet e s cwd line :
  line = EmptyString \/ is_comment line = true -> process_line e s cwd line = shell_reap s cwd.
Proof.
  unfold process_line. intros [->|Hc]; [done|].
  destruct line as [|c rest]; [done|]. unfold is_comment in Hc.
  apply Ascii.eqb_eq in Hc as ->. by rewrite !streq_neq.
Qed.

(** The [status] built-in prints the decoded status word and reaps. *)
Lemma process_line_status e s cwd :
  process_line e s cwd "status" = shell_reap (sh_print (checkStatus (childExitMethod s)) s) cwd.
Proof.
  unfold process_line, run_tokens.
  replace (tokenizeInput "status") with (Some ["status"]%string) by reflexivity.
  rewrite expandPID_clean by (repeat constructor).
  reflexivity.
Qed.

(** ** Who writes [canRunBG] *)

Lemma fg_wait_fields pid s s' :
  fg_wait pid s = Some s' -> sh_reg s' = sh_reg s /\ canRunBG s' = canRunBG s.
Proof.
  unfold fg_wait. destruct (waitpid_block pid (sh_kern s)) as [[[? w] k']|]; [|done].
  intros [= <-]. destruct (fg_finish_fields w k' s) as (Hb & _ & Hr & _). done.
Qed.

Lemma fg_interrupted_reg s s' : fg_interrupted s = Some s' -> sh_reg s' = sh_reg s.
Proof.
  unfold fg_interrupted. destruct (toggleBG (canRunBG s)) as [b [m|]]; [|done].
  intros [= <-]. by destruct (fg_finish_fields None (sh_kern s) (sh_print [m] (sh_set_bg b s)))
    as (_ & _ & -> & _).
Qed.

Lemma shell_reap_bg s cwd : canRunBG (st_sh (shell_reap s cwd)) = canRunBG s.
Proof. unfold shell_reap. by destruct (reapChildren _ _). Qed.

Lemma shutdown_bg s cwd : canRunBG (st_sh (shutdown s cwd)) = canRunBG s.
Proof. unfold shutdown. by destruct (reapBG _ _ _) as [[]|]. Qed.

Lemma forkAndExec_bg fs cmds n w s : canRunBG (launch_shell (forkAndExec fs cmds n w s)) = canRunBG s.
Proof.
  unfold forkAndExec. destruct (fork (sh_kern s)) as [[pid k']|]; [|done].
  destruct (w && canRunBG s); [|done]. by destruct (addPid _ _).
Qed.

Lemma process_line_bg e s cwd line :
  canRunBG (st_sh (process_line e s cwd line)) = canRunBG s.
Proof.
  pose proof (fun fs cmds n w => forkAndExec_bg fs cmds n w s) as Hf.
  unfold process_line, run_tokens.
  repeat case_match; rewrite ?shell_reap_bg, ?shutdown_bg; try done;
    match goal with H : forkAndExec ?fs ?c ?n ?w s = _ |- _ =>
      specialize (Hf fs c n w); rewrite H in Hf; exact Hf end.
Qed.

(** Every step but the delivery of SIGTSTP keeps the mode. *)
Lemma step_bg e ev x x' :
  ev <> EvTSTP -> ev <> EvSuspend -> shell_step e ev x = Some x' ->
  canRunBG (st_sh x') = canRunBG (st_sh x).
Proof.
  intros Hev Hsus. destruct x as [s ph cwd]. unfold shell_step; simpl.
  destruct ev as [raw| | | |p st|], ph as [|pid| | | |]; simpl; try done.
  - case_decide; [done|]. destruct (chop_line raw); intros [= <-]; [apply process_line_bg|done].
  - by intros [= <-].
  - destruct (status_allowed _ _); [|done].
    destruct (child_terminates p st (sh_kern s)); [|done]. by intros [= <-].
  - destruct (status_allowed _ _); [|done].
    destruct (child_terminates p st (sh_kern s)); [|done]. by intros [= <-].
  - destruct (fg_wait pid s) as [s'|] eqn:E; [|done]. intros [= <-].
    rewrite shell_reap_bg. apply (fg_wait_fields pid s s' E).
Qed.

(** ** No new job in foreground-only mode *)

Lemma shell_reap_jobs s cwd : inv_core s -> sjobs (shell_reap s cwd) ⊆ jobs (sh_reg s).
Proof.
  intros Hi. destruct (shell_reap_meets_spec s cwd Hi) as (r' & k' & -> & Hj & _).
  unfold sjobs; simpl. rewrite Hj. intros p. unfold reap_once_kept.
  rewrite list_elem_of_filter. tauto.
Qed.

Lemma shutdown_jobs s cwd : sjobs (shutdown s cwd) = jobs (sh_reg s).
Proof. unfold shutdown. by destruct (reapBG _ _ _) as [[]|]. Qed.

(** With background launches disabled, [forkAndExec] never registers. *)
Lemma forkAndExec_fg_reg fs cmds n w s :
  canRunBG s = false ->
  match forkAndExec fs cmds n w s with
  | LaunchExit _ s' | LaunchFG _ s' => sh_reg s' = sh_reg s
  | _ => False
  end.
Proof.
  intros Hb. unfold forkAndExec. destruct (fork (sh_kern s)) as [[pid k']|]; [|done].
  by rewrite Hb, andb_false_r.
Qed.

Lemma process_line_jobs_fg e s cwd line :
  inv_core s -> canRunBG s = false ->
  sjobs (process_line e s cwd line) ⊆ jobs (sh_reg s).
Proof.
  intros Hi Hb. pose proof (fun fs cmds n w => forkAndExec_fg_reg fs cmds n w s Hb) as Hf.
  unfold process_line, run_tokens.
  repeat case_match; rewrite ?shutdown_jobs; try done;
    try exact (shell_reap_jobs _ _ Hi); try exact (shell_reap_jobs (sh_print _ s) _ Hi);
    match goal with H : forkAndExec ?fs ?c ?n ?w s = _ |- _ =>
      specialize (Hf fs c n w); rewrite H in Hf;
      first [contradiction | unfold sjobs; simpl; by rewrite Hf] end.
Qed.

Lemma tstp_at_prompt_jobs s cwd : sjobs (tstp_at_prompt s cwd) = jobs (sh_reg s).
Proof. unfold tstp_at_prompt. by destruct (toggleBG (canRunBG s)) as [b [m|]]. Qed.

Lemma tstp_in_wait_jobs pid s cwd :
  inv_core s -> sjobs (tstp_in_wait pid s cwd) ⊆ jobs (sh_reg s).
Proof.
  intros Hi. unfold tstp_in_wait; simpl. destruct (fg_interrupted s) as [s'|] eqn:E; [|done].
  rewrite <- (fg_interrupted_reg s s' E). apply shell_reap_jobs. by eapply fg_interrupted_inv.
Qed.

(** A step in foreground-only mode adds no job. *)
Lemma step_jobs_fg e ev x x' :
  shell_inv x -> canRunBG (st_sh x) = false -> shell_step e ev x = Some x' ->
  sjobs x' ⊆ sjobs x.
Proof.
  destruct x as [s ph cwd]. unfold shell_step, sjobs; simpl.
  destruct ev as [raw| | | |p st|], ph as [|pid| | | |]; simpl; try done.
  - intros Hi Hb. case_decide; [done|].
    destruct (chop_line raw); intros [= <-]; [by apply process_line_jobs_fg|done].
  - by intros _ _ [= <-].
  - intros _ _ [= <-]. pose proof (tstp_at_prompt_jobs s cwd) as E. unfold sjobs in E. by rewrite E.
  - intros [Hi _] _ [= <-]. by apply tstp_in_wait_jobs.
  - intros _ _ [= <-]. pose proof (tstp_at_prompt_jobs (suspend_children s) cwd) as E.
    unfold sjobs in E. by rewrite E.
  - intros [Hi _] _ [= <-]. by apply (tstp_in_wait_jobs pid (suspend_children s)), suspend_inv.
  - intros _ _. destruct (status_allowed _ _); [|done].
    destruct (child_terminates p st (sh_kern s)); [|done]. by intros [= <-].
  - intros _ _. destruct (status_allowed _ _); [|done].
    destruct (child_terminates p st (sh_kern s)); [|done]. by intros [= <-].
  - intros [Hi Hn] _. destruct (fg_wait pid s) as [s'|] eqn:E; [|done]. intros [= <-].
    rewrite <- (proj1 (fg_wait_fields pid s s' E)). apply shell_reap_jobs. by eapply fg_wait_inv.
Qed.

(** The foreground wait on a terminated child, in the fields [status]
    reads. *)
Lemma fg_wait_done_fields pid st s :
  procs (sh_kern s) !! pid = Some (Zombie st) ->
  exists s', fg_wait pid s = Some s' /\ childExitMethod s' = st /\
    (forall q, q <> pid -> procs (sh_kern s') !! q = procs (sh_kern s) !! q) /\
    sh_reg s' = sh_reg s /\ sh_out s' = sh_out s ++ fg_report st.
Proof.
  intros Hz. unfold fg_wait, waitpid_block. rewrite Hz.
  destruct (fg_finish_fields (Some st) (reap pid (sh_kern s)) s) as (_ & Hst & Hr & Hk & _ & _ & Ho).
  eexists; split; [reflexivity|]. rewrite Hst, Hr, Hk, Ho. split; [done|].
  split; [|done]. intros q Hq. unfold reap; simpl. by rewrite lookup_delete_ne.
Qed.

(** ** Runs *)

Lemma run_cons e ev evs x x'' :
  run e (ev :: evs) x = Some x'' <->
  exists x', shell_step e ev x = Some x' /\ run e evs x' = Some x''.
Proof.
  simpl. destruct (shell_step e ev x) as [x'|]; cbn [mbind option_bind].
  - split; [eauto|]. by intros (? & [= <-] & ?).
  - split; [done|]. by intros (? & ? & _).
Qed.

(** ** Theorems *)

(** C4: a blank line or a comment at the prompt runs exactly one reap
    pass of the specification and prompts again: the shell prints the
    completion message of each finished job in registry order and then
    the prompt, keeps the running jobs, leaves in the status word the
    status of the last finished job, and reaps exactly the finished
    children.  [line] is what the chop leaves of the bytes [raw] that
    [getline] returned. *)
Theorem blank_line_reaps e x raw line :
  shell_inv x -> st_phase x = Prompt -> raw <> EmptyString -> chop_line raw = Some line ->
  line = EmptyString \/ is_comment line = true ->
  let s := st_sh x in let k := sh_kern s in let l := jobs (sh_reg s) in
  exists x', shell_step e (EvLine raw) x = Some x' /\
    st_phase x' = Prompt /\ st_cwd x' = st_cwd x /\
    sh_out (st_sh x') = sh_out s ++ reap_once_msgs k l ++ [prompt] /\
    sjobs x' = reap_once_kept k l /\
    childExitMethod (st_sh x') = reap_once_status k l (childExitMethod s) /\
    forall q, procs (sh_kern (st_sh x')) !! q = if decide (reaped k l q) then None else procs k !! q.
Proof.
  destruct x as [s ph cwd]. unfold shell_inv. cbn [st_phase st_sh st_cwd]. intros Hi -> Hraw Hc Hl.
  destruct (shell_reap_meets_spec s cwd Hi) as (r' & k' & Hr & Hj & _ & Hq & _).
  rewrite (step_raw e s cwd raw line Hraw Hc), process_line_quiet, Hr by done.
  eexists; split; [reflexivity|]. done.
Qed.
(** C16: only the SIGTSTP handler changes the foreground-only mode: along
    any run of the loop without a SIGTSTP delivery (sent to the shell
    alone or by the terminal's suspend key), whatever lines are typed,
    children end or waits return, [canRunBG] keeps its value. *)
Theorem mode_only_by_tstp e evs x x' :
  EvTSTP ∉ evs -> EvSuspend ∉ evs ->
  run e evs x = Some x' -> canRunBG (st_sh x') = canRunBG (st_sh x).
Proof.
  revert x. induction evs as [|ev evs IH]; intros x Hn Hn'; [by intros [= <-]|].
  apply not_elem_of_cons in Hn as [Hev Hn], Hn' as [Hev' Hn'].
  intros (x1 & Hs & Hr)%run_cons. rewrite (IH x1 Hn Hn' Hr). by eapply step_bg.
Qed.

(** C15: in foreground-only mode the shell starts no background job:
    from a state of the invariant with [canRunBG] false, along any run
    without a SIGTSTP delivery, the jobs at the end are among the jobs at
    the start; a trailing [&] is ignored. *)
Theorem fg_mode_no_new_jobs e evs x x' :
  shell_inv x -> canRunBG (st_sh x) = false -> EvTSTP ∉ evs -> EvSuspend ∉ evs ->
  run e evs x = Some x' -> sjobs x' ⊆ sjobs x.
Proof.
  revert x. induction evs as [|ev evs IH]; intros x Hi Hb Hn Hn'; [by intros [= <-]|].
  apply not_elem_of_cons in Hn as [Hev Hn], Hn' as [Hev' Hn'].
  intros (x1 & Hs & Hr)%run_cons.
  assert (Hb1 : canRunBG (st_sh x1) = false)
    by (rewrite (step_bg e ev x x1 ltac:(congruence) ltac:(congruence) Hs); done).
  etrans; [apply (IH x1); try done; by eapply step_inv|]. by eapply step_jobs_fg.
Qed.
(** C11: [status] reports the foreground command that just ended: when
    the shell waits for [pid], [pid] terminates with status [st] and no
    background job has finished, the wait returns, the shell prints the
    signal report of [st] and the prompt, and [status] then prints what
    [checkStatus st] prints ([exit value N] or [terminated by signal N])
    and the prompt again. *)
Theorem status_after_foreground e s cwd pid st :
  shell_inv (mkS s (Waiting pid) cwd) ->
  procs (sh_kern s) !! pid = Some (Zombie st) ->
  Forall (fun p => procs (sh_kern s) !! p = Some Running) (jobs (sh_reg s)) ->
  exists x', run e [EvWaitReturns; EvLine ("status" ++ nl)] (mkS s (Waiting pid) cwd) = Some x' /\
    st_phase x' = Prompt /\ childExitMethod (st_sh x') = st /\
    sh_out (st_sh x') = sh_out s ++ fg_report st ++ [prompt] ++ checkStatus st ++ [prompt].
Proof.
  intros [Hi Hn] Hz Hrun.
  destruct (fg_wait_done_fields pid st s Hz) as (s1 & Hw & Hst & Hk1 & Hr1 & Ho1).
  assert (Hi1 : inv_core s1) by (by eapply fg_wait_inv).
  assert (Hrun1 : Forall (fun p => procs (sh_kern s1) !! p = Some Running) (jobs (sh_reg s1))).
  { rewrite Hr1. rewrite Forall_forall in Hrun |- *. intros p Hp.
    rewrite Hk1 by (intros ->; contradiction). by apply Hrun. }
  destruct (shell_reap_quiet s1 cwd Hi1 Hrun1) as (r1 & Hq1 & Hj1 & Hwf1).
  destruct (shell_reap_inv s1 cwd Hi1) as (s2 & Hq2 & Hi2 & _).
  rewrite Hq1 in Hq2. injection Hq2 as <-.
  set (s2 := mkShell _ _ r1 _ _ _ _) in Hi2.
  destruct (shell_reap_quiet (sh_print (checkStatus st) s2) cwd Hi2)
    as (r2 & Hq3 & _); [by simpl; rewrite Hj1|].
  assert (H1 : shell_step e EvWaitReturns (mkS s (Waiting pid) cwd) = Some (shell_reap s1 cwd))
    by (unfold shell_step; simpl; by rewrite Hw).
  rewrite Hq1 in H1. fold s2 in H1.
  assert (H2 : shell_step e (EvLine ("status" ++ nl)) (mkS s2 Prompt cwd) =
               Some (shell_reap (sh_print (checkStatus st) s2) cwd))
    by (rewrite step_line by reflexivity; rewrite process_line_status; subst s2; simpl; by rewrite Hst).
  rewrite Hq3 in H2. eexists. cbn [run]. rewrite H1. cbn [mbind option_bind]. rewrite H2.
  split; [reflexivity|]. subst s2. simpl. split; [done|]. rewrite Ho1, <- !app_assoc. done.
Qed.

(** With a stopped job, [reapBG] blocks on it. *)
Lemma shutdown_stopped s cwd p :
  inv_core s -> p ∈ jobs (sh_reg s) -> k_stopped (sh_kern s) p = true ->
  shutdown s cwd = mkS s ExitBlocked cwd.
Proof.
  intros (Hwf & Hnd & Hl & _) Hp Hs. unfold shutdown.
  rewrite (shutdown_blocks (sh_reg s) (sh_kern s) (childExitMethod s)); [done|done|done|done|].
  by exists p.
Qed.

(** C6: the terminal's suspend key stops the background jobs (they are
    in the shell's process group and keep SIGTSTP's default action after
    [execvp]); a stopped job is never reported, and [exit] then sends it
    SIGTERM, which stays pending, and blocks for ever in [reapBG]'s
    [waitpid] on it, where the spec says the shutdown cannot hang on a
    cooperating job. *)
Theorem exit_blocks_on_stopped e x p :
  shell_inv x -> st_phase x = Prompt -> p ∈ sjobs x -> k_stopped (sh_kern (st_sh x)) p = true ->
  shell_step e (EvLine ("exit" ++ nl)) x = Some (mkS (st_sh x) ExitBlocked (st_cwd x)).
Proof.
  destruct x as [s ph cwd]. unfold shell_inv, sjobs. cbn [st_phase st_sh st_cwd]. intros Hi -> Hp Hs.
  rewrite step_line by reflexivity. unfold process_line. rewrite streq_refl.
  by rewrite (shutdown_stopped s cwd p).
Qed.

(** ** External commands *)

(** A line other than [exit], empty or a comment goes to the tokenizer. *)
Lemma process_line_external e s cwd line :
  line <> "exit" -> line <> EmptyString -> is_comment line = false ->
  process_line e s cwd line = run_tokens e s cwd line.
Proof. intros Hx He Hc. unfold process_line. by rewrite !streq_neq, Hc. Qed.

(** The tokens of a line, once expanded, still fit the 512 slots. *)
Lemma tokens_fit line toks pid toks' :
  tokenizeInput line = Some toks -> expandPID pid toks = Some toks' -> (length toks' <= 512)%nat.
Proof.
  unfold tokenizeInput. case_decide as Hd; [|done]. intros [= <-] He.
  unfold expandPID in He. rewrite <- (length_mapM _ _ _ He). apply Hd.
Qed.

(** From the prompt, a line whose expanded tokens start with neither
    [cd] nor [status] is handed to [forkAndExec] with what [checkIfBG]
    returns, in the shell's working directory. *)
Lemma step_launch e s cwd raw line toks toks' cmd0 args userCmds' bg :
  raw <> EmptyString -> chop_line raw = Some line -> line <> "exit" -> is_comment line = false ->
  tokenizeInput line = Some toks -> expandPID (e_pid e) toks = Some toks' ->
  toks' = cmd0 :: args -> cmd0 <> "cd" -> cmd0 <> "status" ->
  checkIfBG (slots_of toks') (length toks') = Some (userCmds', bg) ->
  shell_step e (EvLine raw) (mkS s Prompt cwd) =
    Some (match forkAndExec (e_fs e cwd) userCmds' (length toks') bg s with
          | LaunchExit code s' => mkS s' (Done code) cwd
          | LaunchUB s' => mkS s' Crashed cwd
          | LaunchBG s' => shell_reap s' cwd
          | LaunchFG pid s' => mkS s' (Waiting pid) cwd
          end).
Proof.
  intros Hraw Hl Hx Hc Ht He -> Hcd Hst Hbg. rewrite (step_raw e s cwd raw line Hraw Hl).
  rewrite process_line_external by (done || (intros ->; vm_compute in Ht; injection Ht as <-;
    unfold expandPID in He; by apply length_mapM in He)).
  f_equal. unfold run_tokens. rewrite Ht, He.
  replace (slots_of (cmd0 :: args) !! 0%nat) with (Some (Some cmd0)) by reflexivity.
  cbn beta iota. rewrite !streq_neq by done. by rewrite Hbg.
Qed.

(** A last token other than [&]: a foreground command. *)
Lemma checkIfBG_fg toks' cmd0 args :
  toks' = cmd0 :: args -> last toks' <> Some "&" -> (length toks' <= 512)%nat ->
  checkIfBG (slots_of toks') (length toks') = Some (slots_of toks', false).
Proof.
  intros -> Hamp Hlen. destruct (last (cmd0 :: args)) as [t|] eqn:El.
  - apply (checkIfBG_last _ t); [done|congruence|done].
  - by destruct (proj2 (last_is_Some (cmd0 :: args))) as [? ?]; congruence.
Qed.

(** C12: the pipeline of an external foreground command: a line that is
    not [exit], empty or a comment is tokenized, [$$]-expanded, found to
    be neither [cd] nor [status] nor a background request, and forked:
    the shell waits for the new child (the next pid of the process table),
    which runs [run_child] on the expanded tokens in the shell's working
    directory, with the registry, the output and the status word
    unchanged. *)
Theorem foreground_line_runs e x raw line toks toks' cmd0 args :
  st_phase x = Prompt -> raw <> EmptyString -> chop_line raw = Some line -> line <> "exit" ->
  is_comment line = false -> tokenizeInput line = Some toks ->
  expandPID (e_pid e) toks = Some toks' -> toks' = cmd0 :: args ->
  cmd0 <> "cd" -> cmd0 <> "status" -> last toks' <> Some "&" ->
  (size (procs (sh_kern (st_sh x))) < max_procs (sh_kern (st_sh x)))%nat ->
  let s := st_sh x in let pid := next_pid (sh_kern s) in
  exists s', shell_step e (EvLine raw) x = Some (mkS s' (Waiting pid) (st_cwd x)) /\
    sh_reg s' = sh_reg s /\ sh_out s' = sh_out s /\ childExitMethod s' = childExitMethod s /\
    procs (sh_kern s') !! pid = Some Running /\
    sh_children s' !! pid =
      Some (run_child (e_fs e (st_cwd x)) main_dispositions (slots_of toks') (length toks') false
                      (canRunBG s)).
Proof.
  destruct x as [s ph cwd]. cbn [st_phase st_sh st_cwd].
  intros -> Hraw Hl Hex Hc Ht He Hsp Hcd Hst Hamp Hfree.
  pose proof (checkIfBG_fg toks' cmd0 args Hsp Hamp (tokens_fit _ _ _ _ Ht He)) as Hbg.
  rewrite (step_launch e s cwd raw line toks toks' cmd0 args (slots_of toks') false) by done.
  unfold forkAndExec, fork. rewrite decide_False by lia. cbn [andb].
  eexists; split; [reflexivity|]. cbn. by rewrite !lookup_insert_eq.
Qed.

(** C35: the line's last character is dropped whether or not it is a
    newline: from any prompt, a last line [exit] that ends at end of
    file without a newline, or [exit] followed by a NUL byte, is read as
    [exi], which is not the exit keyword; the shell forks [exi] as a
    foreground command and waits for it instead of shutting down. *)
Theorem exit_without_newline e x suffix :
  st_phase x = Prompt -> (suffix = EmptyString \/ exists r, suffix = String NUL r) ->
  (size (procs (sh_kern (st_sh x))) < max_procs (sh_kern (st_sh x)))%nat ->
  let s := st_sh x in let pid := next_pid (sh_kern s) in
  exists s', shell_step e (EvLine ("exit" ++ suffix)) x = Some (mkS s' (Waiting pid) (st_cwd x)) /\
    sh_children s' !! pid =
      Some (run_child (e_fs e (st_cwd x)) main_dispositions (slots_of ["exi"]) 1 false (canRunBG s)).
Proof.
  destruct x as [s ph cwd]. cbn [st_phase st_sh st_cwd]. intros -> Hsuf Hfree.
  assert (chop_line ("exit" ++ suffix) = Some "exi") as Hchop by (by destruct Hsuf as [->|[r ->]]).
  rewrite (step_launch e s cwd _ "exi" ["exi"] ["exi"] "exi" [] (slots_of ["exi"]) false);
    [| by destruct Hsuf as [->|[r ->]] | exact Hchop | done | done | vm_compute; reflexivity
     | by rewrite expandPID_clean by repeat constructor | done | done | done | vm_compute; reflexivity].
  unfold forkAndExec, fork. rewrite decide_False by lia. cbn [andb].
  eexists; split; [reflexivity|]. cbn. by rewrite !lookup_insert_eq.
Qed.

(** C38: the registry has no bound check: from any prompt in
    background-allowed mode with fifty jobs, a background command that
    [fork] can start makes [addPid] write past the 50 slots of
    [pidArray] (undefined behaviour). *)
Theorem too_many_jobs e x raw line toks toks' cmd0 args :
  st_phase x = Prompt -> raw <> EmptyString -> chop_line raw = Some line -> line <> "exit" ->
  is_comment line = false -> tokenizeInput line = Some toks ->
  expandPID (e_pid e) toks = Some toks' -> toks' = cmd0 :: args ->
  cmd0 <> "cd" -> cmd0 <> "status" -> last toks' = Some "&" ->
  canRunBG (st_sh x) = true -> pidCount (sh_reg (st_sh x)) = MAXJOBS ->
  (size (procs (sh_kern (st_sh x))) < max_procs (sh_kern (st_sh x)))%nat ->
  exists s', shell_step e (EvLine raw) x = Some (mkS s' Crashed (st_cwd x)).
Proof.
  destruct x as [s ph cwd]. cbn [st_phase st_sh st_cwd].
  intros -> Hraw Hl Hex Hc Ht He Hsp Hcd Hst Hamp Hbg Hfull Hfree.
  pose proof (tokens_fit _ _ _ _ Ht He) as Hlen.
  apply last_Some in Hamp as [pre Hpre].
  rewrite (step_launch e s cwd raw line toks toks' cmd0 args (slots_of pre) true); try done;
    [|rewrite Hpre; apply checkIfBG_amp; rewrite Hpre, length_app in Hlen; simpl in Hlen; lia].
  unfold forkAndExec, fork. rewrite decide_False by lia. rewrite Hbg. cbn [andb].
  unfold addPid. cbn [sh_reg sh_print]. rewrite Hfull, decide_False by lia. by eexists.
Qed.

(** C31: [status] reports a background job: a blank line runs the reap
    pass, which stores the status of the last finished job in
    [childExitMethod], the word the [status] built-in reads; so when job
    [p] has finished with [st] (and no job after it in the registry has),
    a blank line then [status] prints [checkStatus st], whatever the last
    foreground command left; the spec keeps the status of the last
    foreground command, untouched by background completions. *)
Theorem status_reports_background e x l1 p l2 st :
  st_phase x = Prompt -> inv_core (st_sh x) -> jobs (sh_reg (st_sh x)) = l1 ++ p :: l2 ->
  procs (sh_kern (st_sh x)) !! p = Some (Zombie st) ->
  Forall (fun q => finished (sh_kern (st_sh x)) q = None) l2 ->
  exists x1, shell_step e (EvLine nl) x = Some x1 /\ childExitMethod (st_sh x1) = st /\
    shell_step e (EvLine ("status" ++ nl)) x1 =
      Some (shell_reap (sh_print (checkStatus st) (st_sh x1)) (st_cwd x)).
Proof.
  destruct x as [s ph cwd]. cbn [st_phase st_sh st_cwd]. intros -> Hi Hj Hp Hl2.
  rewrite (step_raw e s cwd nl "") by done. rewrite process_line_quiet by (by left).
  destruct (shell_reap_meets_spec s cwd Hi) as (r' & k' & -> & _).
  eexists; split; [reflexivity|]. cbn [st_sh childExitMethod].
  assert (reap_once_status (sh_kern s) (jobs (sh_reg s)) (childExitMethod s) = st) as ->.
  { rewrite Hj. apply reap_once_status_last; [|done]. unfold finished. by rewrite Hp. }
  split; [done|]. rewrite (step_raw _ _ cwd _ "status") by done.
  by rewrite process_line_status.
Qed.

(** ** Concrete runs *)

(** A prompt with two jobs: [7] still running and [9] exited with 9. *)
Definition kb : kernel := mkKernel (<[7 := Running]> (<[9 := Zombie 2304]> ∅)) 100 64.
Definition rb : registry := mkRegistry ([7; 9] ++ replicate 48 0) 2.
Definition xb (b : bool) : sstate := mkS (mkShell b (-5) rb kb [prompt] [] ∅) Prompt "/".

(** Waiting for [100], which exited with 2, beside the running job [7]. *)
Definition xw : sstate :=
  mkS (mkShell true (-5) (mkRegistry ([7] ++ replicate 49 0) 1)
               (mkKernel (<[7 := Running]> (<[100 := Zombie 512]> ∅)) 101 64) [prompt] [] ∅)
      (Waiting 100) "/".

(** A concrete kernel is well formed when its pids lie in [0, next_pid). *)
Lemma kernel_wf_of_list (k : kernel) :
  0 < next_pid k -> Forall (fun p => 0 < p < next_pid k) (map fst (map_to_list (procs k))) ->
  kernel_wf k.
Proof.
  intros Hn Hl. split; [done|]. intros p [v Hv]. rewrite Forall_forall in Hl. apply Hl.
  apply list_elem_of_fmap. exists (p, v). split; [done|]. by apply elem_of_map_to_list.
Qed.

Ltac concrete_inv_core :=
  unfold inv_core; split; [split; [reflexivity | cbv; lia]|];
  split; [decide_by_eval|]; split; [decide_by_eval|];
  apply kernel_wf_of_list; [simpl; lia | decide_by_eval].

Lemma xb_inv b : shell_inv (xb b).
Proof. concrete_inv_core. Qed.

Lemma xw_inv : shell_inv xw.
Proof. split; [concrete_inv_core | decide_by_eval]. Qed.

Lemma blank_line_reaps_witness :
  exists x', shell_step ex_env (EvLine nl) (xb true) = Some x' /\
    sh_out (st_sh x') = [prompt; "background pid 9 is done: exit value 9" ++ nl; prompt]%string /\
    sjobs x' = [7] /\ childExitMethod (st_sh x') = 2304.
Proof.
  destruct (blank_line_reaps ex_env (xb true) nl "" (xb_inv true) eq_refl ltac:(discriminate)
              eq_refl (or_introl eq_refl))
    as (x' & Hs & _ & _ & Ho & Hj & Hst & _).
  exists x'. rewrite Hs, Ho, Hj, Hst. vm_compute. auto.
Defined.

Lemma mode_only_by_tstp_witness :
  exists x', run ex_env [line "ls &"; line ""] (xb true) = Some x' /\ canRunBG (st_sh x') = true.
Proof.
  eexists. split; [vm_compute; reflexivity|].
  apply (mode_only_by_tstp ex_env [line "ls &"; line ""] (xb true)); [decide_by_eval|decide_by_eval|].
  vm_compute. reflexivity.
Defined.

Lemma fg_mode_no_new_jobs_witness :
  exists x', run ex_env [line "ls &"; EvChildExit 100 0; EvWaitReturns] (xb false) = Some x' /\
    sjobs x' ⊆ sjobs (xb false).
Proof.
  eexists. split; [vm_compute; reflexivity|].
  apply (fg_mode_no_new_jobs ex_env [line "ls &"; EvChildExit 100 0; EvWaitReturns] (xb false));
    [apply xb_inv | reflexivity | decide_by_eval | decide_by_eval | vm_compute; reflexivity].
Defined.

(** [ls &], then the suspend key: job 100 is stopped. *)
Definition xsus : sstate := default x1 (shell_step ex_env EvSuspend x1).

Lemma xsus_inv : shell_inv xsus.
Proof.
  apply (step_inv ex_env EvSuspend x1); [|vm_compute; reflexivity].
  apply (step_inv ex_env (line "ls &") (init k0 "/")); [apply init_inv, k0_wf|].
  vm_compute. reflexivity.
Qed.

Lemma exit_blocks_on_stopped_witness :
  shell_step ex_env (EvLine ("exit" ++ nl)) xsus = Some (mkS (st_sh xsus) ExitBlocked "/").
Proof.
  apply (exit_blocks_on_stopped ex_env xsus 100 xsus_inv);
    [vm_compute; reflexivity | decide_by_eval | vm_compute; reflexivity].
Defined.

(** A foreground command stopped by the suspend key: the wait fails with
    EINTR, the shell goes back to its prompt, and the stopped child is
    neither a job nor waited for; it stays stopped in the table after
    further lines. *)
Example fg_child_stopped :
  option_map (fun x => (st_phase x, sjobs x, procs (sh_kern (st_sh x)) !! 100))
    (run ex_env [line "ls"; EvSuspend; line ""] (init k0 "/")) =
  Some (Prompt, [], Some Stopped).
Proof. vm_compute. reflexivity. Qed.

Lemma status_after_foreground_witness :
  exists x', run ex_env [EvWaitReturns; EvLine ("status" ++ nl)] xw = Some x' /\
    sh_out (st_sh x') = [prompt; prompt; exit_value_msg 2; prompt].
Proof.
  destruct (status_after_foreground ex_env (st_sh xw) "/" 100 512 xw_inv eq_refl
              ltac:(decide_by_eval)) as (x' & Hr & _ & _ & Ho).
  exists x'. split; [exact Hr|]. rewrite Ho. reflexivity.
Defined.
(** [cd /data] from [/], then [cat < missing]: the child is forked in
    [/data], where [missing] opens, and reaches [execvp]; the same line
    from [/] leaves a child that exits with status 1. *)
Definition xcd : sstate := default (init k0 "/") (shell_step ex_env (line "cd /data") (init k0 "/")).
Definition xcd2 : sstate := default xcd (shell_step ex_env (line "cat < missing") xcd).
Definition xcd_child : child_end := default (ChildExit 0 []) (sh_children (st_sh xcd2) !! 100).

Example cd_moves_children :
  st_cwd xcd = "/data" /\ exec_fd xcd_child 0 = Some (OFile "missing" O_RDONLY) /\
  sh_children (st_sh (default xcd (shell_step ex_env (line "cat < missing") (init k0 "/")))) !! 100 =
    Some (ChildExit 1 [(Terminal, "cannot open missing for input" ++ nl)%string]).
Proof. vm_compute. repeat split. Qed.


(** [echo $$] from [init k0 "/"]: the child [100] runs [echo 4242]. *)
Lemma foreground_line_runs_witness :
  exists s', shell_step ex_env (line "echo $$") (init k0 "/") = Some (mkS s' (Waiting 100) "/") /\
    sh_children s' !! 100 =
      Some (run_child (ex_fs_at "/") main_dispositions (slots_of ["echo"; "4242"]) 2 false true).
Proof.
  destruct (foreground_line_runs ex_env (init k0 "/") ("echo $$" ++ nl) "echo $$" ["echo"; "$$"]
              ["echo"; "4242"] "echo" ["4242"]) as (s' & Hs & _ & _ & _ & _ & Hc);
    [reflexivity | discriminate | vm_compute; reflexivity | discriminate | reflexivity
    | vm_compute; reflexivity | vm_compute; reflexivity | reflexivity | discriminate
    | discriminate | discriminate | vm_compute; lia |].
  exists s'. split; [exact Hs | exact Hc].
Defined.

(** [exit] at end of file, without its newline: the shell forks [exi]. *)
Lemma exit_without_newline_witness :
  exists s', shell_step ex_env (EvLine "exit") (init k0 "/") = Some (mkS s' (Waiting 100) "/") /\
    sh_children s' !! 100 =
      Some (run_child (ex_fs_at "/") main_dispositions (slots_of ["exi"]) 1 false true).
Proof.
  destruct (exit_without_newline ex_env (init k0 "/") EmptyString) as (s' & H1 & H2);
    [reflexivity | by left | vm_compute; lia |].
  exists s'. split; [exact H1 | exact H2].
Defined.

(** The state after fifty [ls &]: fifty jobs. *)
Definition x50 : sstate := default (init k0 "/") (run ex_env (replicate 50 (line "ls &")) (init k0 "/")).

Lemma too_many_jobs_witness :
  pidCount (sh_reg (st_sh x50)) = MAXJOBS /\
  exists s', shell_step ex_env (line "ls &") x50 = Some (mkS s' Crashed (st_cwd x50)).
Proof.
  split; [vm_compute; reflexivity|].
  apply (too_many_jobs ex_env x50 ("ls &" ++ nl) "ls &" ["ls"; "&"] ["ls"; "&"] "ls" ["&"]);
    [vm_compute; reflexivity | discriminate | vm_compute; reflexivity | discriminate | reflexivity
    | vm_compute; reflexivity | vm_compute; reflexivity | reflexivity | discriminate | discriminate
    | reflexivity | vm_compute; reflexivity | vm_compute; reflexivity | vm_compute; lia].
Defined.

(** Job [9] of [xb] exited with 9: after a blank line, [status] prints
    [exit value 9] rather than the status word [-5] of the shell. *)
Lemma status_reports_background_witness :
  checkStatus 2304 = [exit_value_msg 9] /\
  exists x1, shell_step ex_env (EvLine nl) (xb true) = Some x1 /\ childExitMethod (st_sh x1) = 2304 /\
    shell_step ex_env (EvLine ("status" ++ nl)) x1 =
      Some (shell_reap (sh_print (checkStatus 2304) (st_sh x1)) (st_cwd (xb true))).
Proof.
  split; [reflexivity|].
  apply (status_reports_background ex_env (xb true) [7] 9 [] 2304);
    [reflexivity | exact (xb_inv true) | reflexivity | reflexivity | constructor].
Defined.

End ShellProps.
